(** * universal-map-component: layer and data-source registries, map facade

    A shallow embedding of the TypeScript sources

    - [core/layer.ts]        (BaseLayer, LayerFactory, LayerManager)
    - [core/data-source.ts]  (the DataSource variants, DataSourceFactory,
                              DataSourceManager)
    - [core/provider.ts]     (BaseMapProvider)
    - [core/UniversalMap.ts] (the facade)
    - [providers/google/GoogleMapsProvider.ts] (layer bookkeeping)
    - [providers/google/loader.ts] (GoogleMapsAPILoader)

    followed by the properties of the specification, each stated over
    these definitions.

    Conventions.  A JavaScript number is an IEEE-754 double ([float]).
    A plain object used as a record of unknown shape is a finite map from
    property names to values.  A method that may throw runs in the monad
    [ST S], which threads the state of the receiver and keeps whatever
    was written before the exception was raised: JavaScript does not
    roll back.  Every [throw] site of the sources has its own constructor
    of [error]. *)

From Stdlib Require Import Floats.
From stdpp Require Import gmap strings list fin_maps.

Set Default Proof Using "Type".
Set Warnings "-register-all".
Open Scope string_scope.
Open Scope stdpp_scope.

(* ===================================================================== *)
(** ** JavaScript values *)
(* ===================================================================== *)

Module JS.

Inductive value :=
| VUndef
| VNull
| VBool (b : bool)
| VNum (n : float)
| VStr (s : string)
| VArr (items : list value)
| VObj (props : gmap string value).

(** ToBoolean: [undefined], [null], [false], [0], [-0], [NaN] and the
    empty string are falsy; arrays and objects are truthy. *)
Definition truthy (v : value) : bool :=
  match v with
  | VUndef | VNull => false
  | VBool b => b
  | VNum n => negb (PrimFloat.eqb n 0%float || PrimFloat.is_nan n)
  | VStr s => negb (String.eqb s "")
  | VArr _ | VObj _ => true
  end.

(** [o.k]: reading a property that is not there gives [undefined]. *)
Definition get (o : gmap string value) (k : string) : value :=
  default VUndef (o !! k).

(** ['k' in o] for a plain object. *)
Definition has (o : gmap string value) (k : string) : bool :=
  bool_decide (is_Some (o !! k)).

(** [{...a, ...b}]: the properties of [b] win. *)
Definition spread (a b : gmap string value) : gmap string value := b ∪ a.

(** [v === s] for a string literal [s]. *)
Definition is_str (v : value) (s : string) : bool :=
  match v with
  | VStr s' => String.eqb s' s
  | _ => false
  end.

(** [s.startsWith(p)], [s.endsWith(p)], [s.includes(p)] *)
Definition startsWith (s p : string) : bool := String.prefix p s.

Fixpoint endsWith (s p : string) : bool :=
  String.eqb s p ||
  match s with
  | EmptyString => false
  | String _ s' => endsWith s' p
  end.

Fixpoint includes (s p : string) : bool :=
  String.prefix p s ||
  match s with
  | EmptyString => false
  | String _ s' => includes s' p
  end.

(** A [string | undefined] used as a condition. *)
Definition truthy_str (s : option string) : bool :=
  match s with
  | Some s => negb (String.eqb s "")
  | None => false
  end.

(** [x !== undefined] for an optional value. *)
Definition defined {A} (x : option A) : bool :=
  match x with Some _ => true | None => false end.

End JS.

Abbreviation object := (gmap string JS.value).

(* ===================================================================== *)
(** ** Errors *)
(* ===================================================================== *)

(** The five concrete DataSource classes. *)
Inductive DataSourceClass :=
| GeoJSONDataSource
| URLDataSource
| TileDataSource
| ThreeDTilesDataSource
| MockDataSource.

(** The [code] of a [MapError]. *)
Inductive MapErrorCode :=
| INIT_ERROR
| CONFIG_ERROR
| PROVIDER_NOT_FOUND
| NOT_INITIALIZED.

(** One constructor per [throw] of the sources; the comment gives the
    message. *)
Inductive error :=
(* core/layer.ts *)
| LayerIdRequired                       (* Layer ID is required *)
| LayerTypeRequired                     (* Layer type is required *)
| LayerSourceRequired                   (* Layer source is required *)
| OpacityOutOfRange                     (* Opacity must be between 0 and 1 *)
| LayerAlreadyExists (id : option string) (* Layer with id ... already exists *)
| LayerNotFound (id : string)           (* Layer with id ... not found *)
(* core/data-source.ts *)
| InvalidDataSourceType (c : DataSourceClass) (* Invalid data source type for ... *)
| GeoJSONLoadFailed (statusText : string)     (* Failed to load GeoJSON: ... *)
| GeoJSONDataRequired                   (* GeoJSON data or URL is required *)
| URLRequired                           (* URL is required for URLDataSource *)
| DataLoadFailed (statusText : string)  (* Failed to load data: ... *)
| TileURLRequired                       (* Tile URL template is required *)
| TilesetURLRequired                    (* 3D Tiles tileset URL is required *)
| UnsupportedDataSourceType (tag : JS.value)  (* Unsupported data source type: ... *)
| DataSourceNotFound (id : string)      (* Data source ... not found *)
(* rejections of the host: fetch transport failure, response.json() *)
| HostRejection (cause : string)
(* core/UniversalMap.ts *)
| MapError (code : MapErrorCode) (details : option error)
(* thrown by the runtime itself *)
| TypeError (what : string)
(* core/provider.ts *)
| ContainerRequired                     (* Container is required *)
| ApiKeyRequired (name : string)        (* API key is required for ... provider *)
| ContainerNotFound (id : string)       (* Container element with id ... not found *)
(* providers/google/GoogleMapsProvider.ts *)
| ProviderMapNotInitialized             (* Map not initialized *)
| ProviderBoundsNotAvailable            (* Bounds not available *)
| ProviderLayerManagerNotInitialized    (* Layer manager not initialized *)
| ProviderLayerNotFound (id : string)   (* Layer ... not found *)
(* providers/google/loader.ts *)
| GoogleMapsLoadFailed (cause : string).

(** The kinds of error of the specification's taxonomy. *)
Inductive ErrorKind :=
| ConfigurationError
| ValidationError
| UnsupportedSourceTypeError
| DuplicateIdError
| NotFoundError
| LoadError
| NotInitializedError
| InitializationError
| RuntimeError.

Definition kind (e : error) : ErrorKind :=
  match e with
  | LayerIdRequired | LayerTypeRequired | LayerSourceRequired => ConfigurationError
  | OpacityOutOfRange => ValidationError
  | LayerAlreadyExists _ => DuplicateIdError
  | LayerNotFound _ | DataSourceNotFound _ | ProviderLayerNotFound _ => NotFoundError
  | InvalidDataSourceType _ | ContainerRequired | ApiKeyRequired _
  | ContainerNotFound _ => ConfigurationError
  | GeoJSONDataRequired | URLRequired | TileURLRequired | TilesetURLRequired =>
      ConfigurationError
  | GeoJSONLoadFailed _ | DataLoadFailed _ | HostRejection _
  | GoogleMapsLoadFailed _ => LoadError
  | UnsupportedDataSourceType _ => UnsupportedSourceTypeError
  | MapError NOT_INITIALIZED _ => NotInitializedError
  | MapError INIT_ERROR _ | MapError PROVIDER_NOT_FOUND _ => InitializationError
  | MapError CONFIG_ERROR _ => ConfigurationError
  | ProviderMapNotInitialized | ProviderLayerManagerNotInitialized =>
      NotInitializedError
  | ProviderBoundsNotAvailable | TypeError _ => RuntimeError
  end.

(* ===================================================================== *)
(** ** Methods that mutate their receiver and may throw *)
(* ===================================================================== *)

Inductive result (A : Type) :=
| Ok (a : A)
| Throw (e : error).
Arguments Ok {A} a.
Arguments Throw {A} e.

Definition threw {A} (r : result A) : bool :=
  match r with Ok _ => false | Throw _ => true end.

(** A computation over a receiver of type [S].  The state that comes
    back with a [Throw] is the state at the moment of the exception. *)
Record ST (S A : Type) := mkST { run : S → S * result A }.
Arguments mkST {S A} run.
Arguments run {S A} _ _.

Definition st_ret {S A} (a : A) : ST S A := mkST (λ s, (s, Ok a)).

Definition st_bind {S A B} (f : A → ST S B) (m : ST S A) : ST S B :=
  mkST (λ s,
    match run m s with
    | (s', Ok a) => run (f a) s'
    | (s', Throw e) => (s', Throw e)
    end).

#[global] Instance ST_ret S : MRet (ST S) := @st_ret S.
#[global] Instance ST_bind S : MBind (ST S) := @st_bind S.

Definition throw {S A} (e : error) : ST S A := mkST (λ s, (s, Throw e)).
Definition read {S} : ST S S := mkST (λ s, (s, Ok s)).
Definition write {S} (s : S) : ST S unit := mkST (λ _, (s, Ok tt)).
(** The state and the outcome of a run. *)
Definition state_after {S A} (m : ST S A) (s : S) : S := (run m s).1.
Definition outcome {S A} (m : ST S A) (s : S) : result A := (run m s).2.

Definition lift {S A} (r : result A) : ST S A := mkST (λ s, (s, r)).

(** [try { m } catch (error) { handler(error) }] *)
Definition try_catch {S A} (m : ST S A) (handler : error → ST S A) : ST S A :=
  mkST (λ s,
    match run m s with
    | (s', Ok a) => (s', Ok a)
    | (s', Throw e) => run (handler e) s'
    end).

Definition modify {S} (f : S → S) : ST S unit := mkST (λ s, (f s, Ok tt)).

(* ===================================================================== *)
(** ** core/types.ts: layer descriptors *)
(* ===================================================================== *)

(** [DataSource | string | GeoJSON]: a string or an object. *)
Inductive SourceInput :=
| SrcString (s : string)
| SrcObject (o : object).

(** A source used as a condition: the empty string is the one falsy
    source. *)
Definition truthy_source (s : option SourceInput) : bool :=
  match s with
  | None => false
  | Some (SrcString s) => negb (String.eqb s "")
  | Some (SrcObject _) => true
  end.

(** [interface LayerConfig].  A field holds [None] when reading it gives
    [undefined].  The type says that [id], [type] and [source] are there;
    the constructor of a layer checks it, and a spread can undo it. *)
Module LayerConfig.
Record t := mk {
  id : option string;
  type : option string;
  source : option SourceInput;
  style : option object;
  visible : option bool;
  opacity : option float;
  minZoom : option float;
  maxZoom : option float;
  options : option object }.
End LayerConfig.

(** [Partial<LayerConfig>].  A key is absent ([None]), or present with a
    value ([Some (Some v)]) or with [undefined] ([Some None]): the
    compiler accepts [{visible: undefined}], and a spread copies the
    key. *)
Module Partial.
Record t := mk {
  id : option (option string);
  type : option (option string);
  source : option (option SourceInput);
  style : option (option object);
  visible : option (option bool);
  opacity : option (option float);
  minZoom : option (option float);
  maxZoom : option (option float);
  options : option (option object) }.

Definition empty : t := mk None None None None None None None None None.

(** The value read from a key: [undefined] when the key is absent. *)
Definition read {A} (k : option (option A)) : option A :=
  match k with Some v => v | None => None end.
End Partial.

(** One key of [{...config, ...updates}]. *)
Definition over {A} (old : option A) (upd : option (option A)) : option A :=
  match upd with
  | None => old
  | Some v => v
  end.

(** [{...config, ...updates}] *)
Definition spread_config (config : LayerConfig.t) (updates : Partial.t)
  : LayerConfig.t :=
  LayerConfig.mk
    (over (LayerConfig.id config) (Partial.id updates))
    (over (LayerConfig.type config) (Partial.type updates))
    (over (LayerConfig.source config) (Partial.source updates))
    (over (LayerConfig.style config) (Partial.style updates))
    (over (LayerConfig.visible config) (Partial.visible updates))
    (over (LayerConfig.opacity config) (Partial.opacity updates))
    (over (LayerConfig.minZoom config) (Partial.minZoom updates))
    (over (LayerConfig.maxZoom config) (Partial.maxZoom updates))
    (over (LayerConfig.options config) (Partial.options updates)).

(** Assignments to one field of a descriptor. *)
Definition with_style (st : option object) (c : LayerConfig.t) : LayerConfig.t :=
  LayerConfig.mk (LayerConfig.id c) (LayerConfig.type c) (LayerConfig.source c)
    st (LayerConfig.visible c) (LayerConfig.opacity c)
    (LayerConfig.minZoom c) (LayerConfig.maxZoom c) (LayerConfig.options c).

Definition with_visible (v : option bool) (c : LayerConfig.t) : LayerConfig.t :=
  LayerConfig.mk (LayerConfig.id c) (LayerConfig.type c) (LayerConfig.source c)
    (LayerConfig.style c) v (LayerConfig.opacity c)
    (LayerConfig.minZoom c) (LayerConfig.maxZoom c) (LayerConfig.options c).

Definition with_opacity (o : option float) (c : LayerConfig.t) : LayerConfig.t :=
  LayerConfig.mk (LayerConfig.id c) (LayerConfig.type c) (LayerConfig.source c)
    (LayerConfig.style c) (LayerConfig.visible c) o
    (LayerConfig.minZoom c) (LayerConfig.maxZoom c) (LayerConfig.options c).

Definition with_source (s : option SourceInput) (c : LayerConfig.t) : LayerConfig.t :=
  LayerConfig.mk (LayerConfig.id c) (LayerConfig.type c) s
    (LayerConfig.style c) (LayerConfig.visible c) (LayerConfig.opacity c)
    (LayerConfig.minZoom c) (LayerConfig.maxZoom c) (LayerConfig.options c).

(* ===================================================================== *)
(** ** core/layer.ts *)
(* ===================================================================== *)

(** [interface ILayer]: the two read-only fields and the descriptor. *)
Module ILayer.
Record t := mk {
  id : string;
  type : string;
  config : LayerConfig.t }.

Definition with_config (c : LayerConfig.t) (this : t) : t :=
  mk (id this) (type this) c.
End ILayer.

Module BaseLayer.

(** [validateConfig()] *)
Definition validateConfig (config : LayerConfig.t) : result unit :=
  if negb (JS.truthy_str (LayerConfig.id config)) then Throw LayerIdRequired
  else if negb (JS.truthy_str (LayerConfig.type config)) then Throw LayerTypeRequired
  else if negb (truthy_source (LayerConfig.source config)) then Throw LayerSourceRequired
  else Ok tt.

(** [constructor(config)]: the fields are assigned, then the descriptor
    is validated; the object exists only if the validation passes. *)
Definition new (config : LayerConfig.t) : result ILayer.t :=
  match validateConfig config with
  | Throw e => Throw e
  | Ok _ =>
      Ok (ILayer.mk (default "" (LayerConfig.id config))
                    (default "" (LayerConfig.type config))
                    config)
  end.

(** [setStyle(style)]: [this.config.style = {...this.config.style, ...style}];
    spreading [undefined] adds nothing. *)
Definition setStyle (style : object) : ST ILayer.t unit :=
  modify (λ this,
    ILayer.with_config
      (with_style
         (Some (JS.spread (default ∅ (LayerConfig.style (ILayer.config this))) style))
         (ILayer.config this))
      this).

(** [setVisible(visible)] *)
Definition setVisible (visible : bool) : ST ILayer.t unit :=
  modify (λ this,
    ILayer.with_config (with_visible (Some visible) (ILayer.config this)) this).

(** [setOpacity(opacity)] *)
Definition setOpacity (opacity : float) : ST ILayer.t unit :=
  if PrimFloat.ltb opacity 0%float || PrimFloat.ltb 1%float opacity
  then throw OpacityOutOfRange
  else
    modify (λ this,
      ILayer.with_config (with_opacity (Some opacity) (ILayer.config this)) this).

(** [getSource()] *)
Definition getSource (this : ILayer.t) : option SourceInput :=
  LayerConfig.source (ILayer.config this).

(** [setSource(source)] *)
Definition setSource (source : SourceInput) : ST ILayer.t unit :=
  modify (λ this,
    ILayer.with_config (with_source (Some source) (ILayer.config this)) this).

(** [GenericLayer.destroy()]: nothing to clean up. *)
Definition destroy : ST ILayer.t unit := mret tt.

End BaseLayer.

Module LayerFactory.

(** [createLayer(config)]: [new GenericLayer(config)] *)
Definition createLayer (config : LayerConfig.t) : result ILayer.t :=
  BaseLayer.new config.

(** [validateLayerConfig(config)] *)
Definition validateLayerConfig (config : LayerConfig.t) : result unit :=
  if negb (JS.truthy_str (LayerConfig.id config)) then Throw LayerIdRequired
  else if negb (JS.truthy_str (LayerConfig.type config)) then Throw LayerTypeRequired
  else if negb (truthy_source (LayerConfig.source config)) then Throw LayerSourceRequired
  else Ok tt.

End LayerFactory.

(** [class LayerManager]: its state is the private map [layers].  A layer
    object is reachable from the map only, so the object a method call
    mutates is the value stored under its key.  A layer holds the very
    descriptor object it was built from until the first [updateLayer]
    gives it a new one; what a caller does to that object behind the
    back of the manager is not modelled. *)
Module LayerManager.

(** [this.layers.has(id)]; no key of the map is [undefined]. *)
Definition has (layers : gmap string ILayer.t) (id : option string) : bool :=
  match id with
  | Some k => bool_decide (is_Some (layers !! k))
  | None => false
  end.

(** [this.layers.set(id, layer)] *)
Definition set (id : option string) (layer : ILayer.t)
    (layers : gmap string ILayer.t) : gmap string ILayer.t :=
  match id with
  | Some k => <[k := layer]> layers
  | None => layers
  end.

(** A method call on the layer stored under [layerId]. *)
Definition on_layer {A} (layerId : string) (m : ST ILayer.t A)
  : ST (gmap string ILayer.t) A :=
  mkST (λ layers,
    match layers !! layerId with
    | Some layer =>
        let '(layer', r) := run m layer in (<[layerId := layer']> layers, r)
    | None => (layers, Throw (LayerNotFound layerId))
    end).

(** [addLayer(config)] *)
Definition addLayer (config : LayerConfig.t) : ST (gmap string ILayer.t) ILayer.t :=
  layers ← read;
  if has layers (LayerConfig.id config)
  then throw (LayerAlreadyExists (LayerConfig.id config))
  else
    layer ← lift (LayerFactory.createLayer config);
    modify (set (LayerConfig.id config) layer);;
    mret layer.

(** [removeLayer(layerId)] *)
Definition removeLayer (layerId : string) : ST (gmap string ILayer.t) unit :=
  layers ← read;
  match layers !! layerId with
  | Some _ =>
      on_layer layerId BaseLayer.destroy;;
      modify (delete layerId)
  | None => mret tt
  end.

(** [getLayer(layerId)] *)
Definition getLayer (layerId : string) (layers : gmap string ILayer.t)
  : option ILayer.t := layers !! layerId.

(** [getAllLayers()], as a set of entries: the order of insertion is not
    kept by the model. *)
Definition getAllLayers (layers : gmap string ILayer.t) : list ILayer.t :=
  (map_to_list layers).*2.

(** The calls of [updateLayer] on the layer it has looked up, in the
    order of the source: style, visible, opacity, source, and then
    [layer.config = {...layer.config, ...updates}]. *)
Definition apply_updates (updates : Partial.t) : ST ILayer.t unit :=
  match Partial.read (Partial.style updates) with
  | Some style => BaseLayer.setStyle style
  | None => mret tt
  end;;
  match Partial.read (Partial.visible updates) with
  | Some visible => BaseLayer.setVisible visible
  | None => mret tt
  end;;
  match Partial.read (Partial.opacity updates) with
  | Some opacity => BaseLayer.setOpacity opacity
  | None => mret tt
  end;;
  match Partial.read (Partial.source updates) with
  | Some source =>
      if truthy_source (Some source) then BaseLayer.setSource source else mret tt
  | None => mret tt
  end;;
  modify (λ layer,
    ILayer.with_config (spread_config (ILayer.config layer) updates) layer).

(** [updateLayer(layerId, updates)] *)
Definition updateLayer (layerId : string) (updates : Partial.t)
  : ST (gmap string ILayer.t) unit :=
  layers ← read;
  match layers !! layerId with
  | None => throw (LayerNotFound layerId)
  | Some _ => on_layer layerId (apply_updates updates)
  end.

(** [clear()] *)
Definition clear : ST (gmap string ILayer.t) unit :=
  write ∅.

(** [hasLayer(layerId)] *)
Definition hasLayer (layerId : string) (layers : gmap string ILayer.t) : bool :=
  bool_decide (is_Some (layers !! layerId)).

(** [getLayerCount()] *)
Definition getLayerCount (layers : gmap string ILayer.t) : nat := size layers.

End LayerManager.


(* ===================================================================== *)
(** ** core/data-source.ts *)
(* ===================================================================== *)

(** [interface DataSource] is a plain object, read through its keys
    [type], [data], [url] and [options]: [normalizeSource] hands any
    object with a truthy [type] on as a [DataSource]. *)

(** The host side of a load: what [fetch] and [response.json()] settle
    to.  Both are decided by the network, not by this program. *)
Inductive JsonOutcome :=
| JsonRejects (cause : string)
| JsonResolves (v : JS.value).

Record Response := mkResponse {
  ok : bool;
  statusText : string;
  json : JsonOutcome }.

Inductive FetchOutcome :=
| FetchRejects (cause : string)
| FetchResolves (r : Response).

(** What the program has done to its host: the arguments of its calls of
    [fetch], and its [console.warn] lines, oldest first. *)
Record Host := mkHost {
  fetched : list JS.value;
  warnings : list string }.

Definition do_fetch (url : JS.value) (h : Host) : Host :=
  mkHost (fetched h ++ [url]) (warnings h).

Definition do_warn (msg : string) (h : Host) : Host :=
  mkHost (fetched h) (warnings h ++ [msg]).

(** The promise of one call of [load()], with the [await] it is
    suspended at while pending. *)
Inductive LoadTask :=
| AwaitFetch                    (* at [await fetch(...)] *)
| AwaitJson (r : Response)      (* at [await response.json()] *)
| Resolved (v : JS.value)
| Rejected (e : error).

Definition settled (t : LoadTask) : bool :=
  match t with
  | Resolved _ | Rejected _ => true
  | AwaitFetch | AwaitJson _ => false
  end.

Definition tag_of (c : DataSourceClass) : string :=
  match c with
  | GeoJSONDataSource => "geojson"
  | URLDataSource => "url"
  | TileDataSource => "tiles"
  | ThreeDTilesDataSource => "3d-tiles"
  | MockDataSource => "mock"
  end.

(** [interface IDataSource], with the protected fields of
    [BaseDataSource] and the class of the object. *)
Module IDataSource.
Record t := mk {
  cls : DataSourceClass;
  type : JS.value;
  config : object;
  loaded : bool;
  data : JS.value }.

Definition with_payload (l : bool) (d : JS.value) (this : t) : t :=
  mk (cls this) (type this) (config this) l d.
End IDataSource.

Module BaseDataSource.

(** [constructor(config)] of a concrete class: [super(config)], then the
    check of the tag. *)
Definition new (c : DataSourceClass) (config : object) : result IDataSource.t :=
  if negb (JS.is_str (JS.get config "type") (tag_of c))
  then Throw (InvalidDataSourceType c)
  else Ok (IDataSource.mk c (JS.get config "type") config false JS.VNull).

(** [isLoaded()] *)
Definition isLoaded (this : IDataSource.t) : bool := IDataSource.loaded this.

(** [destroy()] *)
Definition destroy (this : IDataSource.t) : IDataSource.t :=
  IDataSource.with_payload false JS.VNull this.

(** [this.loaded && this.data], the test that opens the two fetching
    [load()] *)
Definition memoized (this : IDataSource.t) : bool :=
  IDataSource.loaded this && JS.truthy (IDataSource.data this).

(** The empty feature collection of [MockDataSource.load()]. *)
Definition emptyFeatureCollection : JS.value :=
  JS.VObj {[ "type" := JS.VStr "FeatureCollection"; "features" := JS.VArr [] ]}.

(** [load()], from the call to its first [await] or to its end. *)
Definition load_begin (this : IDataSource.t) (h : Host)
  : IDataSource.t * Host * LoadTask :=
  let config := IDataSource.config this in
  match IDataSource.cls this with
  | GeoJSONDataSource =>
      if memoized this then (this, h, Resolved (IDataSource.data this))
      else
        match JS.get config "data" with
        | JS.VStr url => (this, do_fetch (JS.VStr url) h, AwaitFetch)
        | inline =>
            if JS.truthy inline
            then (IDataSource.with_payload true inline this, h, Resolved inline)
            else (this, h, Rejected GeoJSONDataRequired)
        end
  | URLDataSource =>
      if memoized this then (this, h, Resolved (IDataSource.data this))
      else if negb (JS.truthy (JS.get config "url"))
      then (this, h, Rejected URLRequired)
      else (this, do_fetch (JS.get config "url") h, AwaitFetch)
  | TileDataSource =>
      if negb (JS.truthy (JS.get config "url"))
      then (this, h, Rejected TileURLRequired)
      else (IDataSource.with_payload true (JS.get config "url") this, h,
            Resolved (JS.get config "url"))
  | ThreeDTilesDataSource =>
      match JS.get config "url" with
      | JS.VStr url =>
          if negb (JS.truthy (JS.VStr url))
          then (this, h, Rejected TilesetURLRequired)
          else
            (IDataSource.with_payload true (JS.VStr url) this,
             (if negb (JS.endsWith url ".json") && negb (JS.includes url "tileset")
              then do_warn "3D Tiles URL should typically point to a tileset.json file" h
              else h),
             Resolved (JS.VStr url))
      | other =>
          if negb (JS.truthy other)
          then (this, h, Rejected TilesetURLRequired)
          else (this, h, Rejected (TypeError "this.config.url.endsWith is not a function"))
      end
  | MockDataSource =>
      let d := if JS.truthy (JS.get config "data") then JS.get config "data"
               else emptyFeatureCollection in
      (IDataSource.with_payload true d this, h, Resolved d)
  end.

(** The message of the error thrown on a response that is not [ok]. *)
Definition not_ok (c : DataSourceClass) (statusText : string) : error :=
  match c with
  | GeoJSONDataSource => GeoJSONLoadFailed statusText
  | _ => DataLoadFailed statusText
  end.

(** [load()] resumed when the promise of [fetch] settles: a rejection
    leaves the function as it is; a response is tested and its
    [json()] awaited. *)
Definition load_fetched (this : IDataSource.t) (o : FetchOutcome)
  : IDataSource.t * LoadTask :=
  match o with
  | FetchRejects cause => (this, Rejected (HostRejection cause))
  | FetchResolves r =>
      if negb (ok r)
      then (this, Rejected (not_ok (IDataSource.cls this) (statusText r)))
      else (this, AwaitJson r)
  end.

(** [load()] resumed when [response.json()] settles: the payload is
    stored, [loaded] is set, and [this.data] is returned. *)
Definition load_parsed (this : IDataSource.t) (o : JsonOutcome)
  : IDataSource.t * LoadTask :=
  match o with
  | JsonRejects cause => (this, Rejected (HostRejection cause))
  | JsonResolves v => (IDataSource.with_payload true v this, Resolved v)
  end.

End BaseDataSource.

Module DataSourceFactory.

(** [createDataSource(config)] *)
Definition createDataSource (config : object) : result IDataSource.t :=
  let type := JS.get config "type" in
  if JS.is_str type "geojson" then BaseDataSource.new GeoJSONDataSource config
  else if JS.is_str type "url" then BaseDataSource.new URLDataSource config
  else if JS.is_str type "tiles" then BaseDataSource.new TileDataSource config
  else if JS.is_str type "3d-tiles" then BaseDataSource.new ThreeDTilesDataSource config
  else if JS.is_str type "mock" then BaseDataSource.new MockDataSource config
  else Throw (UnsupportedDataSourceType type).

(** [normalizeSource(source)] *)
Definition normalizeSource (source : SourceInput) : object :=
  match source with
  | SrcString s =>
      if JS.startsWith s "mock://"
      then {[ "type" := JS.VStr "mock"; "data" := JS.VStr s ]}
      else {[ "type" := JS.VStr "url"; "url" := JS.VStr s ]}
  | SrcObject o =>
      if JS.has o "type" && JS.truthy (JS.get o "type")
      then o
      else {[ "type" := JS.VStr "geojson"; "data" := JS.VObj o ]}
  end.

End DataSourceFactory.

(** *** One DataSource object under its callers and its host

    The runtime is single-threaded: a call of [load()] runs to its first
    [await], and a suspended call runs again when the promise it waits
    for settles.  The caller and the host choose the order; an event
    that finds its call elsewhere than where it expects it does
    nothing. *)
Module Runtime.

Record System := mkSystem {
  this : IDataSource.t;
  host : Host;
  calls : list LoadTask }.

Inductive Event :=
| CallLoad                                   (* a caller calls [load()] *)
| FetchSettles (i : nat) (o : FetchOutcome)  (* the fetch of call [i] settles *)
| JsonSettles (i : nat)                      (* the [json()] of call [i] settles *)
| CallDestroy.                               (* a caller calls [destroy()] *)

Definition step (s : System) (e : Event) : System :=
  match e with
  | CallLoad =>
      let '(this', host', t) := BaseDataSource.load_begin (this s) (host s) in
      mkSystem this' host' (calls s ++ [t])
  | FetchSettles i o =>
      match calls s !! i with
      | Some AwaitFetch =>
          let '(this', t) := BaseDataSource.load_fetched (this s) o in
          mkSystem this' (host s) (<[i := t]> (calls s))
      | _ => s
      end
  | JsonSettles i =>
      match calls s !! i with
      | Some (AwaitJson r) =>
          let '(this', t) := BaseDataSource.load_parsed (this s) (json r) in
          mkSystem this' (host s) (<[i := t]> (calls s))
      | _ => s
      end
  | CallDestroy =>
      mkSystem (BaseDataSource.destroy (this s)) (host s) (calls s)
  end.

Definition exec (s : System) (es : list Event) : System := foldl step s es.

Definition start (this : IDataSource.t) : System :=
  mkSystem this (mkHost [] []) [].

(** The events of the host alone: no new call arrives. *)
Definition host_event (e : Event) : bool :=
  match e with
  | FetchSettles _ _ | JsonSettles _ => true
  | CallLoad | CallDestroy => false
  end.

End Runtime.

(** [class DataSourceManager].  Its private map holds references; the
    objects live in [store], by address, where a caller who kept the
    result of [registerSource] still finds an object that has left the
    map.  [destroyed] lists the addresses on which [destroy()] has been
    called, oldest first. *)
Module DataSourceManager.

Record t := mk {
  sources : gmap string nat;
  store : list IDataSource.t;
  destroyed : list nat }.

Definition empty : t := mk ∅ [] [].

(** A call of [destroy()] on the object at address [r]. *)
Definition destroy_at (r : nat) (m : t) : t :=
  mk (sources m)
     (alter BaseDataSource.destroy r (store m))
     (destroyed m ++ [r]).

(** [registerSource(id, config)] *)
Definition registerSource (id : string) (config : object) : ST t nat :=
  source ← lift (DataSourceFactory.createDataSource config);
  m ← read;
  write (mk (<[id := length (store m)]> (sources m))
            (store m ++ [source])
            (destroyed m));;
  mret (length (store m)).

(** [getSource(id)] *)
Definition getSource (id : string) (m : t) : option nat := sources m !! id.

(** The object behind a reference. *)
Definition deref (r : nat) (m : t) : option IDataSource.t := store m !! r.

(** [removeSource(id)] *)
Definition removeSource (id : string) : ST t unit :=
  m ← read;
  match sources m !! id with
  | Some r =>
      modify (destroy_at r);;
      modify (λ m, mk (delete id (sources m)) (store m) (destroyed m))
  | None => mret tt
  end.

(** [clear()]: every entry is destroyed, then the map is emptied.  The
    model visits the entries in the order of its map, not in the order
    of their insertion. *)
Definition clear : ST t unit :=
  m ← read;
  write (foldr destroy_at m (map_to_list (sources m)).*2);;
  modify (λ m, mk ∅ (store m) (destroyed m)).

(** [loadSource(id)], to the first [await] of the [load()] it calls. *)
Definition loadSource (id : string) (m : t) (h : Host) : t * Host * LoadTask :=
  match sources m !! id with
  | None => (m, h, Rejected (DataSourceNotFound id))
  | Some r =>
      match store m !! r with
      | Some source =>
          let '(source', h', task) := BaseDataSource.load_begin source h in
          (mk (sources m) (<[r := source']> (store m)) (destroyed m), h', task)
      | None => (m, h, Rejected (DataSourceNotFound id))
      end
  end.

End DataSourceManager.

(* ===================================================================== *)
(** ** core/types.ts: the map *)
(* ===================================================================== *)

(** [Coordinates] and [BoundingBox] *)
Abbreviation Coordinates := (float * float)%type.
Abbreviation BoundingBox := (float * float * float * float)%type.

Module ViewState.
Record t := mk {
  center : Coordinates;
  zoom : float;
  bearing : option float;
  pitch : option float }.
End ViewState.

(** [Partial<ViewState>] as it is read: a key that is absent reads as
    [undefined]. *)
Module PartialViewState.
Record t := mk {
  center : option Coordinates;
  zoom : option float;
  bearing : option float;
  pitch : option float }.
End PartialViewState.

(** [CameraOptions], without its easing function. *)
Module CameraOptions.
Record t := mk {
  center : option Coordinates;
  zoom : option float;
  bearing : option float;
  pitch : option float;
  duration : option float }.
End CameraOptions.

(** [MapConfig]; [container] is taken as the id of an element (the
    other form, the element itself, is not modelled). *)
Module MapConfig.
Record t := mk {
  provider : option string;
  container : option string;
  viewState : option ViewState.t;
  center : option Coordinates;
  zoom : option float;
  apiKey : option string;
  projection : option string;
  enable3D : option bool;
  mockData : option string;
  providerOptions : option object }.

Definition with_position (c : option Coordinates) (z : option float) (this : t) : t :=
  mk (provider this) (container this) (viewState this) c z (apiKey this)
     (projection this) (enable3D this) (mockData this) (providerOptions this).
End MapConfig.

(* ===================================================================== *)
(** ** core/events.ts *)
(* ===================================================================== *)

(** A [MapEventHandler] is a function; the model keeps who it is.  What
    a callback of the caller does when it runs is not modelled. *)
Inductive Handler :=
| Callback (h : nat)                   (* a function of the caller *)
| OnceHandler (closure : nat) (h : nat) (* the closure [once] builds around [h] *)
| Forwarder (eventType : string).      (* a closure of [setupEventForwarding] *)

#[global] Instance Handler_eq_dec : EqDecision Handler.
Proof. solve_decision. Defined.

(** [class EventEmitter]: the sets of handlers by event type, each in
    the order of insertion; the number of closures [once] has built; and
    the calls of handlers made by [emit], oldest first. *)
Module EventEmitter.

Record t := mk {
  listeners : gmap string (list Handler);
  closures : nat;
  delivered : list (Handler * string) }.

Definition new : t := mk ∅ 0 [].

(** [set.add(handler)] *)
Definition set_add (h : Handler) (hs : list Handler) : list Handler :=
  if bool_decide (h ∈ hs) then hs else hs ++ [h].

(** [set.delete(handler)] *)
Definition set_delete (h : Handler) (hs : list Handler) : list Handler :=
  filter (λ h', h' ≠ h) hs.

(** [on(eventType, handler)] *)
Definition on (eventType : string) (handler : Handler) (this : t) : t :=
  mk (<[eventType := set_add handler (default [] (listeners this !! eventType))]>
        (listeners this))
     (closures this) (delivered this).

(** [off(eventType, handler)] *)
Definition off (eventType : string) (handler : Handler) (this : t) : t :=
  match listeners this !! eventType with
  | Some handlers =>
      let handlers' := set_delete handler handlers in
      mk (match handlers' with
          | [] => delete eventType (listeners this)
          | _ => <[eventType := handlers']> (listeners this)
          end)
         (closures this) (delivered this)
  | None => this
  end.

(** [once(eventType, handler)] *)
Definition once (eventType : string) (h : nat) (this : t) : t :=
  on eventType (OnceHandler (closures this) h)
     (mk (listeners this) (S (closures this)) (delivered this)).

(** One handler called by [emit]: the call is recorded; a closure of
    [once] takes itself off afterwards. *)
Definition call (eventType : string) (this : t) (handler : Handler) : t :=
  let this' := mk (listeners this) (closures this)
                  (delivered this ++ [(handler, eventType)]) in
  match handler with
  | OnceHandler _ _ => off eventType handler this'
  | _ => this'
  end.

(** [emit(eventType, event)] *)
Definition emit (eventType : string) (this : t) : t :=
  match listeners this !! eventType with
  | Some handlers => foldl (call eventType) this handlers
  | None => this
  end.

(** [removeAllListeners(eventType?)] *)
Definition removeAllListeners (eventType : option string) (this : t) : t :=
  match eventType with
  | Some e =>
      if negb (String.eqb e "")
      then mk (delete e (listeners this)) (closures this) (delivered this)
      else mk ∅ (closures this) (delivered this)
  | None => mk ∅ (closures this) (delivered this)
  end.

(** [listenerCount(eventType)] *)
Definition listenerCount (eventType : string) (this : t) : nat :=
  length (default [] (listeners this !! eventType)).

(** [eventNames()], as a set. *)
Definition eventNames (this : t) : list string :=
  (map_to_list (listeners this)).*1.

(** [hasListeners(eventType)] *)
Definition hasListeners (eventType : string) (this : t) : bool :=
  bool_decide (0 < listenerCount eventType this).

End EventEmitter.

(* ===================================================================== *)
(** ** core/provider.ts *)
(* ===================================================================== *)

(** [interface IMapProvider], over the state [P] of the object behind
    it.  [initialize] stands for the call and the wait for its
    promise. *)
Module IMapProvider.
Class t (P : Type) := mk {
  initialize : MapConfig.t → ST P unit;
  destroy : ST P unit;
  getViewState : ST P ViewState.t;
  setViewState : PartialViewState.t → option CameraOptions.t → ST P unit;
  getBounds : ST P BoundingBox;
  fitBounds : BoundingBox → option CameraOptions.t → ST P unit;
  addLayer : LayerConfig.t → ST P unit;
  removeLayer : string → ST P unit;
  updateLayer : string → Partial.t → ST P unit;
  getLayer : string → ST P (option LayerConfig.t);
  getLayers : ST P (list LayerConfig.t);
  setLayerVisibility : string → bool → ST P unit;
  setLayerOpacity : string → float → ST P unit;
  on : string → Handler → ST P unit;
  off : string → Handler → ST P unit;
  resize : ST P unit;
  getMapInstance : ST P JS.value;
  isReady : P → bool }.
End IMapProvider.

(** The patches [{visible}] and [{opacity}]. *)
Definition patch_visible (visible : bool) : Partial.t :=
  Partial.mk None None None None (Some (Some visible)) None None None None.

Definition patch_opacity (opacity : float) : Partial.t :=
  Partial.mk None None None None None (Some (Some opacity)) None None None.

(** [abstract class BaseMapProvider]: the methods it implements, over
    the state [P] of a subclass, its protected map [layers] and its
    abstract [updateLayer]. *)
Module BaseMapProvider.
Section Methods.
Context {P : Type}.
Variable layers : P → gmap string LayerConfig.t.
Variable updateLayer : string → Partial.t → ST P unit.

(** [getLayer(layerId)] *)
Definition getLayer (layerId : string) : ST P (option LayerConfig.t) :=
  this ← read; mret (layers this !! layerId).

(** [getLayers()], as a set. *)
Definition getLayers : ST P (list LayerConfig.t) :=
  this ← read; mret (map_to_list (layers this)).*2.

(** [setLayerVisibility(layerId, visible)] *)
Definition setLayerVisibility (layerId : string) (visible : bool) : ST P unit :=
  this ← read;
  match layers this !! layerId with
  | Some _ => updateLayer layerId (patch_visible visible)
  | None => mret tt
  end.

(** [setLayerOpacity(layerId, opacity)] *)
Definition setLayerOpacity (layerId : string) (opacity : float) : ST P unit :=
  this ← read;
  match layers this !! layerId with
  | Some _ => updateLayer layerId (patch_opacity opacity)
  | None => mret tt
  end.

End Methods.
End BaseMapProvider.

(* ===================================================================== *)
(** ** providers/google/GoogleMapsProvider.ts *)
(* ===================================================================== *)

(** A call the provider makes on its [GoogleMapsLayerManager].  The
    manager draws through the Google Maps SDK; [addLayer] and
    [updateLayer] are [async] there, the provider drops their promise,
    and so nothing they do comes back to the provider as an exception. *)
Inductive RenderCall :=
| RenderAdd (config : LayerConfig.t)
| RenderRemove (layerId : string)
| RenderUpdate (layerId : string) (config : LayerConfig.t)
| RenderDestroy.

(** [ProviderCapabilities] *)
Module ProviderCapabilities.
Record t := mk {
  supports3D : bool;
  supportsVectorTiles : bool;
  supports3DTiles : bool;
  supportsCustomProjections : bool;
  supportsTerrain : bool;
  requiresApiKey : bool }.
End ProviderCapabilities.

(** The [google.maps.Map] object as the provider sees it: what its
    getters answer, and the calls made on it, oldest first.  What the SDK
    does with a call is its own business: the model records the call
    and leaves the answers as they are. *)
Module GoogleMap.

Inductive Call :=
| MoveCamera (camera : PartialViewState.t) (duration : option float)
| FitBounds (bounds : BoundingBox) (duration : option float)
| Trigger (eventName : string).

Record t := mk {
  getCenter : option Coordinates;
  getZoom : option float;
  getHeading : option float;
  getTilt : option float;
  getBounds : option BoundingBox;
  calls : list Call }.

Definition call (c : Call) (this : t) : t :=
  mk (getCenter this) (getZoom this) (getHeading this) (getTilt this)
     (getBounds this) (calls this ++ [c]).

End GoogleMap.

(** [x || d] for an optional number. *)
Definition number_or (x : option float) (d : float) : float :=
  match x with
  | Some n => if JS.truthy (JS.VNum n) then n else d
  | None => d
  end.

(** [options?.duration] when it is truthy. *)
Definition truthy_duration (options : option CameraOptions.t) : option float :=
  match options with
  | Some o =>
      match CameraOptions.duration o with
      | Some d => if JS.truthy (JS.VNum d) then Some d else None
      | None => None
      end
  | None => None
  end.

Module GoogleMapsProvider.

(** The protected fields of [BaseMapProvider] and the private fields of
    the subclass.  [layerManager] holds the calls made on the manager,
    oldest first; [eventMapper] the number of SDK listeners the mapper
    holds. *)
Record t := mk {
  config : option MapConfig.t;
  container : option string;
  layers : gmap string LayerConfig.t;
  eventHandlers : gmap string (list Handler);
  ready : bool;
  map : option GoogleMap.t;
  eventMapper : option nat;
  layerManager : option (list RenderCall) }.

Definition new : t := mk None None ∅ ∅ false None None None.

Definition name : string := "google".

Definition capabilities : ProviderCapabilities.t :=
  ProviderCapabilities.mk true true true false true true.

Definition with_layers (l : gmap string LayerConfig.t) (this : t) : t :=
  mk (config this) (container this) l (eventHandlers this) (ready this)
     (map this) (eventMapper this) (layerManager this).

Definition with_map (m : option GoogleMap.t) (this : t) : t :=
  mk (config this) (container this) (layers this) (eventHandlers this)
     (ready this) m (eventMapper this) (layerManager this).

(** [this.layerManager.m(...)] *)
Definition render (c : RenderCall) (this : t) : t :=
  mk (config this) (container this) (layers this) (eventHandlers this)
     (ready this) (map this) (eventMapper this)
     ((λ calls : list RenderCall, (calls ++ [c])%list) <$> layerManager this).

(** [this.map.m(...)] *)
Definition on_map (c : GoogleMap.Call) (this : t) : t :=
  with_map (GoogleMap.call c <$> map this) this.

(** [this.layers.set(id, layer)]; the type of [id] is [string]. *)
Definition set (id : option string) (layer : LayerConfig.t) (this : t) : t :=
  match id with
  | Some k => with_layers (<[k := layer]> (layers this)) this
  | None => this
  end.

(** [BaseMapProvider.validateConfig(config)]; Google Maps supports 3D, so
    the warning of the base class is never written. *)
Definition validateConfig (config : MapConfig.t) : result unit :=
  if negb (JS.truthy_str (MapConfig.container config)) then Throw ContainerRequired
  else if ProviderCapabilities.requiresApiKey capabilities
          && negb (JS.truthy_str (MapConfig.apiKey config))
  then Throw (ApiKeyRequired name)
  else Ok tt.

(** [BaseMapProvider.resolveContainer(container)], given the ids of the
    elements of the document. *)
Definition resolveContainer (element : string → bool) (container : option string)
  : result string :=
  match container with
  | Some id => if element id then Ok id else Throw (ContainerNotFound id)
  | None => Throw (ContainerNotFound "")
  end.

Section Host.
(** The host of [initialize]: how [loadGoogleMapsAPI] settles, the ids
    of the elements of the document, and the map object the SDK
    builds. *)
Variable api : result unit.
Variable element : string → bool.
Variable sdk_map : GoogleMap.t.

(** [initialize(config)], with its one wait taken as a call. *)
Definition initialize (cfg : MapConfig.t) : ST t unit :=
  lift (validateConfig cfg);;
  modify (λ this, mk (Some cfg) (container this) (layers this)
                     (eventHandlers this) (ready this) (map this)
                     (eventMapper this) (layerManager this));;
  lift api;;
  el ← lift (resolveContainer element (MapConfig.container cfg));
  modify (λ this, mk (config this) (Some el) (layers this)
                     (eventHandlers this) true (Some sdk_map)
                     (Some 11) (Some [])).

End Host.

(** [destroy()] *)
Definition destroy : ST t unit :=
  modify (λ this, mk (config this) (container this) (layers this)
                     (eventHandlers this) false None
                     ((λ _, 0) <$> eventMapper this)
                     (layerManager this));;
  modify (render RenderDestroy).

(** [getViewState()] *)
Definition getViewState : ST t ViewState.t :=
  this ← read;
  match map this with
  | None => throw ProviderMapNotInitialized
  | Some m =>
      mret (ViewState.mk (default (0%float, 0%float) (GoogleMap.getCenter m))
                         (number_or (GoogleMap.getZoom m) 0%float)
                         (Some (number_or (GoogleMap.getHeading m) 0%float))
                         (Some (number_or (GoogleMap.getTilt m) 0%float)))
  end.

(** [setViewState(viewState, options)] *)
Definition setViewState (viewState : PartialViewState.t)
    (options : option CameraOptions.t) : ST t unit :=
  this ← read;
  match map this with
  | None => throw ProviderMapNotInitialized
  | Some _ => modify (on_map (GoogleMap.MoveCamera viewState (truthy_duration options)))
  end.

(** [getBounds()] *)
Definition getBounds : ST t BoundingBox :=
  this ← read;
  match map this with
  | None => throw ProviderMapNotInitialized
  | Some m =>
      match GoogleMap.getBounds m with
      | None => throw ProviderBoundsNotAvailable
      | Some b => mret b
      end
  end.

(** [fitBounds(bounds, options)] *)
Definition fitBounds (bounds : BoundingBox) (options : option CameraOptions.t)
  : ST t unit :=
  this ← read;
  match map this with
  | None => throw ProviderMapNotInitialized
  | Some _ => modify (on_map (GoogleMap.FitBounds bounds (truthy_duration options)))
  end.

(** [addLayer(layer)] *)
Definition addLayer (layer : LayerConfig.t) : ST t unit :=
  this ← read;
  match layerManager this with
  | None => throw ProviderLayerManagerNotInitialized
  | Some _ =>
      modify (render (RenderAdd layer));;
      modify (set (LayerConfig.id layer) layer)
  end.

(** [removeLayer(layerId)] *)
Definition removeLayer (layerId : string) : ST t unit :=
  this ← read;
  match layerManager this with
  | None => throw ProviderLayerManagerNotInitialized
  | Some _ =>
      modify (render (RenderRemove layerId));;
      modify (λ this, with_layers (delete layerId (layers this)) this)
  end.

(** [updateLayer(layerId, updates)] *)
Definition updateLayer (layerId : string) (updates : Partial.t) : ST t unit :=
  this ← read;
  match layerManager this with
  | None => throw ProviderLayerManagerNotInitialized
  | Some _ =>
      match layers this !! layerId with
      | None => throw (ProviderLayerNotFound layerId)
      | Some layer =>
          let updatedLayer := spread_config layer updates in
          modify (render (RenderUpdate layerId updatedLayer));;
          modify (set (Some layerId) updatedLayer)
      end
  end.

(** [resize()] *)
Definition resize : ST t unit :=
  modify (on_map (GoogleMap.Trigger "resize")).

(** [getMapInstance()]: the map object, opaque to the caller. *)
Definition getMapInstance : ST t JS.value :=
  this ← read;
  mret (if JS.defined (map this) then JS.VObj ∅ else JS.VUndef).

(** The methods inherited from [BaseMapProvider]. *)
Definition getLayer := BaseMapProvider.getLayer layers.
Definition getLayers := BaseMapProvider.getLayers layers.
Definition setLayerVisibility := BaseMapProvider.setLayerVisibility layers updateLayer.
Definition setLayerOpacity := BaseMapProvider.setLayerOpacity layers updateLayer.

(** [BaseMapProvider.on(eventType, handler)] *)
Definition on (eventType : string) (handler : Handler) : ST t unit :=
  modify (λ this,
    mk (config this) (container this) (layers this)
       (<[eventType := EventEmitter.set_add handler
                         (default [] (eventHandlers this !! eventType))]>
          (eventHandlers this))
       (ready this) (map this) (eventMapper this) (layerManager this)).

(** [BaseMapProvider.off(eventType, handler)] *)
Definition off (eventType : string) (handler : Handler) : ST t unit :=
  modify (λ this,
    mk (config this) (container this) (layers this)
       (alter (EventEmitter.set_delete handler) eventType (eventHandlers this))
       (ready this) (map this) (eventMapper this) (layerManager this)).

(** [BaseMapProvider.isReady()] *)
Definition isReady (this : t) : bool := ready this.

(** [GoogleMapsProvider implements IMapProvider], for a given host. *)
Definition provider (api : result unit) (element : string → bool)
    (sdk_map : GoogleMap.t) : IMapProvider.t t :=
  IMapProvider.mk t
    (initialize api element sdk_map) destroy getViewState setViewState
    getBounds fitBounds addLayer removeLayer updateLayer getLayer getLayers
    setLayerVisibility setLayerOpacity on off resize getMapInstance isReady.

End GoogleMapsProvider.

(* ===================================================================== *)
(** ** core/UniversalMap.ts *)
(* ===================================================================== *)

Module UniversalMap.

(** The private fields of the facade, and the lines it has written with
    [console.warn], oldest first. *)
Record t (P : Type) := mk {
  provider : option P;
  config : MapConfig.t;
  eventEmitter : EventEmitter.t;
  initialized : bool;
  console : list string }.
Arguments mk {P} _ _ _ _ _.
Arguments provider {P} _.
Arguments config {P} _.
Arguments eventEmitter {P} _.
Arguments initialized {P} _.
Arguments console {P} _.

(** The event types [setupEventForwarding] subscribes to. *)
Definition forwardedEventTypes : list string :=
  [ "click"; "dblclick"; "mousemove"; "mouseenter"; "mouseleave";
    "contextmenu"; "zoom"; "move"; "movestart"; "moveend"; "zoomstart";
    "zoomend"; "rotate"; "pitch"; "error" ].

Section Facade.
Context {P : Type} `{!IMapProvider.t P}.

(** [createProvider(providerName)].  The source has a stub here that
    always throws; the facade is modelled over any way of making a
    provider, and [createProvider_stub] below is the one of the
    source. *)
Variable createProvider : option string → result P.

Definition warn (msg : string) : ST (t P) unit :=
  modify (λ this, mk (provider this) (config this) (eventEmitter this)
                     (initialized this) (console this ++ [msg])).

Definition set_provider (p : option P) : ST (t P) unit :=
  modify (λ this, mk p (config this) (eventEmitter this)
                     (initialized this) (console this)).

Definition set_initialized (b : bool) : ST (t P) unit :=
  modify (λ this, mk (provider this) (config this) (eventEmitter this)
                     b (console this)).

Definition on_emitter (f : EventEmitter.t → EventEmitter.t) : ST (t P) unit :=
  modify (λ this, mk (provider this) (config this) (f (eventEmitter this))
                     (initialized this) (console this)).

(** [this.provider!.m(...)]: a call on the provider object. *)
Definition on_provider {A} (m : ST P A) : ST (t P) A :=
  mkST (λ this,
    match provider this with
    | Some p =>
        let '(p', r) := run m p in
        (mk (Some p') (config this) (eventEmitter this)
            (initialized this) (console this), r)
    | None => (this, Throw (TypeError "this.provider is undefined"))
    end).

(** [validateConfig(config)] *)
Definition validateConfig (config : MapConfig.t)
  : result (MapConfig.t * list string) :=
  if negb (JS.truthy_str (MapConfig.provider config))
  then Throw (MapError CONFIG_ERROR None)
  else if negb (JS.truthy_str (MapConfig.container config))
  then Throw (MapError CONFIG_ERROR None)
  else if negb (JS.defined (MapConfig.viewState config))
          && (negb (JS.defined (MapConfig.center config))
              || negb (JS.defined (MapConfig.zoom config)))
  then Ok (MapConfig.with_position (Some (0%float, 0%float)) (Some 2%float) config,
           ["No initial position specified, using default (0, 0, zoom: 2)"])
  else Ok (config, []).

(** [constructor(config)] *)
Definition new (config : MapConfig.t) : result (t P) :=
  match validateConfig config with
  | Throw e => Throw e
  | Ok (config', lines) => Ok (mk None config' EventEmitter.new false lines)
  end.

(** [ensureInitialized()] *)
Definition ensureInitialized : ST (t P) unit :=
  this ← read;
  if negb (initialized this) || negb (JS.defined (provider this))
  then throw (MapError NOT_INITIALIZED None)
  else mret tt.

(** [setupEventForwarding()] *)
Definition setupEventForwarding : ST (t P) unit :=
  this ← read;
  if negb (JS.defined (provider this)) then mret tt
  else
    foldr (λ eventType k,
             on_provider (IMapProvider.on eventType (Forwarder eventType));; k)
          (mret tt) forwardedEventTypes.

(** [initialize()], with the waits for [createProvider] and for the
    provider's [initialize] taken as calls. *)
Definition initialize : ST (t P) unit :=
  this ← read;
  if initialized this
  then warn "Map is already initialized"
  else
    try_catch
      (p ← lift (createProvider (MapConfig.provider (config this)));
       set_provider (Some p);;
       on_provider (IMapProvider.initialize (config this));;
       set_initialized true;;
       setupEventForwarding;;
       on_emitter (EventEmitter.emit "load"))
      (λ error, throw (MapError INIT_ERROR (Some error))).

(** [destroy()] *)
Definition destroy : ST (t P) unit :=
  this ← read;
  match provider this with
  | Some _ => on_provider IMapProvider.destroy;; set_provider None
  | None => mret tt
  end;;
  on_emitter (EventEmitter.removeAllListeners None);;
  set_initialized false.

(** [getViewState()] *)
Definition getViewState : ST (t P) ViewState.t :=
  ensureInitialized;; on_provider IMapProvider.getViewState.

(** [setViewState(viewState, options)] *)
Definition setViewState (viewState : PartialViewState.t)
    (options : option CameraOptions.t) : ST (t P) unit :=
  ensureInitialized;; on_provider (IMapProvider.setViewState viewState options).

(** [setCenter(center, options)] *)
Definition setCenter (center : Coordinates) (options : option CameraOptions.t)
  : ST (t P) unit :=
  setViewState (PartialViewState.mk (Some center) None None None) options.

(** [setZoom(zoom, options)] *)
Definition setZoom (zoom : float) (options : option CameraOptions.t)
  : ST (t P) unit :=
  setViewState (PartialViewState.mk None (Some zoom) None None) options.

(** [getBounds()] *)
Definition getBounds : ST (t P) BoundingBox :=
  ensureInitialized;; on_provider IMapProvider.getBounds.

(** [fitBounds(bounds, options)] *)
Definition fitBounds (bounds : BoundingBox) (options : option CameraOptions.t)
  : ST (t P) unit :=
  ensureInitialized;; on_provider (IMapProvider.fitBounds bounds options).

(** [addLayer(layer)] *)
Definition addLayer (layer : LayerConfig.t) : ST (t P) unit :=
  ensureInitialized;; on_provider (IMapProvider.addLayer layer).

(** [removeLayer(layerId)] *)
Definition removeLayer (layerId : string) : ST (t P) unit :=
  ensureInitialized;; on_provider (IMapProvider.removeLayer layerId).

(** [updateLayer(layerId, updates)] *)
Definition updateLayer (layerId : string) (updates : Partial.t) : ST (t P) unit :=
  ensureInitialized;; on_provider (IMapProvider.updateLayer layerId updates).

(** [getLayer(layerId)] *)
Definition getLayer (layerId : string) : ST (t P) (option LayerConfig.t) :=
  ensureInitialized;; on_provider (IMapProvider.getLayer layerId).

(** [getLayers()] *)
Definition getLayers : ST (t P) (list LayerConfig.t) :=
  ensureInitialized;; on_provider IMapProvider.getLayers.

(** [setLayerVisibility(layerId, visible)] *)
Definition setLayerVisibility (layerId : string) (visible : bool) : ST (t P) unit :=
  ensureInitialized;; on_provider (IMapProvider.setLayerVisibility layerId visible).

(** [setLayerOpacity(layerId, opacity)] *)
Definition setLayerOpacity (layerId : string) (opacity : float) : ST (t P) unit :=
  ensureInitialized;; on_provider (IMapProvider.setLayerOpacity layerId opacity).

(** [on(eventType, handler)] *)
Definition on (eventType : string) (handler : Handler) : ST (t P) unit :=
  on_emitter (EventEmitter.on eventType handler);;
  this ← read;
  if JS.defined (provider this)
  then on_provider (IMapProvider.on eventType handler)
  else mret tt.

(** [off(eventType, handler)] *)
Definition off (eventType : string) (handler : Handler) : ST (t P) unit :=
  on_emitter (EventEmitter.off eventType handler);;
  this ← read;
  if JS.defined (provider this)
  then on_provider (IMapProvider.off eventType handler)
  else mret tt.

(** [once(eventType, handler)] *)
Definition once (eventType : string) (h : nat) : ST (t P) unit :=
  on_emitter (EventEmitter.once eventType h).

(** [resize()] *)
Definition resize : ST (t P) unit :=
  this ← read;
  if JS.defined (provider this)
  then on_provider IMapProvider.resize
  else mret tt.

(** [getProvider()] *)
Definition getProvider (this : t P) : option P := provider this.

(** [getMapInstance()] *)
Definition getMapInstance : ST (t P) JS.value :=
  ensureInitialized;; on_provider IMapProvider.getMapInstance.

(** [isReady()] *)
Definition isReady (this : t P) : bool :=
  initialized this &&
  match provider this with
  | Some p => IMapProvider.isReady p
  | None => false
  end.

(** [getConfig()] *)
Definition getConfig (this : t P) : MapConfig.t := config this.

End Facade.

(** [createProvider(providerName)] as the source has it. *)
Definition createProvider_stub {P : Type} (providerName : option string) : result P :=
  Throw (MapError PROVIDER_NOT_FOUND None).

End UniversalMap.

(* ===================================================================== *)
(** ** providers/google/loader.ts *)
(* ===================================================================== *)

(** [class GoogleMapsAPILoader] with its host: whether
    [window.google.maps] is there, the script elements appended to the
    document, the promises made by [loadScript], and the calls of
    [load()] so far. *)
Module GoogleMapsAPILoader.

Inductive LoadStatus := NOT_LOADED | LOADING | LOADED | FAILED.

Inductive Promise :=
| Pending
| Fulfilled
| Broken (e : error).

(** A call of [load()]: returned, thrown, handed the stored promise, or
    suspended at [await this.loadPromise]. *)
Inductive Call :=
| Returns
| Throws (e : error)
| Shares (p : nat)
| Awaits (p : nat).

Record t := mk {
  status : LoadStatus;
  loadPromise : option nat;
  error : option error;
  google : bool;
  scripts : nat;
  promises : list Promise;
  calls : list Call }.

Definition new : t := mk NOT_LOADED None None false 0 [] [].

Definition is_status (a b : LoadStatus) : bool :=
  match a, b with
  | NOT_LOADED, NOT_LOADED | LOADING, LOADING | LOADED, LOADED | FAILED, FAILED => true
  | _, _ => false
  end.

(** [load(options)], from the call to its [await] or to its end. *)
Definition load (this : t) : t :=
  let answer (c : Call) :=
    mk (status this) (loadPromise this) (error this) (google this)
       (scripts this) (promises this) (calls this ++ [c]) in
  if is_status (status this) LOADED && google this then answer Returns
  else
    match is_status (status this) LOADING, loadPromise this,
          is_status (status this) FAILED, error this with
    | true, Some p, _, _ => answer (Shares p)
    | _, _, true, Some e => answer (Throws e)
    | _, _, _, _ =>
        (* [loadScript]: resolved at once when the API is there, else a
           script element is appended *)
        let p := length (promises this) in
        mk LOADING (Some p) (error this) (google this)
           (if google this then scripts this else S (scripts this))
           (promises this ++ [if google this then Fulfilled else Pending])
           (calls this ++ [Awaits p])
    end.

(** The script of promise [p] fires [load] ([Some available]) or
    [error] ([None]). *)
Definition script_event (p : nat) (loaded : option bool) (this : t) : t :=
  match promises this !! p with
  | Some Pending =>
      let settle :=
        match loaded with
        | Some true => Fulfilled
        | Some false =>
            Broken (GoogleMapsLoadFailed
                      "Google Maps API loaded but google.maps not available")
        | None => Broken (GoogleMapsLoadFailed "Failed to load Google Maps API script")
        end in
      mk (status this) (loadPromise this) (error this)
         (match loaded with Some true => true | _ => google this end)
         (scripts this) (<[p := settle]> (promises this)) (calls this)
  | _ => this
  end.

(** Call [i] goes on once the promise it waits for has settled. *)
Definition resume (i : nat) (this : t) : t :=
  match calls this !! i with
  | Some (Awaits p) =>
      match promises this !! p with
      | Some Fulfilled =>
          mk LOADED (loadPromise this) (error this) (google this)
             (scripts this) (promises this) (<[i := Returns]> (calls this))
      | Some (Broken e) =>
          mk FAILED (loadPromise this) (Some e) (google this)
             (scripts this) (promises this) (<[i := Throws e]> (calls this))
      | _ => this
      end
  | Some (Shares p) =>
      match promises this !! p with
      | Some Fulfilled =>
          mk (status this) (loadPromise this) (error this) (google this)
             (scripts this) (promises this) (<[i := Returns]> (calls this))
      | Some (Broken e) =>
          mk (status this) (loadPromise this) (error this) (google this)
             (scripts this) (promises this) (<[i := Throws e]> (calls this))
      | _ => this
      end
  | _ => this
  end.

(** [isLoaded()] *)
Definition isLoaded (this : t) : bool :=
  is_status (status this) LOADED && google this.

End GoogleMapsAPILoader.

(* ===================================================================== *)
(** ** Callers *)
(* ===================================================================== *)

(** The calls a caller can make on a [LayerManager]. *)
Module LayerOp.

Inductive t :=
| Add (config : LayerConfig.t)
| Remove (layerId : string)
| Update (layerId : string) (updates : Partial.t)
| Clear.

Definition perform (op : t) : ST (gmap string ILayer.t) unit :=
  match op with
  | Add config => LayerManager.addLayer config;; mret tt
  | Remove layerId => LayerManager.removeLayer layerId
  | Update layerId updates => LayerManager.updateLayer layerId updates
  | Clear => LayerManager.clear
  end.

(** A caller that goes on after an exception: the calls one after
    another, each on the state the one before has left. *)
Definition perform_all (ops : list t) (layers : gmap string ILayer.t)
  : gmap string ILayer.t :=
  foldl (λ layers op, state_after (perform op) layers) layers ops.



(** The layer a call writes to before it can fail: the one an
    [updateLayer] names, when its patch has a style or a visibility. *)
Definition written_early (op : t) : option string :=
  match op with
  | Update layerId updates =>
      if JS.defined (Partial.read (Partial.style updates))
         || JS.defined (Partial.read (Partial.visible updates))
      then Some layerId
      else None
  | _ => None
  end.

End LayerOp.

(** The first two steps of [updateLayer], the ones that run before the
    opacity of the patch is looked at. *)
Definition style_and_visible (updates : Partial.t) : ST ILayer.t unit :=
  match Partial.read (Partial.style updates) with
  | Some style => BaseLayer.setStyle style
  | None => mret tt
  end;;
  match Partial.read (Partial.visible updates) with
  | Some visible => BaseLayer.setVisible visible
  | None => mret tt
  end.

(** The calls a caller can make on the facade that touch the map or its
    layers. *)
Module FacadeOp.

Inductive t :=
| GetViewState
| SetViewState (viewState : PartialViewState.t) (options : option CameraOptions.t)
| SetCenter (center : Coordinates) (options : option CameraOptions.t)
| SetZoom (zoom : float) (options : option CameraOptions.t)
| GetBounds
| FitBounds (bounds : BoundingBox) (options : option CameraOptions.t)
| AddLayer (layer : LayerConfig.t)
| RemoveLayer (layerId : string)
| UpdateLayer (layerId : string) (updates : Partial.t)
| GetLayer (layerId : string)
| GetLayers
| SetLayerVisibility (layerId : string) (visible : bool)
| SetLayerOpacity (layerId : string) (opacity : float)
| GetMapInstance
| Resize.

(** The call, its result dropped. *)
Definition perform {P} `{!IMapProvider.t P} (op : t) : ST (UniversalMap.t P) unit :=
  match op with
  | GetViewState => UniversalMap.getViewState;; mret tt
  | SetViewState viewState options => UniversalMap.setViewState viewState options
  | SetCenter center options => UniversalMap.setCenter center options
  | SetZoom zoom options => UniversalMap.setZoom zoom options
  | GetBounds => UniversalMap.getBounds;; mret tt
  | FitBounds bounds options => UniversalMap.fitBounds bounds options
  | AddLayer layer => UniversalMap.addLayer layer
  | RemoveLayer layerId => UniversalMap.removeLayer layerId
  | UpdateLayer layerId updates => UniversalMap.updateLayer layerId updates
  | GetLayer layerId => UniversalMap.getLayer layerId;; mret tt
  | GetLayers => UniversalMap.getLayers;; mret tt
  | SetLayerVisibility layerId visible => UniversalMap.setLayerVisibility layerId visible
  | SetLayerOpacity layerId opacity => UniversalMap.setLayerOpacity layerId opacity
  | GetMapInstance => UniversalMap.getMapInstance;; mret tt
  | Resize => UniversalMap.resize
  end.

Definition is_resize (op : t) : bool :=
  match op with
  | Resize => true
  | _ => false
  end.

End FacadeOp.

(** The remote sources: a [url] source with a URL, a [geojson] source
    whose [data] is a string. *)
Definition remote (this : IDataSource.t) : Prop :=
  match IDataSource.cls this with
  | URLDataSource => JS.truthy (JS.get (IDataSource.config this) "url") = true
  | GeoJSONDataSource =>
      ∃ url, JS.get (IDataSource.config this) "data" = JS.VStr url
  | _ => False
  end.

(** What a remote source passes to [fetch]. *)
Definition remote_url (this : IDataSource.t) : JS.value :=
  match IDataSource.cls this with
  | GeoJSONDataSource => JS.get (IDataSource.config this) "data"
  | _ => JS.get (IDataSource.config this) "url"
  end.

(** The error of a fetch that fails, with its cause or the status text
    of the response. *)
Definition load_error (c : DataSourceClass) (o : FetchOutcome) : error :=
  match o with
  | FetchRejects cause => HostRejection cause
  | FetchResolves r => BaseDataSource.not_ok c (statusText r)
  end.

(** Where call [i] stands, given the events of the host so far: past
    its fetch only with a successful response to that fetch, and
    resolved only to the body of that response. *)
Definition call_explained (es : list Runtime.Event) (i : nat) (t : LoadTask)
  : Prop :=
  match t with
  | AwaitFetch | Rejected _ => True
  | AwaitJson r =>
      In (Runtime.FetchSettles i (FetchResolves r)) es ∧ ok r = true
  | Resolved v =>
      ∃ r, In (Runtime.FetchSettles i (FetchResolves r)) es ∧
           ok r = true ∧ json r = JsonResolves v
  end.

(** Every call that has resolved has resolved to the body of the
    response to its own fetch. *)
Definition resolved_to_own_body (es : list Runtime.Event) (calls : list LoadTask)
  : Prop :=
  ∀ i v, calls !! i = Some (Resolved v) →
    ∃ r, In (Runtime.FetchSettles i (FetchResolves r)) es ∧
         ok r = true ∧ json r = JsonResolves v.

(** An opacity below 0 or above 1. *)
Definition below_0_or_above_1 (opacity : float) : Prop :=
  PrimFloat.ltb opacity 0%float = true ∨ PrimFloat.ltb 1%float opacity = true.

(** Two descriptors that differ at most in [style] and [visible]. *)
Definition same_but_style_and_visible (c c' : LayerConfig.t) : Prop :=
  with_style (LayerConfig.style c) (with_visible (LayerConfig.visible c) c') = c.

(** Every layer is stored under its own [id]. *)
Definition keyed_by_id (layers : gmap string ILayer.t) : Prop :=
  ∀ k layer, layers !! k = Some layer → ILayer.id layer = k.


(** The [id] and the [type] of the layers of [layers] are what they are
    in [layers'], for every layer still there. *)
Definition ids_and_types_kept (layers layers' : gmap string ILayer.t) : Prop :=
  ∀ k layer layer', layers !! k = Some layer → layers' !! k = Some layer' →
    ILayer.id layer' = ILayer.id layer ∧ ILayer.type layer' = ILayer.type layer.

(** How a fetch fails: the transport fails, or the response is not a
    success. *)
Definition fetch_fails (o : FetchOutcome) : Prop :=
  match o with
  | FetchRejects _ => True
  | FetchResolves r => ok r = false
  end.

(** The facade has not been initialized. *)
Definition not_initialized {P} (this : UniversalMap.t P) : Prop :=
  UniversalMap.initialized this = false ∨ UniversalMap.provider this = None.

(** The patch has an opacity, and it fails the test of [setOpacity]. *)
Definition opacity_rejected (updates : Partial.t) : bool :=
  match Partial.read (Partial.opacity updates) with
  | Some opacity => PrimFloat.ltb opacity 0%float || PrimFloat.ltb 1%float opacity
  | None => false
  end.

(** The three fields a layer cannot do without are truthy. *)
Definition complete (config : LayerConfig.t) : bool :=
  JS.truthy_str (LayerConfig.id config)
  && JS.truthy_str (LayerConfig.type config)
  && truthy_source (LayerConfig.source config).

(** The calls a caller can make on a [DataSourceManager]; a load is
    taken to the first [await] of the source. *)
Module SourceOp.

Inductive t :=
| Register (id : string) (config : object)
| Remove (id : string)
| Clear
| Load (id : string).

Definition perform (op : t) (m : DataSourceManager.t) : DataSourceManager.t :=
  match op with
  | Register id config => state_after (DataSourceManager.registerSource id config) m
  | Remove id => state_after (DataSourceManager.removeSource id) m
  | Clear => state_after DataSourceManager.clear m
  | Load id => (DataSourceManager.loadSource id m (mkHost [] [])).1.1
  end.

Definition perform_all (ops : list t) (m : DataSourceManager.t)
  : DataSourceManager.t :=
  foldl (λ m op, perform op m) m ops.

End SourceOp.

(** Every entry of the map refers to an object of the store, and no two
    entries to the same one. *)
Definition references_sound (m : DataSourceManager.t) : Prop :=
  (∀ id r, DataSourceManager.sources m !! id = Some r →
     r < length (DataSourceManager.store m)) ∧
  (∀ id id' r, DataSourceManager.sources m !! id = Some r →
     DataSourceManager.sources m !! id' = Some r → id = id').

(** The listeners of one event type, in the order [emit] calls them. *)
Definition handlers_of (eventType : string) (this : EventEmitter.t) : list Handler :=
  default [] (EventEmitter.listeners this !! eventType).

Definition is_once (handler : Handler) : bool :=
  match handler with OnceHandler _ _ => true | _ => false end.

(** What the holder of an [EventEmitter] can call on it, with functions
    of its own: the closures [once] builds are known to the emitter
    alone. *)
Module EmitterOp.

Inductive t :=
| On (eventType : string) (h : nat)
| Off (eventType : string) (h : nat)
| Once (eventType : string) (h : nat)
| Emit (eventType : string)
| RemoveAllListeners (eventType : option string).

Definition perform (op : t) (this : EventEmitter.t) : EventEmitter.t :=
  match op with
  | On eventType h => EventEmitter.on eventType (Callback h) this
  | Off eventType h => EventEmitter.off eventType (Callback h) this
  | Once eventType h => EventEmitter.once eventType h this
  | Emit eventType => EventEmitter.emit eventType this
  | RemoveAllListeners eventType => EventEmitter.removeAllListeners eventType this
  end.

Definition perform_all (ops : list t) (this : EventEmitter.t) : EventEmitter.t :=
  foldl (λ this op, perform op this) this ops.

End EmitterOp.

(** No event type is kept with an empty set of handlers, no handler is
    twice in a set, and every closure of [once] in a set has been built
    by this emitter. *)
Definition tidy (this : EventEmitter.t) : Prop :=
  ∀ eventType handlers,
    EventEmitter.listeners this !! eventType = Some handlers →
    handlers ≠ [] ∧ NoDup handlers ∧
    ∀ closure h, OnceHandler closure h ∈ handlers →
                 closure < EventEmitter.closures this.


(** [createMap(config)]: the constructor, then [initialize()]. *)
Definition createMap {P} `{!IMapProvider.t P}
    (createProvider : option string → result P) (config : MapConfig.t)
  : result (UniversalMap.t P) :=
  match UniversalMap.new config with
  | Throw e => Throw e
  | Ok this =>
      match run (UniversalMap.initialize createProvider) this with
      | (this', Ok _) => Ok this'
      | (_, Throw e) => Throw e
      end
  end.

(** Every public method of the facade, called with functions of the
    caller; an exception is caught by the caller, and the facade goes on
    from the state the call left. *)
Module FacadeCall.

Inductive t :=
| Initialize
| Destroy
| On (eventType : string) (h : nat)
| Off (eventType : string) (h : nat)
| Once (eventType : string) (h : nat)
| Op (op : FacadeOp.t).

Definition perform {P} `{!IMapProvider.t P}
    (createProvider : option string → result P) (call : t)
  : ST (UniversalMap.t P) unit :=
  match call with
  | Initialize => UniversalMap.initialize createProvider
  | Destroy => UniversalMap.destroy
  | On eventType h => UniversalMap.on eventType (Callback h)
  | Off eventType h => UniversalMap.off eventType (Callback h)
  | Once eventType h => UniversalMap.once eventType h
  | Op op => FacadeOp.perform op
  end.

Definition perform_all {P} `{!IMapProvider.t P}
    (createProvider : option string → result P) (calls : list t)
    (this : UniversalMap.t P) : UniversalMap.t P :=
  foldl (λ this call, state_after (perform createProvider call) this) this calls.

End FacadeCall.

(** The facade over a Google provider: [createProvider] answers
    [new GoogleMapsProvider()], and the host is as [initialize] of the
    provider finds it. *)
Module GoogleFacade.
Section Host.
Variable api : result unit.
Variable element : string → bool.
Variable sdk_map : GoogleMap.t.

Definition provider : IMapProvider.t GoogleMapsProvider.t :=
  GoogleMapsProvider.provider api element sdk_map.

Definition createProvider (providerName : option string)
  : result GoogleMapsProvider.t :=
  Ok GoogleMapsProvider.new.

Definition initialize : ST (UniversalMap.t GoogleMapsProvider.t) unit :=
  @UniversalMap.initialize _ provider createProvider.

Definition on (eventType : string) (handler : Handler)
  : ST (UniversalMap.t GoogleMapsProvider.t) unit :=
  @UniversalMap.on _ provider eventType handler.

End Host.

(** One handler the provider holds is called by
    [BaseMapProvider.emit]: a closure of [setupEventForwarding] runs
    [eventEmitter.emit] of the facade; the call of any other function
    is recorded in [called]. *)
Definition handle (eventType : string)
    (state : UniversalMap.t GoogleMapsProvider.t * list (Handler * string))
    (handler : Handler)
  : UniversalMap.t GoogleMapsProvider.t * list (Handler * string) :=
  match handler with
  | Forwarder forwarded =>
      (state_after (UniversalMap.on_emitter (EventEmitter.emit forwarded)) state.1,
       state.2)
  | _ => (state.1, (state.2 ++ [(handler, eventType)])%list)
  end.

(** [BaseMapProvider.emit(eventType, event)] on the provider of a
    facade, as the event mapper calls it for an event of the SDK: the
    facade afterwards, and the functions the provider has called
    itself. *)
Definition emit (eventType : string) (this : UniversalMap.t GoogleMapsProvider.t)
  : UniversalMap.t GoogleMapsProvider.t * list (Handler * string) :=
  match UniversalMap.provider this with
  | Some p =>
      foldl (handle eventType) (this, [])
            (default [] (GoogleMapsProvider.eventHandlers p !! eventType))
  | None => (this, [])
  end.

End GoogleFacade.

(** What happens to the API loader: a call of [load()], the script of a
    promise firing [load] or [error], a suspended call going on. *)
Module LoaderEvent.

Inductive t :=
| Load
| ScriptEvent (p : nat) (loaded : option bool)
| Resume (i : nat).

Definition perform (event : t) (this : GoogleMapsAPILoader.t) : GoogleMapsAPILoader.t :=
  match event with
  | Load => GoogleMapsAPILoader.load this
  | ScriptEvent p loaded => GoogleMapsAPILoader.script_event p loaded this
  | Resume i => GoogleMapsAPILoader.resume i this
  end.

Definition perform_all (events : list t) (this : GoogleMapsAPILoader.t)
  : GoogleMapsAPILoader.t :=
  foldl (λ this event, perform event this) this events.

(** The loader as the module creates it, in a page where
    [window.google.maps] is or is not there already. *)
Definition start (google : bool) : GoogleMapsAPILoader.t :=
  GoogleMapsAPILoader.mk GoogleMapsAPILoader.NOT_LOADED None None google 0 [] [].

End LoaderEvent.


(** The calls of the public methods of a Google provider that change it.
    A call of [initialize] comes with the way [loadGoogleMapsAPI]
    settles for it; an exception is caught by the caller. *)
Module ProviderCall.

Inductive t :=
| Initialize (api : result unit) (config : MapConfig.t)
| Destroy
| SetViewState (viewState : PartialViewState.t) (options : option CameraOptions.t)
| FitBounds (bounds : BoundingBox) (options : option CameraOptions.t)
| AddLayer (layer : LayerConfig.t)
| RemoveLayer (layerId : string)
| UpdateLayer (layerId : string) (updates : Partial.t)
| SetLayerVisibility (layerId : string) (visible : bool)
| SetLayerOpacity (layerId : string) (opacity : float)
| On (eventType : string) (handler : Handler)
| Off (eventType : string) (handler : Handler)
| Resize.

Section Host.
Variable element : string → bool.
Variable sdk_map : GoogleMap.t.

Definition perform (call : t) : ST GoogleMapsProvider.t unit :=
  match call with
  | Initialize api config => GoogleMapsProvider.initialize api element sdk_map config
  | Destroy => GoogleMapsProvider.destroy
  | SetViewState viewState options => GoogleMapsProvider.setViewState viewState options
  | FitBounds bounds options => GoogleMapsProvider.fitBounds bounds options
  | AddLayer layer => GoogleMapsProvider.addLayer layer
  | RemoveLayer layerId => GoogleMapsProvider.removeLayer layerId
  | UpdateLayer layerId updates => GoogleMapsProvider.updateLayer layerId updates
  | SetLayerVisibility layerId visible =>
      GoogleMapsProvider.setLayerVisibility layerId visible
  | SetLayerOpacity layerId opacity => GoogleMapsProvider.setLayerOpacity layerId opacity
  | On eventType handler => GoogleMapsProvider.on eventType handler
  | Off eventType handler => GoogleMapsProvider.off eventType handler
  | Resize => GoogleMapsProvider.resize
  end.

Definition perform_all (calls : list t) (this : GoogleMapsProvider.t)
  : GoogleMapsProvider.t :=
  foldl (λ this call, state_after (perform call) this) this calls.

End Host.
End ProviderCall.


(** The provider after [on(eventType, forwarder)] for each of the event
    types, in turn. *)
Definition subscribe_forwarders (eventTypes : list string) (p : GoogleMapsProvider.t)
  : GoogleMapsProvider.t :=
  foldl (λ p eventType,
           state_after (GoogleMapsProvider.on eventType (Forwarder eventType)) p)
        p eventTypes.


(** What holds of the loader whatever happens to it, in a page where
    [window.google.maps] was there from the start ([google0]) or was
    not: the only call that waits for the script is the first one, and
    only while the loader is loading; a loader that has left
    [NOT_LOADED] holds its one promise; a failed loader holds its error;
    and the API is there once a promise has been fulfilled. *)
Definition single_flight (google0 : bool) (this : GoogleMapsAPILoader.t) : Prop :=
  (∀ i p, GoogleMapsAPILoader.calls this !! i = Some (GoogleMapsAPILoader.Awaits p) →
          i = 0 ∧ GoogleMapsAPILoader.status this = GoogleMapsAPILoader.LOADING) ∧
  (GoogleMapsAPILoader.status this = GoogleMapsAPILoader.NOT_LOADED →
     GoogleMapsAPILoader.promises this = [] ∧ GoogleMapsAPILoader.scripts this = 0 ∧
     GoogleMapsAPILoader.calls this = []) ∧
  (GoogleMapsAPILoader.status this ≠ GoogleMapsAPILoader.NOT_LOADED →
     is_Some (GoogleMapsAPILoader.loadPromise this) ∧
     length (GoogleMapsAPILoader.promises this) = 1 ∧
     (GoogleMapsAPILoader.scripts this ≤ 1)%nat) ∧
  (GoogleMapsAPILoader.status this = GoogleMapsAPILoader.FAILED →
     is_Some (GoogleMapsAPILoader.error this)) ∧
  (GoogleMapsAPILoader.status this = GoogleMapsAPILoader.LOADED →
     GoogleMapsAPILoader.google this = true) ∧
  (∀ p, GoogleMapsAPILoader.promises this !! p = Some GoogleMapsAPILoader.Fulfilled →
        GoogleMapsAPILoader.google this = true) ∧
  (google0 = true →
     GoogleMapsAPILoader.google this = true ∧ GoogleMapsAPILoader.scripts this = 0).


(* ===================================================================== *)
(** ** Sample data *)
(* ===================================================================== *)

Module Demo.

(** A layer [a] with a fill colour. *)
Definition layer_a : LayerConfig.t :=
  LayerConfig.mk (Some "a") (Some "geojson")
    (Some (SrcString "https://x/data.json"))
    (Some {[ "fillColor" := JS.VStr "#ff0000" ]})
    (Some true) (Some 1%float) None None None.

(** Another descriptor with the id [a]. *)
Definition layer_a' : LayerConfig.t :=
  LayerConfig.mk (Some "a") (Some "heatmap")
    (Some (SrcString "mock://buildings-nyc")) None None None None None None.

(** The registry after [addLayer(layer_a)]. *)
Definition registry : gmap string ILayer.t :=
  state_after (LayerManager.addLayer layer_a) ∅.

(** [{style: {opacity: 0.5}}] *)
Definition style_patch : Partial.t :=
  Partial.mk None None None (Some (Some {[ "opacity" := JS.VNum 0.5%float ]}))
    None None None None None.

(** [{visible: false, opacity: 1.5}] *)
Definition bad_patch : Partial.t :=
  Partial.mk None None None None (Some (Some false)) (Some (Some 1.5%float))
    None None None.

(** [{id: 'b'}] *)
Definition id_patch : Partial.t :=
  Partial.mk (Some (Some "b")) None None None None None None None None.

(** An inline GeoJSON value. *)
Definition featureCollection : object :=
  {[ "type" := JS.VStr "FeatureCollection"; "features" := JS.VArr [] ]}.

(** A URL source and the object the factory builds from it. *)
Definition url_config : object :=
  DataSourceFactory.normalizeSource (SrcString "https://x/data.json").

Definition url_source : IDataSource.t :=
  IDataSource.mk URLDataSource (JS.VStr "url") url_config false JS.VNull.

(** A successful response with a given body. *)
Definition success (body : JS.value) : Response :=
  mkResponse true "OK" (JsonResolves body).

Definition body_1 : JS.value := JS.VObj {[ "n" := JS.VNum 1%float ]}.
Definition body_2 : JS.value := JS.VObj {[ "n" := JS.VNum 2%float ]}.

(** The URL source after a load whose response had the body [null]. *)
Definition loaded_null : Runtime.System :=
  Runtime.exec (Runtime.start url_source)
    [Runtime.CallLoad;
     Runtime.FetchSettles 0 (FetchResolves (success JS.VNull));
     Runtime.JsonSettles 0].

(** Two calls of [load()] before anything settles, and then the two
    responses. *)
Definition two_loads : Runtime.System :=
  Runtime.exec (Runtime.start url_source)
    [Runtime.CallLoad; Runtime.CallLoad;
     Runtime.FetchSettles 0 (FetchResolves (success body_1));
     Runtime.FetchSettles 1 (FetchResolves (success body_2));
     Runtime.JsonSettles 0; Runtime.JsonSettles 1].

(** A descriptor of the type [custom]. *)
Definition custom_config : object := {[ "type" := JS.VStr "custom" ]}.

(** A manager with a loaded mock source under [s]. *)
Definition mock_config : object :=
  DataSourceFactory.normalizeSource (SrcString "mock://buildings-nyc").

Definition sources : DataSourceManager.t :=
  (DataSourceManager.loadSource "s"
     (state_after (DataSourceManager.registerSource "s" mock_config)
                  DataSourceManager.empty)
     (mkHost [] [])).1.1.

(** The host of the Google provider in the samples: the API loads and
    the document has the element [map]. *)
Definition map_config : MapConfig.t :=
  MapConfig.mk (Some "google") (Some "map") None (Some (0%float, 0%float))
    (Some 2%float) (Some "key") None None None None.

Definition google_provider : IMapProvider.t GoogleMapsProvider.t :=
  GoogleMapsProvider.provider (Ok tt) (λ id, String.eqb id "map")
    (GoogleMap.mk None None None None None []).

(** A Google provider after [initialize(map_config)] and
    [addLayer(layer_a)]. *)
Definition google : GoogleMapsProvider.t :=
  state_after (GoogleMapsProvider.addLayer layer_a)
    (state_after (IMapProvider.initialize (t := google_provider) map_config)
                 GoogleMapsProvider.new).

(** The facade as its constructor leaves it. *)
Definition fresh_map : UniversalMap.t GoogleMapsProvider.t :=
  UniversalMap.mk None map_config EventEmitter.new false [].

(** The facade after [initialize()] and [addLayer(layer_a)], had
    [createProvider] made a Google provider. *)
Definition live_map : UniversalMap.t GoogleMapsProvider.t :=
  state_after (UniversalMap.addLayer (H := google_provider) layer_a)
    (state_after
       (UniversalMap.initialize (H := google_provider)
          (λ _, Ok GoogleMapsProvider.new))
       fresh_map).

End Demo.

(* ===================================================================== *)
(** * Properties *)
(* ===================================================================== *)

(** ** The monad *)

Lemma run_bind {S A B} (m : ST S A) (f : A → ST S B) (s : S) :
  run (m ≫= f) s =
  match run m s with
  | (s', Ok a) => run (f a) s'
  | (s', Throw e) => (s', Throw e)
  end.
Proof. reflexivity. Qed.

Lemma run_ret {S A} (a : A) (s : S) : run (mret a : ST S A) s = (s, Ok a).
Proof. reflexivity. Qed.

(** ** Layers *)

Lemma setOpacity_rejects (opacity : float) (this : ILayer.t) :
  below_0_or_above_1 opacity →
  run (BaseLayer.setOpacity opacity) this = (this, Throw OpacityOutOfRange).
Proof.
  intros [H | H]; unfold BaseLayer.setOpacity; rewrite H; [done |].
  by rewrite orb_true_r.
Qed.

Lemma setOpacity_outcome (opacity : float) (this : ILayer.t) :
  run (BaseLayer.setOpacity opacity) this = (this, Throw OpacityOutOfRange) ∨
  run (BaseLayer.setOpacity opacity) this =
    (ILayer.with_config (with_opacity (Some opacity) (ILayer.config this)) this,
     Ok tt).
Proof.
  unfold BaseLayer.setOpacity.
  destruct (PrimFloat.ltb opacity 0 || PrimFloat.ltb 1 opacity); [by left | by right].
Qed.

(** [setStyle] by itself merges: a key the patch does not carry keeps
    its value. *)
Lemma setStyle_merges (style : object) (this : ILayer.t) (k : string) :
  style !! k = None →
  JS.get (default ∅ (LayerConfig.style
            (ILayer.config (state_after (BaseLayer.setStyle style) this)))) k =
  JS.get (default ∅ (LayerConfig.style (ILayer.config this))) k.
Proof.
  intros Hk. unfold state_after, JS.get; simpl. unfold JS.spread.
  by rewrite lookup_union_r.
Qed.

(** Taking a patch apart, and the layer and its descriptor with it. *)
Ltac split_patch u :=
  destruct u as [uid uty [[[src|o]|]|] [[st|]|] [[v|]|] [[op|]|] umin umax uopt].

Ltac split_layer l :=
  let c := fresh "c" in
  destruct l as [lid lty c]; destruct c.

(** [updateLayer] on a layer that is there: either the opacity of the
    patch is rejected, after the style and the visibility have been
    written, or the call ends with the spread of the whole patch over a
    descriptor that has the [id], the [type] and the zoom bounds of the
    old one. *)
Lemma run_apply_updates (updates : Partial.t) (layer : ILayer.t) :
  (∃ opacity,
      Partial.opacity updates = Some (Some opacity) ∧
      (PrimFloat.ltb opacity 0 || PrimFloat.ltb 1 opacity) = true ∧
      run (LayerManager.apply_updates updates) layer =
        (state_after (style_and_visible updates) layer, Throw OpacityOutOfRange))
  ∨
  (∃ c,
      run (LayerManager.apply_updates updates) layer =
        (ILayer.with_config (spread_config c updates) layer, Ok tt) ∧
      LayerConfig.id c = LayerConfig.id (ILayer.config layer) ∧
      LayerConfig.type c = LayerConfig.type (ILayer.config layer) ∧
      LayerConfig.minZoom c = LayerConfig.minZoom (ILayer.config layer) ∧
      LayerConfig.maxZoom c = LayerConfig.maxZoom (ILayer.config layer)).
Proof.
  split_patch updates; split_layer layer;
    try (right; eexists; unfold LayerManager.apply_updates; cbn;
         try destruct (negb (String.eqb src ""));
         (split; [reflexivity | repeat split]));
    destruct (PrimFloat.ltb op 0 || PrimFloat.ltb 1 op) eqn:Hop;
    try (left; exists op; split; [reflexivity | split; [exact Hop |]];
         unfold LayerManager.apply_updates, state_after, style_and_visible,
           BaseLayer.setOpacity; cbn; rewrite Hop; reflexivity);
    right; eexists; unfold LayerManager.apply_updates, BaseLayer.setOpacity;
    cbn; rewrite Hop; cbn;
    try destruct (negb (String.eqb src ""));
    (split; [reflexivity | repeat split]).
Qed.

(** The first two steps keep the [id] and the [type] of the layer, and
    of its descriptor everything but [style] and [visible]. *)
Lemma style_and_visible_frame (updates : Partial.t) (layer : ILayer.t) :
  let layer' := state_after (style_and_visible updates) layer in
  ILayer.id layer' = ILayer.id layer ∧
  ILayer.type layer' = ILayer.type layer ∧
  same_but_style_and_visible (ILayer.config layer) (ILayer.config layer').
Proof.
  split_patch updates; split_layer layer; repeat split.
Qed.

(** A patch without the keys [style] and [visible] skips both steps. *)
Lemma style_and_visible_skipped (updates : Partial.t) (layer : ILayer.t) :
  Partial.style updates = None →
  Partial.visible updates = None →
  state_after (style_and_visible updates) layer = layer.
Proof.
  destruct updates; simpl; intros -> ->. reflexivity.
Qed.

Lemma apply_updates_keeps_id_and_type (updates : Partial.t) (layer : ILayer.t) :
  let layer' := state_after (LayerManager.apply_updates updates) layer in
  ILayer.id layer' = ILayer.id layer ∧ ILayer.type layer' = ILayer.type layer.
Proof.
  unfold state_after.
  destruct (run_apply_updates updates layer) as [(o & _ & _ & ->) | (c & -> & _)].
  - destruct (style_and_visible_frame updates layer) as (? & ? & _). done.
  - done.
Qed.

Lemma run_updateLayer_absent (layerId : string) (updates : Partial.t)
    (layers : gmap string ILayer.t) :
  layers !! layerId = None →
  run (LayerManager.updateLayer layerId updates) layers =
    (layers, Throw (LayerNotFound layerId)).
Proof.
  intros H. unfold LayerManager.updateLayer. rewrite run_bind. simpl.
  by rewrite H.
Qed.

Lemma run_updateLayer_present (layerId : string) (updates : Partial.t)
    (layers : gmap string ILayer.t) (layer : ILayer.t) :
  layers !! layerId = Some layer →
  run (LayerManager.updateLayer layerId updates) layers =
    (<[layerId := (run (LayerManager.apply_updates updates) layer).1]> layers,
     (run (LayerManager.apply_updates updates) layer).2).
Proof.
  intros H. unfold LayerManager.updateLayer. rewrite run_bind. cbn [run read].
  rewrite H. unfold LayerManager.on_layer. cbn [run]. rewrite H.
  by destruct (run (LayerManager.apply_updates updates) layer).
Qed.

Lemma run_addLayer_duplicate (config : LayerConfig.t) (id : string)
    (layers : gmap string ILayer.t) :
  LayerConfig.id config = Some id →
  is_Some (layers !! id) →
  run (LayerManager.addLayer config) layers =
    (layers, Throw (LayerAlreadyExists (Some id))).
Proof.
  intros Hid Hin. unfold LayerManager.addLayer. rewrite run_bind. simpl.
  rewrite Hid. simpl. by rewrite bool_decide_eq_true_2.
Qed.

(** [addLayer] either throws and leaves the map alone, or stores the
    new layer under the [id] of its descriptor, which was free. *)
Lemma run_addLayer (config : LayerConfig.t) (layers : gmap string ILayer.t) :
  (∃ e, run (LayerManager.addLayer config) layers = (layers, Throw e)) ∨
  (∃ id type,
      LayerConfig.id config = Some id ∧ LayerConfig.type config = Some type ∧
      layers !! id = None ∧
      run (LayerManager.addLayer config) layers =
        (<[id := ILayer.mk id type config]> layers, Ok (ILayer.mk id type config))).
Proof.
  unfold LayerManager.addLayer. rewrite run_bind. simpl.
  destruct (LayerManager.has layers (LayerConfig.id config)) eqn:Hhas.
  { left. by eexists. }
  unfold LayerFactory.createLayer, BaseLayer.new, BaseLayer.validateConfig.
  destruct config as [[id|] [ty|] src sty vis op mn mx opts]; simpl in *;
    repeat (match goal with
            | |- context [if ?b then _ else _] => destruct b; simpl
            end);
    try (left; by eexists).
  right. exists id, ty. repeat split.
  apply bool_decide_eq_false in Hhas. by apply eq_None_not_Some.
Qed.

Lemma run_removeLayer (layerId : string) (layers : gmap string ILayer.t) :
  run (LayerManager.removeLayer layerId) layers = (delete layerId layers, Ok tt).
Proof.
  unfold LayerManager.removeLayer. rewrite run_bind. simpl.
  destruct (layers !! layerId) as [layer|] eqn:H; simpl.
  - rewrite H. simpl. by rewrite delete_insert_eq.
  - by rewrite delete_id.
Qed.

Lemma run_perform_add (config : LayerConfig.t) (layers : gmap string ILayer.t) :
  run (LayerOp.perform (LayerOp.Add config)) layers =
    ((run (LayerManager.addLayer config) layers).1,
     match (run (LayerManager.addLayer config) layers).2 with
     | Ok _ => Ok tt
     | Throw e => Throw e
     end).
Proof.
  unfold LayerOp.perform. rewrite run_bind.
  by destruct (run (LayerManager.addLayer config) layers) as [? [?|?]].
Qed.

(** A call that throws has written nothing, but for an [updateLayer]
    that had a style or a visibility to write first. *)
Lemma failed_call_frame (op : LayerOp.t) (layers : gmap string ILayer.t) :
  threw (outcome (LayerOp.perform op) layers) = true →
  (LayerOp.written_early op = None →
     state_after (LayerOp.perform op) layers = layers) ∧
  (∀ k, LayerOp.written_early op ≠ Some k →
     state_after (LayerOp.perform op) layers !! k = layers !! k) ∧
  (∀ k layer, layers !! k = Some layer →
     ∃ layer', state_after (LayerOp.perform op) layers !! k = Some layer' ∧
       ILayer.id layer' = ILayer.id layer ∧
       ILayer.type layer' = ILayer.type layer ∧
       same_but_style_and_visible (ILayer.config layer) (ILayer.config layer')).
Proof.
  assert (Hsame : ∀ (l : ILayer.t),
             same_but_style_and_visible (ILayer.config l) (ILayer.config l)).
  { intros [? ? []]. reflexivity. }
  unfold outcome, state_after. destruct op as [config | layerId | layerId updates |].
  - rewrite run_perform_add.
    destruct (run_addLayer config layers) as [[e ->] | (id & ty & _ & _ & _ & ->)];
      simpl; [| done].
    intros _. repeat split; eauto 10.
  - cbn [LayerOp.perform]. by rewrite run_removeLayer.
  - cbn [LayerOp.perform].
    destruct (layers !! layerId) as [layer|] eqn:Hl.
    + rewrite (run_updateLayer_present _ _ _ _ Hl).
      destruct (run_apply_updates updates layer)
        as [(o & Ho & _ & ->) | (c & -> & _)]; [| done].
      cbn [fst snd threw]. intros _.
      destruct (style_and_visible_frame updates layer) as (Hid & Hty & Hcfg).
      split; [| split].
      * cbn [LayerOp.written_early].
        destruct (Partial.read (Partial.style updates)) eqn:Hs; [done |].
        destruct (Partial.read (Partial.visible updates)) eqn:Hv; [done |].
        intros _. unfold state_after, style_and_visible. rewrite Hs, Hv. simpl.
        by apply insert_id.
      * intros k Hk. destruct (decide (layerId = k)) as [<- | Hne].
        -- cbn [LayerOp.written_early] in Hk.
           destruct (Partial.read (Partial.style updates)) eqn:Hs; [done |].
           destruct (Partial.read (Partial.visible updates)) eqn:Hv; [done |].
           unfold state_after, style_and_visible. rewrite Hs, Hv. simpl.
           by rewrite lookup_insert_eq.
        -- by rewrite lookup_insert_ne.
      * intros k l Hk. destruct (decide (layerId = k)) as [<- | Hne].
        -- rewrite lookup_insert_eq. rewrite Hl in Hk. injection Hk as <-. eauto.
        -- rewrite lookup_insert_ne by done. eauto 10.
    + rewrite (run_updateLayer_absent _ _ _ Hl). intros _. repeat split; eauto 10.
  - done.
Qed.

(** With a style in its patch, a successful [updateLayer] leaves the
    style of the patch as the style of the layer, whatever the style
    was. *)
Lemma updateLayer_style_is_the_patch (layerId : string) (updates : Partial.t)
    (style : object) (layers : gmap string ILayer.t) :
  is_Some (layers !! layerId) →
  Partial.style updates = Some (Some style) →
  outcome (LayerManager.updateLayer layerId updates) layers = Ok tt →
  ∃ layer',
    state_after (LayerManager.updateLayer layerId updates) layers !! layerId
      = Some layer' ∧
    LayerConfig.style (ILayer.config layer') = Some style.
Proof.
  intros [layer Hl] Hst. unfold outcome, state_after.
  rewrite (run_updateLayer_present _ _ _ _ Hl).
  destruct (run_apply_updates updates layer) as [(o & _ & _ & ->) | (c & -> & _)];
    [done |].
  intros _. eexists. cbn [fst snd]. rewrite lookup_insert_eq. split; [done |].
  simpl. by rewrite Hst.
Qed.

(** *** Invariants of the registry *)

Lemma perform_keyed_by_id (op : LayerOp.t) (layers : gmap string ILayer.t) :
  keyed_by_id layers → keyed_by_id (state_after (LayerOp.perform op) layers).
Proof.
  intros Hinv. unfold state_after. destruct op as [config | layerId | layerId updates |].
  - rewrite run_perform_add.
    destruct (run_addLayer config layers) as [[e ->] | (id & ty & _ & _ & _ & ->)];
      [done |].
    intros k l. cbn [fst]. destruct (decide (id = k)) as [<- | Hne].
    + rewrite lookup_insert_eq. by intros [= <-].
    + rewrite lookup_insert_ne by done. apply Hinv.
  - cbn [LayerOp.perform]. rewrite run_removeLayer. intros k l. cbn [fst].
    destruct (decide (layerId = k)) as [<- | Hne].
    + by rewrite lookup_delete_eq.
    + rewrite lookup_delete_ne by done. apply Hinv.
  - cbn [LayerOp.perform].
    destruct (layers !! layerId) as [layer|] eqn:Hl.
    + rewrite (run_updateLayer_present _ _ _ _ Hl). cbn [fst].
      intros k l. destruct (decide (layerId = k)) as [<- | Hne].
      * rewrite lookup_insert_eq. intros Heq. apply (inj Some) in Heq. subst l.
        destruct (apply_updates_keeps_id_and_type updates layer) as [Hid _].
        etrans; [exact Hid | by apply Hinv].
      * rewrite lookup_insert_ne by done. apply Hinv.
    + by rewrite (run_updateLayer_absent _ _ _ Hl).
  - intros k l. cbn. by rewrite lookup_empty.
Qed.

Lemma perform_all_keyed_by_id (ops : list LayerOp.t) (layers : gmap string ILayer.t) :
  keyed_by_id layers → keyed_by_id (LayerOp.perform_all ops layers).
Proof.
  revert layers. induction ops as [| op ops IH]; intros layers Hinv; [done |].
  apply IH. by apply perform_keyed_by_id.
Qed.

Lemma keyed_by_id_empty : keyed_by_id ∅.
Proof. intros k l. by rewrite lookup_empty. Qed.







Lemma run_registerSource (id : string) (config : object) (m : DataSourceManager.t) :
  run (DataSourceManager.registerSource id config) m =
  match DataSourceFactory.createDataSource config with
  | Throw e => (m, Throw e)
  | Ok source =>
      (DataSourceManager.mk
         (<[id := length (DataSourceManager.store m)]> (DataSourceManager.sources m))
         (DataSourceManager.store m ++ [source])
         (DataSourceManager.destroyed m),
       Ok (length (DataSourceManager.store m)))
  end.
Proof.
  unfold DataSourceManager.registerSource. rewrite run_bind. cbn [run lift].
  by destruct (DataSourceFactory.createDataSource config).
Qed.

(* --------------------------------------------------------------------- *)
(** *** C1 *)

(** C1, where the code departs from the claim.  The layer [a] has the
    style [{fillColor: '#ff0000'}]; [updateLayer('a', {style: {opacity:
    0.5}})] returns normally, and the style of the layer is then
    [{opacity: 0.5}]: the fill colour is gone.  [setStyle] has merged
    the two maps, and the spread of the whole patch that ends
    [updateLayer] has put the style of the patch over the merged one. *)
Theorem C1_style_patch_drops_fillColor :
  outcome (LayerManager.updateLayer "a" Demo.style_patch) Demo.registry = Ok tt ∧
  (LayerConfig.style ∘ ILayer.config) <$> Demo.registry !! "a"
    = Some (Some {[ "fillColor" := JS.VStr "#ff0000" ]}) ∧
  (LayerConfig.style ∘ ILayer.config) <$>
    state_after (LayerManager.updateLayer "a" Demo.style_patch) Demo.registry !! "a"
    = Some (Some {[ "opacity" := JS.VNum 0.5%float ]}) ∧
  (LayerConfig.style ∘ ILayer.config) <$>
    state_after (LayerManager.on_layer "a"
                   (BaseLayer.setStyle {[ "opacity" := JS.VNum 0.5%float ]}))
                Demo.registry !! "a"
    = Some (Some {[ "fillColor" := JS.VStr "#ff0000";
                    "opacity" := JS.VNum 0.5%float ]}).
Proof.
  repeat split; vm_compute; reflexivity.
Qed.

(* --------------------------------------------------------------------- *)
(** *** C4 *)

(** C4, the claim as stated fails: [updateLayer('a', {visible: false,
    opacity: 1.5})] throws on the opacity, and the layer, visible
    before the call, is hidden after it. *)
Lemma C4_failed_update_has_written :
  outcome (LayerManager.updateLayer "a" Demo.bad_patch) Demo.registry
    = Throw OpacityOutOfRange ∧
  (LayerConfig.visible ∘ ILayer.config) <$> Demo.registry !! "a"
    = Some (Some true) ∧
  (LayerConfig.visible ∘ ILayer.config) <$>
    state_after (LayerManager.updateLayer "a" Demo.bad_patch) Demo.registry !! "a"
    = Some (Some false) ∧
  state_after (LayerManager.updateLayer "a" Demo.bad_patch) Demo.registry
    ≠ Demo.registry.
Proof.
  repeat split; try (vm_compute; reflexivity).
  intros H. apply (f_equal (λ m, (LayerConfig.visible ∘ ILayer.config) <$> m !! "a")) in H.
  vm_compute in H. discriminate H.
Qed.

(** A call of the facade over a Google provider that throws leaves the
    facade, provider and registry of layers included, as it was: the
    guard of the facade and the guards of the provider throw before
    anything is written. *)
Lemma failed_facade_call_frame (api : result unit) (element : string → bool)
    (sdk_map : GoogleMap.t) (op : FacadeOp.t)
    (this : UniversalMap.t GoogleMapsProvider.t) :
  threw (outcome (@FacadeOp.perform _ (GoogleMapsProvider.provider api element sdk_map)
                    op) this) = true →
  state_after (@FacadeOp.perform _ (GoogleMapsProvider.provider api element sdk_map)
                 op) this = this.
Proof.
  destruct this as [[p |] cfg em [|] con]; destruct op; try (by cbn).
  all: destruct p as [c ct l eh r [m |] emap [lm |]]; try (by cbn).
  all: unfold outcome, state_after; cbn.
  all: try match goal with |- context [GoogleMap.getBounds ?m] =>
             destruct (GoogleMap.getBounds m); by cbn end.
  all: try match goal with |- context [LayerConfig.id ?x] =>
             destruct (LayerConfig.id x); by cbn end.
  all: try match goal with |- context [?l !! ?k] =>
             destruct (l !! k) eqn:Hl; cbn; rewrite ?Hl; by cbn end.
Qed.

(** C4, amended.  A call of the facade (over the Google provider, any
    of its view and layer methods) that throws leaves the facade, the
    provider's registry of layers included, exactly as it was.  A call
    on the layer manager that throws leaves the registry exactly as it
    was, unless it is an [updateLayer] on a layer that is there whose
    patch has a style or a visibility: those are written before the
    opacity is rejected and stay written.  Even then no key is added or
    removed, every other layer is untouched, and the layer keeps its
    [id], its [type] and every field of its descriptor but [style] and
    [visible].  A [registerSource] that throws leaves the data-source
    manager exactly as it was. *)
Theorem C4_failed_call_effect (op : LayerOp.t) (layers : gmap string ILayer.t)
    (id : string) (config : object) (m : DataSourceManager.t)
    (api : result unit) (element : string → bool) (sdk_map : GoogleMap.t)
    (call : FacadeOp.t) (this : UniversalMap.t GoogleMapsProvider.t) :
  threw (outcome (LayerOp.perform op) layers) = true →
  threw (outcome (DataSourceManager.registerSource id config) m) = true →
  threw (outcome (@FacadeOp.perform _ (GoogleMapsProvider.provider api element sdk_map)
                    call) this) = true →
  (LayerOp.written_early op = None →
     state_after (LayerOp.perform op) layers = layers) ∧
  (∀ k, LayerOp.written_early op ≠ Some k →
     state_after (LayerOp.perform op) layers !! k = layers !! k) ∧
  (∀ k, is_Some (state_after (LayerOp.perform op) layers !! k)
        ↔ is_Some (layers !! k)) ∧
  (∀ k layer, layers !! k = Some layer →
     ∃ layer', state_after (LayerOp.perform op) layers !! k = Some layer' ∧
       ILayer.id layer' = ILayer.id layer ∧
       ILayer.type layer' = ILayer.type layer ∧
       same_but_style_and_visible (ILayer.config layer) (ILayer.config layer')) ∧
  state_after (DataSourceManager.registerSource id config) m = m ∧
  state_after (@FacadeOp.perform _ (GoogleMapsProvider.provider api element sdk_map)
                 call) this = this.
Proof.
  intros Hop Hreg Hcall.
  destruct (failed_call_frame op layers Hop) as (Hnone & Hother & Hframe).
  split; [exact Hnone |]. split; [exact Hother |].
  split; [| split; [exact Hframe | split]].
  - intros k. split.
    + intros [l' Hl']. destruct (layers !! k) as [l|] eqn:Hk; [by eexists |].
      destruct (decide (LayerOp.written_early op = Some k)) as [Heq | Hne].
      * destruct op as [| | layerId updates |]; try done.
        cbn [LayerOp.written_early] in Heq.
        assert (layerId = k) as ->.
        { destruct (JS.defined _ || JS.defined _); by inversion Heq. }
        unfold state_after in Hl'. cbn [LayerOp.perform] in Hl'.
        rewrite (run_updateLayer_absent _ _ _ Hk) in Hl'. cbn in Hl'. congruence.
      * rewrite (Hother k Hne) in Hl'. congruence.
    + intros [l Hl]. destruct (Hframe k l Hl) as (l' & Hl' & _). by eexists.
  - unfold outcome, state_after in *. rewrite run_registerSource in *.
    by destruct (DataSourceFactory.createDataSource config).
  - by apply failed_facade_call_frame.
Qed.

Lemma C4_failed_call_effect_witness :
  (∀ k, k ≠ "a" →
     state_after (LayerManager.updateLayer "a" Demo.bad_patch) Demo.registry !! k
       = Demo.registry !! k) ∧
  state_after (DataSourceManager.registerSource "s" Demo.custom_config)
              DataSourceManager.empty
    = DataSourceManager.empty ∧
  outcome (@UniversalMap.updateLayer _ Demo.google_provider "zz" Demo.bad_patch)
          Demo.live_map
    = Throw (ProviderLayerNotFound "zz") ∧
  state_after (@UniversalMap.updateLayer _ Demo.google_provider "zz" Demo.bad_patch)
              Demo.live_map
    = Demo.live_map.
Proof.
  destruct (C4_failed_call_effect (LayerOp.Update "a" Demo.bad_patch) Demo.registry
              "s" Demo.custom_config DataSourceManager.empty
              (Ok tt) (λ id, String.eqb id "map")
              (GoogleMap.mk None None None None None [])
              (FacadeOp.UpdateLayer "zz" Demo.bad_patch) Demo.live_map)
    as (_ & Hother & _ & _ & Hreg & Hcall).
  - vm_compute. reflexivity.
  - vm_compute. reflexivity.
  - vm_compute. reflexivity.
  - split; [| split; [exact Hreg | split; [vm_compute; reflexivity | exact Hcall]]].
    intros k Hk. apply Hother. cbn. congruence.
Defined.

(* --------------------------------------------------------------------- *)
(** *** C6 *)

(** C6.  In every state of a layer manager (whatever calls have been
    made on it since it was created) that holds a layer under an id,
    [addLayer] with a descriptor of that id throws the duplicate-id
    error and leaves the registry as it was: the id still names the
    first layer, unchanged, and no other entry carries that id. *)
Theorem C6_duplicate_id_rejected (history : list LayerOp.t)
    (config : LayerConfig.t) (id : string) (first : ILayer.t) :
  LayerConfig.id config = Some id →
  LayerOp.perform_all history ∅ !! id = Some first →
  outcome (LayerManager.addLayer config) (LayerOp.perform_all history ∅)
    = Throw (LayerAlreadyExists (Some id)) ∧
  kind (LayerAlreadyExists (Some id)) = DuplicateIdError ∧
  state_after (LayerManager.addLayer config) (LayerOp.perform_all history ∅)
    = LayerOp.perform_all history ∅ ∧
  state_after (LayerManager.addLayer config) (LayerOp.perform_all history ∅) !! id
    = Some first ∧
  (∀ k layer,
     state_after (LayerManager.addLayer config) (LayerOp.perform_all history ∅) !! k
       = Some layer →
     ILayer.id layer = id → k = id ∧ layer = first).
Proof.
  intros Hid Hfirst.
  pose proof (perform_all_keyed_by_id history ∅ keyed_by_id_empty) as Hkeyed.
  unfold outcome, state_after.
  rewrite (run_addLayer_duplicate config id _ Hid) by by eexists.
  cbn [fst snd]. repeat split; try done.
  - rewrite <- (Hkeyed _ _ H). done.
  - assert (k = id) as -> by (rewrite <- (Hkeyed _ _ H); done). congruence.
Qed.

Lemma C6_duplicate_id_rejected_witness :
  outcome (LayerManager.addLayer Demo.layer_a') Demo.registry
    = Throw (LayerAlreadyExists (Some "a")) ∧
  state_after (LayerManager.addLayer Demo.layer_a') Demo.registry !! "a"
    = Some (ILayer.mk "a" "geojson" Demo.layer_a).
Proof.
  destruct (C6_duplicate_id_rejected [LayerOp.Add Demo.layer_a] Demo.layer_a' "a"
              (ILayer.mk "a" "geojson" Demo.layer_a))
    as (Hout & _ & _ & Hfirst & _).
  - reflexivity.
  - vm_compute. reflexivity.
  - split; [exact Hout | exact Hfirst].
Defined.

(** The same on two calls in a row: the first [addLayer] of a valid
    descriptor with a free id stores its layer, the second one with
    that id throws, and the registry holds the first layer. *)
Lemma addLayer_twice (layers : gmap string ILayer.t)
    (config config' : LayerConfig.t) (layer : ILayer.t) :
  outcome (LayerManager.addLayer config) layers = Ok layer →
  LayerConfig.id config' = LayerConfig.id config →
  run (LayerManager.addLayer config')
      (state_after (LayerManager.addLayer config) layers)
    = (<[ILayer.id layer := layer]> layers,
       Throw (LayerAlreadyExists (Some (ILayer.id layer)))).
Proof.
  unfold outcome, state_after.
  destruct (run_addLayer config layers) as [[e ->] | (id & ty & Hid & _ & _ & ->)];
    [done |].
  cbn [fst snd]. intros Heq Hid'. injection Heq as Heq. subst layer.
  cbn [ILayer.id].
  apply run_addLayer_duplicate; [congruence |].
  rewrite lookup_insert_eq. by eexists.
Qed.

(* --------------------------------------------------------------------- *)
(** *** C9 *)




(** ** Data sources *)

(** *** [normalizeSource] *)

Lemma normalizeSource_string (s : string) :
  DataSourceFactory.normalizeSource (SrcString s) =
  if JS.startsWith s "mock://"
  then {[ "type" := JS.VStr "mock"; "data" := JS.VStr s ]}
  else {[ "type" := JS.VStr "url"; "url" := JS.VStr s ]}.
Proof. reflexivity. Qed.

(** An object with a truthy [type], whatever the tag, is handed back as
    it is. *)
Lemma normalizeSource_tagged (o : object) :
  JS.truthy (JS.get o "type") = true →
  DataSourceFactory.normalizeSource (SrcObject o) = o.
Proof.
  intros Ht. unfold DataSourceFactory.normalizeSource, JS.has.
  rewrite Ht. rewrite bool_decide_eq_true_2; [done |].
  unfold JS.get in Ht. destruct (o !! "type"); [by eexists | done].
Qed.

(** An object without a truthy [type] is wrapped. *)
Lemma normalizeSource_untagged (o : object) :
  JS.truthy (JS.get o "type") = false →
  DataSourceFactory.normalizeSource (SrcObject o) =
    {[ "type" := JS.VStr "geojson"; "data" := JS.VObj o ]}.
Proof.
  intros Ht. unfold DataSourceFactory.normalizeSource.
  by rewrite Ht, andb_false_r.
Qed.

(* --------------------------------------------------------------------- *)
(** *** C2 *)

(** C2, where the code departs from the claim.  An inline GeoJSON value
    has a [type] of its own ([FeatureCollection] here), so the test for
    a descriptor takes it: [normalizeSource] hands it back unchanged
    instead of wrapping it as [{type: 'geojson', data: ...}], and the
    factory then rejects the tag. *)
Theorem C2_inline_geojson_is_not_wrapped :
  DataSourceFactory.normalizeSource (SrcObject Demo.featureCollection)
    = Demo.featureCollection ∧
  DataSourceFactory.normalizeSource (SrcObject Demo.featureCollection)
    ≠ {[ "type" := JS.VStr "geojson"; "data" := JS.VObj Demo.featureCollection ]} ∧
  DataSourceFactory.createDataSource
      (DataSourceFactory.normalizeSource (SrcObject Demo.featureCollection))
    = Throw (UnsupportedDataSourceType (JS.VStr "FeatureCollection")).
Proof.
  split; [| split].
  - vm_compute. reflexivity.
  - intros H. apply (f_equal (λ o : object, o !! "type")) in H.
    vm_compute in H. discriminate H.
  - vm_compute. reflexivity.
Qed.

(** *** The manager *)

Lemma run_removeSource (id : string) (m : DataSourceManager.t) :
  run (DataSourceManager.removeSource id) m =
  match DataSourceManager.sources m !! id with
  | Some r =>
      (DataSourceManager.mk
         (delete id (DataSourceManager.sources m))
         (alter BaseDataSource.destroy r (DataSourceManager.store m))
         (DataSourceManager.destroyed m ++ [r]),
       Ok tt)
  | None => (m, Ok tt)
  end.
Proof.
  unfold DataSourceManager.removeSource. rewrite run_bind. cbn [run read].
  by destruct (DataSourceManager.sources m !! id).
Qed.

(** A round of [destroy()] over a list of addresses. *)
Lemma destroy_all (rs : list nat) (m : DataSourceManager.t) :
  DataSourceManager.sources (foldr DataSourceManager.destroy_at m rs)
    = DataSourceManager.sources m ∧
  (∀ r, r ∈ rs → r ∈ DataSourceManager.destroyed
                        (foldr DataSourceManager.destroy_at m rs)) ∧
  (∀ r source, r ∈ rs → DataSourceManager.store m !! r = Some source →
     DataSourceManager.store (foldr DataSourceManager.destroy_at m rs) !! r
       = Some (BaseDataSource.destroy source)).
Proof.
  induction rs as [| r0 rs (IHs & IHd & IHo)]; cbn [foldr].
  { split; [done |]. split; intros r; [| intros ?]; by rewrite elem_of_nil. }
  assert (Hstore : ∀ r source,
             DataSourceManager.store m !! r = Some source →
             DataSourceManager.store (foldr DataSourceManager.destroy_at m rs) !! r
               = Some source ∨
             DataSourceManager.store (foldr DataSourceManager.destroy_at m rs) !! r
               = Some (BaseDataSource.destroy source)).
  { clear. induction rs as [| r1 rs IH]; intros r source Hr; cbn [foldr].
    - by left.
    - cbn [DataSourceManager.destroy_at DataSourceManager.store].
      destruct (decide (r1 = r)) as [-> | Hne].
      + rewrite list_lookup_alter_eq.
        destruct (IH r source Hr) as [-> | ->]; right; by destruct source.
      + rewrite list_lookup_alter_ne by done. by apply IH. }
  split; [exact IHs |]. split.
  - intros r Hr. cbn [DataSourceManager.destroy_at DataSourceManager.destroyed].
    apply elem_of_cons in Hr as [-> | Hr].
    + apply elem_of_app. right. by apply list_elem_of_singleton.
    + apply elem_of_app. left. by apply IHd.
  - intros r source Hr Hsrc.
    cbn [DataSourceManager.destroy_at DataSourceManager.store].
    destruct (decide (r0 = r)) as [-> | Hne].
    + rewrite list_lookup_alter_eq.
      destruct (Hstore r source Hsrc) as [-> | ->]; by destruct source.
    + rewrite list_lookup_alter_ne by done.
      apply elem_of_cons in Hr as [-> | Hr]; [done |]. by apply IHo.
Qed.

(** [clear()] calls [destroy()] on every registered source and empties
    the map. *)
Lemma clear_destroys (m : DataSourceManager.t) (id : string) (r : nat)
    (source : IDataSource.t) :
  DataSourceManager.sources m !! id = Some r →
  DataSourceManager.store m !! r = Some source →
  DataSourceManager.sources (state_after DataSourceManager.clear m) = ∅ ∧
  r ∈ DataSourceManager.destroyed (state_after DataSourceManager.clear m) ∧
  DataSourceManager.deref r (state_after DataSourceManager.clear m)
    = Some (BaseDataSource.destroy source).
Proof.
  intros Hid Hr. unfold state_after, DataSourceManager.clear, DataSourceManager.deref.
  rewrite !run_bind. cbn.
  assert (r ∈ (map_to_list (DataSourceManager.sources m)).*2) as Hin.
  { apply list_elem_of_fmap. exists (id, r). split; [done |].
    by apply elem_of_map_to_list. }
  destruct (destroy_all (map_to_list (DataSourceManager.sources m)).*2 m)
    as (_ & Hd & Ho).
  split; [done |]. split; [by apply Hd | by apply Ho].
Qed.

(** What the factory builds is not loaded and holds the descriptor. *)
Lemma createDataSource_fresh (config : object) (source : IDataSource.t) :
  DataSourceFactory.createDataSource config = Ok source →
  BaseDataSource.isLoaded source = false ∧
  IDataSource.data source = JS.VNull ∧
  IDataSource.config source = config ∧
  JS.get config "type" = JS.VStr (tag_of (IDataSource.cls source)).
Proof.
  unfold DataSourceFactory.createDataSource, BaseDataSource.new.
  destruct (JS.get config "type") as [| | | | s | |] eqn:Hty; cbn; try done.
  repeat (match goal with
          | |- context [String.eqb ?a ?b] =>
              let H := fresh "H" in
              destruct (String.eqb a b) eqn:H; cbn;
              [apply String.eqb_eq in H; subst s |]
          end);
    try done; intros [= <-]; by repeat split.
Qed.

(* --------------------------------------------------------------------- *)
(** *** C10 *)

(** C10, the claim as stated fails: on a manager that holds a source
    under [s], [registerSource('s', {type: 'custom'})] throws, because
    the factory has no class for the tag; the entry is still there. *)
Lemma C10_custom_descriptor_rejected :
  is_Some (DataSourceManager.getSource "s" Demo.sources) ∧
  run (DataSourceManager.registerSource "s" Demo.custom_config) Demo.sources
    = (Demo.sources, Throw (UnsupportedDataSourceType (JS.VStr "custom"))).
Proof.
  split.
  - exists 0. vm_compute. reflexivity.
  - rewrite run_registerSource. reflexivity.
Qed.

(** C10, amended.  On a manager that holds a source under an id,
    [registerSource] with that id never fails on account of the id: it
    throws only what the factory throws for the descriptor, and then
    changes nothing.  With a descriptor the factory accepts it puts the
    new object, not loaded, under the id; the object that was there is
    not destroyed: no [destroy()] is called, and the object still has
    its [loaded] flag and its payload, out of reach of the map.
    [removeSource] and [clear], in contrast, call [destroy()] on the
    object before the entry goes. *)
Theorem C10_registerSource_replaces (m : DataSourceManager.t) (id : string)
    (config : object) (old : nat) (displaced source : IDataSource.t) :
  DataSourceManager.sources m !! id = Some old →
  DataSourceManager.store m !! old = Some displaced →
  DataSourceFactory.createDataSource config = Ok source →
  (∀ config' e, DataSourceFactory.createDataSource config' = Throw e →
     run (DataSourceManager.registerSource id config') m = (m, Throw e)) ∧
  outcome (DataSourceManager.registerSource id config) m
    = Ok (length (DataSourceManager.store m)) ∧
  DataSourceManager.getSource id
      (state_after (DataSourceManager.registerSource id config) m)
    = Some (length (DataSourceManager.store m)) ∧
  length (DataSourceManager.store m) ≠ old ∧
  DataSourceManager.deref (length (DataSourceManager.store m))
      (state_after (DataSourceManager.registerSource id config) m)
    = Some source ∧
  BaseDataSource.isLoaded source = false ∧
  DataSourceManager.deref old
      (state_after (DataSourceManager.registerSource id config) m)
    = Some displaced ∧
  DataSourceManager.destroyed
      (state_after (DataSourceManager.registerSource id config) m)
    = DataSourceManager.destroyed m ∧
  (∀ k, k ≠ id →
     DataSourceManager.getSource k
         (state_after (DataSourceManager.registerSource id config) m)
       = DataSourceManager.getSource k m) ∧
  DataSourceManager.getSource id (state_after (DataSourceManager.removeSource id) m)
    = None ∧
  DataSourceManager.deref old (state_after (DataSourceManager.removeSource id) m)
    = Some (BaseDataSource.destroy displaced) ∧
  DataSourceManager.destroyed (state_after (DataSourceManager.removeSource id) m)
    = (DataSourceManager.destroyed m ++ [old])%list ∧
  DataSourceManager.sources (state_after DataSourceManager.clear m) = ∅ ∧
  old ∈ DataSourceManager.destroyed (state_after DataSourceManager.clear m) ∧
  DataSourceManager.deref old (state_after DataSourceManager.clear m)
    = Some (BaseDataSource.destroy displaced).
Proof.
  intros Hid Hold Hnew.
  assert (old < length (DataSourceManager.store m)) as Hlt
    by by eapply lookup_lt_Some.
  destruct (clear_destroys m id old displaced Hid Hold) as (Hc1 & Hc2 & Hc3).
  unfold outcome, state_after, DataSourceManager.getSource, DataSourceManager.deref.
  rewrite run_registerSource, run_removeSource, Hnew, Hid.
  cbn [fst snd DataSourceManager.sources DataSourceManager.store
       DataSourceManager.destroyed].
  split.
  { intros config' e He. by rewrite run_registerSource, He. }
  split; [done |]. split; [by rewrite lookup_insert_eq |].
  split; [lia |].
  split.
  { rewrite lookup_app_r by done. by rewrite Nat.sub_diag. }
  split; [by apply (createDataSource_fresh config) |].
  split; [by rewrite lookup_app_l |].
  split; [done |].
  split; [intros k Hk; by rewrite lookup_insert_ne |].
  split; [by rewrite lookup_delete_eq |].
  split; [by rewrite list_lookup_alter_eq, Hold |].
  split; [done |]. done.
Qed.

Lemma C10_registerSource_replaces_witness :
  DataSourceManager.getSource "s"
      (state_after (DataSourceManager.registerSource "s" Demo.url_config)
                   Demo.sources)
    = Some 1 ∧
  BaseDataSource.isLoaded <$>
    DataSourceManager.deref 0
      (state_after (DataSourceManager.registerSource "s" Demo.url_config)
                   Demo.sources)
    = Some true ∧
  DataSourceManager.destroyed
      (state_after (DataSourceManager.registerSource "s" Demo.url_config)
                   Demo.sources)
    = [] ∧
  DataSourceManager.destroyed
      (state_after (DataSourceManager.removeSource "s") Demo.sources)
    = [0].
Proof.
  destruct (C10_registerSource_replaces Demo.sources "s" Demo.url_config 0
              (IDataSource.mk MockDataSource (JS.VStr "mock") Demo.mock_config
                 true (JS.VStr "mock://buildings-nyc"))
              Demo.url_source)
    as (_ & _ & Hnew & _ & _ & _ & Hold & Hnone & _ & _ & _ & Hrem & _).
  - vm_compute. reflexivity.
  - vm_compute. reflexivity.
  - vm_compute. reflexivity.
  - split; [exact Hnew |]. split; [by rewrite Hold |].
    split; [exact Hnone | exact Hrem].
Defined.

(** *** [load()] *)

Lemma load_begin_memoized (this : IDataSource.t) (h : Host) :
  IDataSource.cls this = URLDataSource ∨ IDataSource.cls this = GeoJSONDataSource →
  BaseDataSource.memoized this = true →
  BaseDataSource.load_begin this h = (this, h, Resolved (IDataSource.data this)).
Proof.
  intros [Hc | Hc] Hm; unfold BaseDataSource.load_begin; by rewrite Hc, Hm.
Qed.

Lemma load_begin_remote (this : IDataSource.t) (h : Host) :
  remote this →
  BaseDataSource.memoized this = false →
  BaseDataSource.load_begin this h = (this, do_fetch (remote_url this) h, AwaitFetch).
Proof.
  unfold remote, remote_url, BaseDataSource.load_begin.
  destruct (IDataSource.cls this); try done; intros Hr ->.
  - destruct Hr as [url ->]. reflexivity.
  - by rewrite Hr.
Qed.

(** A fetch that fails ends the call with its error and leaves the
    object alone. *)
Lemma load_fetched_fails (this : IDataSource.t) (o : FetchOutcome) :
  fetch_fails o →
  BaseDataSource.load_fetched this o =
    (this, Rejected (load_error (IDataSource.cls this) o)) ∧
  kind (load_error (IDataSource.cls this) o) = LoadError.
Proof.
  destruct o as [cause | r]; cbn; [done |].
  intros ->. cbn. by destruct (IDataSource.cls this).
Qed.

(** The events of the host make no call of [fetch], add no call of
    [load()], and move a call on only as its own fetch allows. *)
Lemma host_events_invariant (es : list Runtime.Event) (s0 : Runtime.System) :
  forallb Runtime.host_event es = true →
  (∀ i t, Runtime.calls s0 !! i = Some t → t = AwaitFetch) →
  Runtime.host (Runtime.exec s0 es) = Runtime.host s0 ∧
  length (Runtime.calls (Runtime.exec s0 es)) = length (Runtime.calls s0) ∧
  (∀ i t, Runtime.calls (Runtime.exec s0 es) !! i = Some t →
     call_explained es i t).
Proof.
  intros Hes H0. induction es as [| e es IH] using rev_ind.
  { cbn. repeat split. intros i t Ht. by rewrite (H0 i t Ht). }
  rewrite forallb_app in Hes. apply andb_prop in Hes as [Hes He].
  cbn in He. rewrite andb_true_r in He.
  destruct (IH Hes) as (Hhost & Hlen & Hcalls). clear IH.
  unfold Runtime.exec in *. rewrite foldl_snoc.
  set (s := foldl Runtime.step s0 es) in *.
  assert (Hmono : ∀ i t, call_explained es i t → call_explained (es ++ [e]) i t).
  { intros i [| r | v |]; cbn; try done.
    - intros [Hin Hok]. split; [| done]. apply in_or_app. by left.
    - intros (r & Hin & Hok & Hj). exists r. split; [| done].
      apply in_or_app. by left. }
  destruct e as [| i o | i |]; try done; cbn [Runtime.step].
  - (* the fetch of call [i] settles *)
    destruct (Runtime.calls s !! i) as [[| | |]|] eqn:Hi; try by eauto.
    destruct (BaseDataSource.load_fetched (Runtime.this s) o) as [this' t'] eqn:Hf.
    cbn [Runtime.host Runtime.calls]. rewrite length_insert.
    split; [done |]. split; [done |].
    intros j t Hj. apply list_lookup_insert_Some in Hj as [(<- & <- & _) | (Hne & Hj)].
    + unfold BaseDataSource.load_fetched in Hf. destruct o as [cause | r].
      * by injection Hf as <- <-.
      * destruct (ok r) eqn:Hok; cbn in Hf; injection Hf as <- <-; [| done].
        cbn. split; [| done]. apply in_or_app. right. by left.
    + by eauto.
  - (* the [json()] of call [i] settles *)
    destruct (Runtime.calls s !! i) as [[| r | |]|] eqn:Hi; try by eauto.
    destruct (BaseDataSource.load_parsed (Runtime.this s) (json r)) as [this' t'] eqn:Hp.
    cbn [Runtime.host Runtime.calls]. rewrite length_insert.
    split; [done |]. split; [done |].
    intros j t Hj. apply list_lookup_insert_Some in Hj as [(<- & <- & _) | (Hne & Hj)].
    + destruct (Hcalls i _ Hi) as [Hin Hok].
      unfold BaseDataSource.load_parsed in Hp. destruct (json r) as [cause | v] eqn:Hjson.
      * by injection Hp as <- <-.
      * injection Hp as <- <-. cbn. exists r. split; [| done].
        apply in_or_app. by left.
    + by eauto.
Qed.

Lemma two_calls (this : IDataSource.t) (es : list Runtime.Event) :
  remote this →
  BaseDataSource.memoized this = false →
  Runtime.exec (Runtime.start this) (Runtime.CallLoad :: Runtime.CallLoad :: es) =
  Runtime.exec
    (Runtime.mkSystem this (mkHost [remote_url this; remote_url this] [])
                      [AwaitFetch; AwaitFetch])
    es.
Proof.
  intros Hr Hm. unfold Runtime.exec, Runtime.start. cbn [foldl Runtime.step].
  cbn [Runtime.this Runtime.host Runtime.calls].
  rewrite (load_begin_remote this _ Hr Hm).
  cbn [Runtime.this Runtime.host Runtime.calls].
  by rewrite (load_begin_remote this _ Hr Hm).
Qed.

(* --------------------------------------------------------------------- *)
(** *** C3 *)

(** C3, the claim as stated fails: two calls of [load()] on the URL
    source, both made before anything settles, make two calls of
    [fetch]; with two responses of different bodies the two calls
    resolve to different payloads. *)
Lemma C3_two_loads_two_fetches :
  BaseDataSource.isLoaded Demo.url_source = false ∧
  fetched (Runtime.host Demo.two_loads)
    = [JS.VStr "https://x/data.json"; JS.VStr "https://x/data.json"] ∧
  length (fetched (Runtime.host Demo.two_loads)) ≠ 1 ∧
  Runtime.calls Demo.two_loads = [Resolved Demo.body_1; Resolved Demo.body_2] ∧
  Demo.body_1 ≠ Demo.body_2.
Proof.
  repeat split; try (vm_compute; reflexivity).
  - vm_compute. discriminate.
  - intros H.
    apply (f_equal (λ v, match v with JS.VObj o => o !! "n" | _ => None end)) in H.
    vm_compute in H. discriminate H.
Qed.

(** C3, amended.  Two calls of [load()] on a remote source that is not
    loaded, made before anything settles, each call [fetch] with the URL
    of the source: two fetches, and no more whatever the host does
    next.  The calls share nothing: each one that resolves resolves to
    the body of the response to its own fetch. *)
Theorem C3_each_load_fetches (this : IDataSource.t) (es : list Runtime.Event) :
  remote this →
  BaseDataSource.isLoaded this = false →
  forallb Runtime.host_event es = true →
  fetched (Runtime.host
             (Runtime.exec (Runtime.start this)
                (Runtime.CallLoad :: Runtime.CallLoad :: es)))
    = [remote_url this; remote_url this] ∧
  length (Runtime.calls
            (Runtime.exec (Runtime.start this)
               (Runtime.CallLoad :: Runtime.CallLoad :: es))) = 2 ∧
  resolved_to_own_body es
    (Runtime.calls
       (Runtime.exec (Runtime.start this)
          (Runtime.CallLoad :: Runtime.CallLoad :: es))).
Proof.
  intros Hr Hl Hes.
  assert (BaseDataSource.memoized this = false) as Hm.
  { unfold BaseDataSource.memoized, BaseDataSource.isLoaded in *. by rewrite Hl. }
  rewrite (two_calls this es Hr Hm).
  destruct (host_events_invariant es
              (Runtime.mkSystem this (mkHost [remote_url this; remote_url this] [])
                                [AwaitFetch; AwaitFetch]) Hes)
    as (Hhost & Hlen & Hcalls).
  { intros [| [| i]] t Ht; by simplify_eq/=. }
  split; [by rewrite Hhost |]. split; [exact Hlen |].
  intros i v Hi. exact (Hcalls i _ Hi).
Qed.

Lemma C3_each_load_fetches_witness :
  fetched (Runtime.host Demo.two_loads)
    = [JS.VStr "https://x/data.json"; JS.VStr "https://x/data.json"] ∧
  length (Runtime.calls Demo.two_loads) = 2.
Proof.
  destruct (C3_each_load_fetches Demo.url_source
              [Runtime.FetchSettles 0 (FetchResolves (Demo.success Demo.body_1));
               Runtime.FetchSettles 1 (FetchResolves (Demo.success Demo.body_2));
               Runtime.JsonSettles 0; Runtime.JsonSettles 1])
    as (Hf & Hl & _).
  - vm_compute. reflexivity.
  - reflexivity.
  - reflexivity.
  - split; [exact Hf | exact Hl].
Defined.

(** The loader of the Google Maps API, for comparison, does share: a
    second [load()] while the first is pending is handed the stored
    promise, and one script element is appended. *)
Lemma loader_is_single_flight (this : GoogleMapsAPILoader.t) :
  GoogleMapsAPILoader.status this = GoogleMapsAPILoader.NOT_LOADED →
  GoogleMapsAPILoader.google this = false →
  GoogleMapsAPILoader.scripts
      (GoogleMapsAPILoader.load (GoogleMapsAPILoader.load this))
    = S (GoogleMapsAPILoader.scripts this) ∧
  GoogleMapsAPILoader.calls
      (GoogleMapsAPILoader.load (GoogleMapsAPILoader.load this))
    = (GoogleMapsAPILoader.calls this ++
       [GoogleMapsAPILoader.Awaits (length (GoogleMapsAPILoader.promises this));
        GoogleMapsAPILoader.Shares (length (GoogleMapsAPILoader.promises this))])%list.
Proof.
  destruct this as [st lp er g sc ps cs]. cbn. intros -> ->. cbn.
  split; [done |]. by rewrite <- app_assoc.
Qed.

(* --------------------------------------------------------------------- *)
(** *** C7 *)

(** C7, the claim as stated fails: after a load whose response had the
    body [null] the URL source is loaded, and the next [load()] calls
    [fetch] again instead of returning the payload it holds. *)
Lemma C7_falsy_payload_fetched_again :
  BaseDataSource.isLoaded (Runtime.this Demo.loaded_null) = true ∧
  Runtime.calls Demo.loaded_null = [Resolved JS.VNull] ∧
  fetched (Runtime.host Demo.loaded_null) = [JS.VStr "https://x/data.json"] ∧
  fetched (Runtime.host (Runtime.step Demo.loaded_null Runtime.CallLoad))
    = [JS.VStr "https://x/data.json"; JS.VStr "https://x/data.json"] ∧
  Runtime.calls (Runtime.step Demo.loaded_null Runtime.CallLoad)
    = [Resolved JS.VNull; AwaitFetch].
Proof.
  repeat split; vm_compute; reflexivity.
Qed.

(** C7, amended.  On a remote source that is loaded with a truthy
    payload, [load()] resolves to that payload at once: no fetch, and
    the object as it was.  On one that is not, a fetch that fails in
    transport or comes back without success rejects the call with a load
    error that carries the cause or the status text, and leaves the
    object as it was, so that [isLoaded()] answers what it answered
    before; so does a [json()] that rejects. *)
Theorem C7_memoized_load_and_failed_load (this : IDataSource.t) (h : Host)
    (o : FetchOutcome) (cause : string) :
  remote this →
  fetch_fails o →
  (BaseDataSource.memoized this = true →
     BaseDataSource.load_begin this h = (this, h, Resolved (IDataSource.data this))) ∧
  (BaseDataSource.memoized this = false →
     Runtime.exec (Runtime.mkSystem this h [])
                  [Runtime.CallLoad; Runtime.FetchSettles 0 o]
       = Runtime.mkSystem this (do_fetch (remote_url this) h)
           [Rejected (load_error (IDataSource.cls this) o)]) ∧
  kind (load_error (IDataSource.cls this) o) = LoadError ∧
  BaseDataSource.load_parsed this (JsonRejects cause)
    = (this, Rejected (HostRejection cause)) ∧
  kind (HostRejection cause) = LoadError.
Proof.
  intros Hr Ho.
  destruct (load_fetched_fails this o Ho) as [Hf Hk].
  split; [| split; [| by repeat split]].
  - apply load_begin_memoized.
    unfold remote in Hr. destruct (IDataSource.cls this); try done; [by right | by left].
  - intros Hm. unfold Runtime.exec. cbn [foldl Runtime.step].
    cbn [Runtime.this Runtime.host Runtime.calls].
    rewrite (load_begin_remote this h Hr Hm). cbn. by rewrite Hf.
Qed.

Lemma C7_memoized_load_and_failed_load_witness :
  Runtime.exec (Runtime.mkSystem Demo.url_source (mkHost [] []) [])
               [Runtime.CallLoad;
                Runtime.FetchSettles 0
                  (FetchResolves (mkResponse false "Not Found" (JsonRejects "")))]
    = Runtime.mkSystem Demo.url_source
        (mkHost [JS.VStr "https://x/data.json"] [])
        [Rejected (DataLoadFailed "Not Found")].
Proof.
  destruct (C7_memoized_load_and_failed_load Demo.url_source (mkHost [] [])
              (FetchResolves (mkResponse false "Not Found" (JsonRejects ""))) "")
    as (_ & Hfail & _).
  - vm_compute. reflexivity.
  - reflexivity.
  - apply Hfail. reflexivity.
Defined.

(** ** Providers and the facade *)

Lemma run_updateLayer_bad_opacity (layerId : string) (opacity : float)
    (layers : gmap string ILayer.t) :
  is_Some (layers !! layerId) →
  below_0_or_above_1 opacity →
  run (LayerManager.updateLayer layerId (patch_opacity opacity)) layers
    = (layers, Throw OpacityOutOfRange).
Proof.
  intros [layer Hl] Ho. rewrite (run_updateLayer_present _ _ _ _ Hl).
  assert ((PrimFloat.ltb opacity 0 || PrimFloat.ltb 1 opacity) = true) as Hb.
  { destruct Ho as [-> | ->]; [done | by rewrite orb_true_r]. }
  unfold LayerManager.apply_updates, patch_opacity, BaseLayer.setOpacity.
  cbn. rewrite Hb. cbn. by rewrite insert_id.
Qed.

(** The Google provider stores whatever opacity and visibility it is
    given. *)
Lemma google_updateLayer_stores (layerId : string) (updates : Partial.t)
    (this : GoogleMapsProvider.t) (layer : LayerConfig.t) :
  GoogleMapsProvider.layers this !! layerId = Some layer →
  is_Some (GoogleMapsProvider.layerManager this) →
  outcome (GoogleMapsProvider.updateLayer layerId updates) this = Ok tt ∧
  GoogleMapsProvider.layers
      (state_after (GoogleMapsProvider.updateLayer layerId updates) this) !! layerId
    = Some (spread_config layer updates).
Proof.
  intros Hl [calls Hm]. unfold outcome, state_after, GoogleMapsProvider.updateLayer.
  rewrite run_bind. cbn [run read]. rewrite Hm, Hl. rewrite run_bind. cbn.
  by rewrite lookup_insert_eq.
Qed.

(* --------------------------------------------------------------------- *)
(** *** C5 *)

(** C5, the claim as stated fails: on the Google provider, holding the
    layer [a] with opacity 1, [setLayerOpacity('a', 1.5)] returns
    normally and the stored opacity is then 1.5; so it is through the
    facade. *)
Lemma C5_provider_stores_bad_opacity :
  below_0_or_above_1 1.5%float ∧
  LayerConfig.opacity <$> GoogleMapsProvider.layers Demo.google !! "a"
    = Some (Some 1%float) ∧
  outcome (GoogleMapsProvider.setLayerOpacity "a" 1.5%float) Demo.google = Ok tt ∧
  LayerConfig.opacity <$>
    GoogleMapsProvider.layers
      (state_after (GoogleMapsProvider.setLayerOpacity "a" 1.5%float) Demo.google)
      !! "a"
    = Some (Some 1.5%float) ∧
  outcome (@UniversalMap.setLayerOpacity _ Demo.google_provider "a" 1.5%float)
          Demo.live_map
    = Ok tt.
Proof.
  split; [right; reflexivity |].
  repeat split; vm_compute; reflexivity.
Qed.

(** C5, amended.  [setLayerOpacity] and [setLayerVisibility], for every
    opacity and every visibility, are exactly the provider's
    [updateLayer] with the patch [{opacity}] or [{visible}] when the
    provider holds a layer under the id, and do nothing when it holds
    none.  Whether an opacity below 0 or above 1 is rejected depends on
    that [updateLayer]: the one of [LayerManager] goes through
    [BaseLayer.setOpacity], throws the validation error and leaves the
    registry as it was; the one of the Google provider validates
    nothing and stores the value as given, whatever it is. *)
Theorem C5_setLayerOpacity_is_updateLayer {P : Type}
    (layers : P → gmap string LayerConfig.t)
    (updateLayer : string → Partial.t → ST P unit)
    (this : P) (registry : gmap string ILayer.t) (google : GoogleMapsProvider.t)
    (layerId : string) (visible : bool) (opacity : float) :
  run (BaseMapProvider.setLayerOpacity layers updateLayer layerId opacity) this
    = match layers this !! layerId with
      | Some _ => run (updateLayer layerId (patch_opacity opacity)) this
      | None => (this, Ok tt)
      end ∧
  run (BaseMapProvider.setLayerVisibility layers updateLayer layerId visible) this
    = match layers this !! layerId with
      | Some _ => run (updateLayer layerId (patch_visible visible)) this
      | None => (this, Ok tt)
      end ∧
  (is_Some (registry !! layerId) →
   below_0_or_above_1 opacity →
   run (LayerManager.updateLayer layerId (patch_opacity opacity)) registry
     = (registry, Throw OpacityOutOfRange)) ∧
  kind OpacityOutOfRange = ValidationError ∧
  (is_Some (GoogleMapsProvider.layers google !! layerId) →
   is_Some (GoogleMapsProvider.layerManager google) →
   run (GoogleMapsProvider.setLayerOpacity layerId opacity) google
     = run (GoogleMapsProvider.updateLayer layerId (patch_opacity opacity)) google ∧
   outcome (GoogleMapsProvider.setLayerOpacity layerId opacity) google = Ok tt ∧
   LayerConfig.opacity <$>
     GoogleMapsProvider.layers
       (state_after (GoogleMapsProvider.setLayerOpacity layerId opacity) google)
       !! layerId
     = Some (Some opacity)).
Proof.
  split; [| split; [| split; [| split]]].
  - unfold BaseMapProvider.setLayerOpacity. rewrite run_bind. cbn [run read].
    by destruct (layers this !! layerId).
  - unfold BaseMapProvider.setLayerVisibility. rewrite run_bind. cbn [run read].
    by destruct (layers this !! layerId).
  - intros Hreg Ho. by apply run_updateLayer_bad_opacity.
  - reflexivity.
  - intros [gl Hgl] Hgm.
    destruct (google_updateLayer_stores layerId (patch_opacity opacity) google gl
                Hgl Hgm) as [Hout Hst].
    assert (run (GoogleMapsProvider.setLayerOpacity layerId opacity) google
            = run (GoogleMapsProvider.updateLayer layerId (patch_opacity opacity))
                google) as Hsugar.
    { unfold GoogleMapsProvider.setLayerOpacity, BaseMapProvider.setLayerOpacity.
      rewrite run_bind. cbn [run read]. by rewrite Hgl. }
    split; [exact Hsugar |]. unfold outcome, state_after in *. rewrite Hsugar.
    split; [exact Hout |]. by rewrite Hst.
Qed.

Lemma C5_setLayerOpacity_is_updateLayer_witness :
  run (LayerManager.updateLayer "a" (patch_opacity 1.5%float)) Demo.registry
    = (Demo.registry, Throw OpacityOutOfRange) ∧
  run (GoogleMapsProvider.setLayerOpacity "a" 1.5%float) Demo.google
    = run (GoogleMapsProvider.updateLayer "a" (patch_opacity 1.5%float)) Demo.google ∧
  LayerConfig.opacity <$>
    GoogleMapsProvider.layers
      (state_after (GoogleMapsProvider.setLayerOpacity "a" 1.5%float) Demo.google)
      !! "a"
    = Some (Some 1.5%float).
Proof.
  destruct (C5_setLayerOpacity_is_updateLayer GoogleMapsProvider.layers
              GoogleMapsProvider.updateLayer Demo.google Demo.registry Demo.google
              "a" false 1.5%float)
    as (_ & _ & Hreject & _ & Hgoogle).
  destruct Hgoogle as (Hsugar & _ & Hstored).
  - eexists. vm_compute. reflexivity.
  - eexists. reflexivity.
  - split; [| split; [exact Hsugar | exact Hstored]].
    apply Hreject; [eexists; vm_compute; reflexivity | right; reflexivity].
Defined.

(** [BaseLayer.setOpacity] compares, and a comparison with NaN is
    false: NaN is stored. *)
Lemma setOpacity_accepts_nan (this : ILayer.t) :
  LayerConfig.opacity
    (ILayer.config (state_after (BaseLayer.setOpacity PrimFloat.nan) this))
    = Some PrimFloat.nan.
Proof. reflexivity. Qed.

(** *** The facade *)

Lemma ensureInitialized_throws {P : Type} (this : UniversalMap.t P) :
  not_initialized this →
  run UniversalMap.ensureInitialized this
    = (this, Throw (MapError NOT_INITIALIZED None)).
Proof.
  unfold UniversalMap.ensureInitialized. rewrite run_bind. cbn [run read].
  intros [-> | ->]; [done |]. by rewrite orb_true_r.
Qed.

Lemma guarded_call_throws {P A : Type} (m : ST (UniversalMap.t P) A)
    (this : UniversalMap.t P) :
  not_initialized this →
  run (UniversalMap.ensureInitialized;; m) this
    = (this, Throw (MapError NOT_INITIALIZED None)).
Proof.
  intros H. rewrite run_bind. by rewrite (ensureInitialized_throws this H).
Qed.

(* --------------------------------------------------------------------- *)
(** *** C8 *)

(** C8, the claim as stated fails: on the facade as its constructor
    leaves it, [resize()] returns normally and changes nothing; and with
    the [createProvider] of the source [initialize()] can only throw. *)
Lemma C8_resize_before_initialize :
  @UniversalMap.new GoogleMapsProvider.t Demo.map_config = Ok Demo.fresh_map ∧
  not_initialized Demo.fresh_map ∧
  run (@UniversalMap.resize _ Demo.google_provider) Demo.fresh_map
    = (Demo.fresh_map, Ok tt) ∧
  run (@UniversalMap.initialize _ Demo.google_provider UniversalMap.createProvider_stub)
      Demo.fresh_map
    = (Demo.fresh_map,
       Throw (MapError INIT_ERROR (Some (MapError PROVIDER_NOT_FOUND None)))).
Proof.
  split; [reflexivity |]. split; [by left |]. split; reflexivity.
Qed.

(** C8, amended.  On a facade that is not initialized every call that
    touches the map or its layers, [resize] apart, throws the
    not-initialized error and leaves the facade as it was; [resize]
    does not look at the flag: without a provider it returns normally
    and does nothing.  On a facade that is initialized, [initialize]
    writes a warning and returns; nothing else changes. *)
Theorem C8_facade_guard {P : Type} `{!IMapProvider.t P}
    (createProvider : option string → result P)
    (this that : UniversalMap.t P) (op : FacadeOp.t) :
  not_initialized this →
  UniversalMap.initialized that = true →
  (FacadeOp.is_resize op = false →
     run (FacadeOp.perform op) this = (this, Throw (MapError NOT_INITIALIZED None))) ∧
  kind (MapError NOT_INITIALIZED None) = NotInitializedError ∧
  (UniversalMap.provider this = None →
     run UniversalMap.resize this = (this, Ok tt)) ∧
  run (UniversalMap.initialize createProvider) that
    = (UniversalMap.mk (UniversalMap.provider that) (UniversalMap.config that)
         (UniversalMap.eventEmitter that) true
         (UniversalMap.console that ++ ["Map is already initialized"]),
       Ok tt).
Proof.
  intros Hthis Hthat. split; [| split; [done | split]].
  - intros Hop.
    destruct op; try discriminate Hop; cbn [FacadeOp.perform];
      unfold UniversalMap.getViewState, UniversalMap.setCenter, UniversalMap.setZoom,
        UniversalMap.setViewState, UniversalMap.getBounds, UniversalMap.fitBounds,
        UniversalMap.addLayer, UniversalMap.removeLayer, UniversalMap.updateLayer,
        UniversalMap.getLayer, UniversalMap.getLayers,
        UniversalMap.setLayerVisibility, UniversalMap.setLayerOpacity,
        UniversalMap.getMapInstance;
      first [ by rewrite (guarded_call_throws _ this Hthis)
            | rewrite run_bind; by rewrite (guarded_call_throws _ this Hthis) ].
  - intros Hp. unfold UniversalMap.resize. rewrite run_bind. cbn [run read].
    rewrite Hp. reflexivity.
  - unfold UniversalMap.initialize, UniversalMap.warn. rewrite run_bind.
    cbn [run read]. rewrite Hthat. cbn. by rewrite Hthat.
Qed.

Lemma C8_facade_guard_witness :
  run (@FacadeOp.perform _ Demo.google_provider FacadeOp.GetViewState) Demo.fresh_map
    = (Demo.fresh_map, Throw (MapError NOT_INITIALIZED None)) ∧
  outcome (@UniversalMap.initialize _ Demo.google_provider
             UniversalMap.createProvider_stub) Demo.live_map
    = Ok tt ∧
  UniversalMap.console
    (state_after (@UniversalMap.initialize _ Demo.google_provider
                    UniversalMap.createProvider_stub) Demo.live_map)
    = ["Map is already initialized"].
Proof.
  destruct (@C8_facade_guard _ Demo.google_provider UniversalMap.createProvider_stub
              Demo.fresh_map Demo.live_map FacadeOp.GetViewState)
    as (Hguard & _ & _ & Hinit).
  - by left.
  - reflexivity.
  - split; [by apply Hguard |]. unfold outcome, state_after. rewrite Hinit.
    split; reflexivity.
Defined.

(* ===================================================================== *)
(** * Further properties of the code *)
(* ===================================================================== *)

(** ** core/layer.ts *)

Lemma truthy_str_Some (s : option string) :
  JS.truthy_str s = true → ∃ x, s = Some x ∧ x ≠ "".
Proof.
  destruct s as [x|]; [| done]. cbn. intros H. exists x. split; [done |].
  intros ->. done.
Qed.

Lemma run_addLayer_complete (config : LayerConfig.t) (id type : string)
    (layers : gmap string ILayer.t) :
  LayerConfig.id config = Some id →
  LayerConfig.type config = Some type →
  complete config = true →
  layers !! id = None →
  run (LayerManager.addLayer config) layers
    = (<[id := ILayer.mk id type config]> layers, Ok (ILayer.mk id type config)).
Proof.
  intros Hid Hty Hc Hfree.
  destruct (run_addLayer config layers) as [[e He] | (id' & ty' & Hid' & Hty' & _ & ->)].
  - exfalso. revert He. unfold LayerManager.addLayer. rewrite run_bind. cbn [run read].
    rewrite Hid. cbn [LayerManager.has]. rewrite Hfree.
    rewrite bool_decide_eq_false_2 by (intros [? ?]; done).
    unfold LayerFactory.createLayer, BaseLayer.new, BaseLayer.validateConfig.
    unfold complete in Hc. apply andb_prop in Hc as [Hc Hs].
    apply andb_prop in Hc as [Hi Ht]. rewrite Hi, Ht, Hs. cbn. by rewrite Hid.
  - congruence.
Qed.

(** X1.  [removeLayer] never throws.  It takes the entry of its id out
    of the registry and touches no other; for an id that is not there it
    changes nothing, and the count of layers goes down by one exactly
    when the id was there. *)
Theorem X1_removeLayer_effect (layers : gmap string ILayer.t) (layerId : string) :
  outcome (LayerManager.removeLayer layerId) layers = Ok tt ∧
  LayerManager.hasLayer layerId
    (state_after (LayerManager.removeLayer layerId) layers) = false ∧
  (∀ k, k ≠ layerId →
     LayerManager.getLayer k (state_after (LayerManager.removeLayer layerId) layers)
       = LayerManager.getLayer k layers) ∧
  (if LayerManager.hasLayer layerId layers
   then S (LayerManager.getLayerCount
             (state_after (LayerManager.removeLayer layerId) layers))
        = LayerManager.getLayerCount layers
   else state_after (LayerManager.removeLayer layerId) layers = layers).
Proof.
  unfold outcome, state_after, LayerManager.hasLayer, LayerManager.getLayer,
    LayerManager.getLayerCount.
  rewrite run_removeLayer. cbn [fst snd].
  split; [done |]. split.
  { apply bool_decide_eq_false_2. rewrite lookup_delete_eq. by intros [? ?]. }
  split.
  { intros k Hk. by rewrite lookup_delete_ne. }
  destruct (layers !! layerId) as [l|] eqn:Hl.
  - rewrite bool_decide_eq_true_2 by by eexists.
    rewrite (map_size_delete_Some layerId layers) by by eexists.
    assert (size layers ≠ 0); [| lia].
    intros Hz. apply map_size_empty_inv in Hz. subst layers.
    by rewrite lookup_empty in Hl.
  - rewrite bool_decide_eq_false_2 by (intros [? ?]; done).
    by apply delete_id.
Qed.

(** X2.  [addLayer] with a descriptor whose id, type and source are
    truthy and whose id is free returns a layer of that id and type
    holding the descriptor as it came, whatever its opacity, style or
    visibility: nothing but the three fields is looked at.  The layer
    is then found under the id, the count is one more, and every other
    entry is as it was. *)
Theorem X2_addLayer_stores_descriptor (layers : gmap string ILayer.t)
    (config : LayerConfig.t) (id type : string) :
  LayerConfig.id config = Some id →
  LayerConfig.type config = Some type →
  complete config = true →
  LayerManager.hasLayer id layers = false →
  outcome (LayerManager.addLayer config) layers = Ok (ILayer.mk id type config) ∧
  LayerManager.getLayer id (state_after (LayerManager.addLayer config) layers)
    = Some (ILayer.mk id type config) ∧
  LayerManager.hasLayer id (state_after (LayerManager.addLayer config) layers)
    = true ∧
  LayerManager.getLayerCount (state_after (LayerManager.addLayer config) layers)
    = S (LayerManager.getLayerCount layers) ∧
  (∀ k, k ≠ id →
     LayerManager.getLayer k (state_after (LayerManager.addLayer config) layers)
       = LayerManager.getLayer k layers).
Proof.
  intros Hid Hty Hc Hfree.
  assert (layers !! id = None) as Hnone.
  { unfold LayerManager.hasLayer in Hfree. apply bool_decide_eq_false in Hfree.
    by apply eq_None_not_Some. }
  unfold outcome, state_after, LayerManager.hasLayer, LayerManager.getLayer,
    LayerManager.getLayerCount.
  rewrite (run_addLayer_complete config id type layers Hid Hty Hc Hnone).
  cbn [fst snd]. split; [done |]. split; [by rewrite lookup_insert_eq |].
  split.
  { apply bool_decide_eq_true_2. rewrite lookup_insert_eq. by eexists. }
  split; [by apply map_size_insert_None |].
  intros k Hk. by rewrite lookup_insert_ne.
Qed.

Lemma X2_addLayer_stores_descriptor_witness :
  outcome (LayerManager.addLayer (with_opacity (Some 5%float) Demo.layer_a)) ∅
    = Ok (ILayer.mk "a" "geojson" (with_opacity (Some 5%float) Demo.layer_a)) ∧
  LayerManager.getLayerCount
    (state_after (LayerManager.addLayer (with_opacity (Some 5%float) Demo.layer_a)) ∅)
    = 1.
Proof.
  destruct (X2_addLayer_stores_descriptor ∅
              (with_opacity (Some 5%float) Demo.layer_a) "a" "geojson")
    as (Hout & _ & _ & Hcount & _); try reflexivity.
  split; [exact Hout | exact Hcount].
Defined.

(** X3.  The constructor of a layer and [validateLayerConfig] make the
    same checks in the same order: the id first, then the type, then
    the source, each failing on a value that is missing or an empty
    string.  A layer is built exactly when all three are truthy, and
    then it has the id and the type of the descriptor and holds the
    descriptor itself. *)
Theorem X3_layer_validation (config : LayerConfig.t) :
  LayerFactory.validateLayerConfig config
    = match LayerFactory.createLayer config with
      | Ok _ => Ok tt
      | Throw e => Throw e
      end ∧
  match LayerFactory.createLayer config with
  | Ok layer =>
      complete config = true ∧
      LayerConfig.id config = Some (ILayer.id layer) ∧
      LayerConfig.type config = Some (ILayer.type layer) ∧
      ILayer.config layer = config ∧
      ILayer.id layer ≠ "" ∧ ILayer.type layer ≠ ""
  | Throw e =>
      complete config = false ∧
      e = (if negb (JS.truthy_str (LayerConfig.id config)) then LayerIdRequired
           else if negb (JS.truthy_str (LayerConfig.type config))
                then LayerTypeRequired
                else LayerSourceRequired)
  end.
Proof.
  unfold LayerFactory.validateLayerConfig, LayerFactory.createLayer, BaseLayer.new,
    BaseLayer.validateConfig, complete.
  destruct (JS.truthy_str (LayerConfig.id config)) eqn:Hi; cbn; [| done].
  destruct (JS.truthy_str (LayerConfig.type config)) eqn:Ht; cbn; [| done].
  destruct (truthy_source (LayerConfig.source config)) eqn:Hs; cbn; [| done].
  destruct (truthy_str_Some _ Hi) as (i & -> & Hine).
  destruct (truthy_str_Some _ Ht) as (t & -> & Htne).
  repeat split; done.
Qed.

(** What [updateLayer] does to the layer it has found, in full. *)
Lemma run_apply_updates_exact (updates : Partial.t) (layer : ILayer.t) :
  run (LayerManager.apply_updates updates) layer =
  if opacity_rejected updates
  then (state_after (style_and_visible updates) layer, Throw OpacityOutOfRange)
  else (ILayer.with_config (spread_config (ILayer.config layer) updates) layer,
        Ok tt).
Proof.
  unfold opacity_rejected.
  split_patch updates; split_layer layer;
    cbn [Partial.read Partial.opacity];
    try (unfold LayerManager.apply_updates; cbn;
         try destruct (negb (String.eqb src "")); reflexivity);
    destruct (PrimFloat.ltb op 0 || PrimFloat.ltb 1 op) eqn:Hop;
    unfold LayerManager.apply_updates, state_after, style_and_visible,
      BaseLayer.setOpacity; cbn; rewrite Hop; cbn;
    try destruct (negb (String.eqb src "")); reflexivity.
Qed.

(** X4.  On a layer that is there, [updateLayer] fails exactly when the
    patch has an opacity below 0 or above 1.  When it does not fail,
    the new descriptor is the shallow merge [{...old, ...patch}] and
    nothing else: every key of the patch, [style] included and also a
    key whose value is [undefined], replaces the stored value, and every
    other field keeps it.  No other layer changes. *)
Theorem X4_updateLayer_is_a_shallow_merge (layers : gmap string ILayer.t)
    (layerId : string) (updates : Partial.t) (layer : ILayer.t) :
  layers !! layerId = Some layer →
  run (LayerManager.updateLayer layerId updates) layers =
  if opacity_rejected updates
  then (<[layerId := state_after (style_and_visible updates) layer]> layers,
        Throw OpacityOutOfRange)
  else (<[layerId := ILayer.with_config
                       (spread_config (ILayer.config layer) updates) layer]> layers,
        Ok tt).
Proof.
  intros Hl. rewrite (run_updateLayer_present _ _ _ _ Hl).
  rewrite run_apply_updates_exact. by destruct (opacity_rejected updates).
Qed.

Lemma X4_updateLayer_is_a_shallow_merge_witness :
  run (LayerManager.updateLayer "a" Partial.empty) Demo.registry
    = (Demo.registry, Ok tt) ∧
  (LayerConfig.id ∘ ILayer.config) <$>
    state_after (LayerManager.updateLayer "a" Demo.id_patch) Demo.registry !! "a"
    = Some (Some "b").
Proof.
  split.
  - rewrite (X4_updateLayer_is_a_shallow_merge Demo.registry "a" Partial.empty
               (ILayer.mk "a" "geojson" Demo.layer_a)); [| vm_compute; reflexivity].
    vm_compute. reflexivity.
  - unfold state_after.
    rewrite (X4_updateLayer_is_a_shallow_merge Demo.registry "a" Demo.id_patch
               (ILayer.mk "a" "geojson" Demo.layer_a)); [| vm_compute; reflexivity].
    vm_compute. reflexivity.
Defined.

(** X5.  Adding a layer under a free id and removing it again gives
    back the registry as it was; and an id that has been removed is free
    again: the descriptor can be added once more. *)
Theorem X5_add_then_remove (layers : gmap string ILayer.t)
    (config : LayerConfig.t) (id type : string) :
  LayerConfig.id config = Some id →
  LayerConfig.type config = Some type →
  complete config = true →
  LayerManager.hasLayer id layers = false →
  state_after (LayerManager.removeLayer id)
    (state_after (LayerManager.addLayer config) layers) = layers ∧
  outcome (LayerManager.addLayer config)
    (state_after (LayerManager.removeLayer id)
       (state_after (LayerManager.addLayer config) layers))
    = Ok (ILayer.mk id type config).
Proof.
  intros Hid Hty Hc Hfree.
  assert (layers !! id = None) as Hnone.
  { unfold LayerManager.hasLayer in Hfree. apply bool_decide_eq_false in Hfree.
    by apply eq_None_not_Some. }
  assert (state_after (LayerManager.removeLayer id)
            (state_after (LayerManager.addLayer config) layers) = layers) as Hback.
  { unfold state_after.
    rewrite (run_addLayer_complete config id type layers Hid Hty Hc Hnone).
    rewrite run_removeLayer. cbn [fst]. by apply delete_insert_id. }
  split; [exact Hback |]. rewrite Hback. unfold outcome.
  by rewrite (run_addLayer_complete config id type layers Hid Hty Hc Hnone).
Qed.

Lemma X5_add_then_remove_witness :
  state_after (LayerManager.removeLayer "a")
    (state_after (LayerManager.addLayer Demo.layer_a) ∅) = ∅.
Proof.
  destruct (X5_add_then_remove ∅ Demo.layer_a "a" "geojson") as [Hback _];
    [reflexivity | reflexivity | reflexivity | reflexivity | exact Hback].
Defined.

(** X6.  The queries of the manager agree: [getAllLayers] has
    [getLayerCount] elements, and they are the layers [getLayer] finds
    under some id; [hasLayer] holds of an id exactly when [getLayer]
    finds a layer under it. *)
Theorem X6_queries_agree (layers : gmap string ILayer.t) :
  length (LayerManager.getAllLayers layers) = LayerManager.getLayerCount layers ∧
  (∀ layer, layer ∈ LayerManager.getAllLayers layers ↔
            ∃ k, LayerManager.getLayer k layers = Some layer) ∧
  (∀ k, LayerManager.hasLayer k layers = true ↔
        is_Some (LayerManager.getLayer k layers)).
Proof.
  unfold LayerManager.getAllLayers, LayerManager.getLayerCount,
    LayerManager.getLayer, LayerManager.hasLayer.
  split; [| split].
  - rewrite length_fmap. apply length_map_to_list.
  - intros layer. rewrite list_elem_of_fmap. split.
    + intros ([k l] & -> & Hin). exists k. by apply elem_of_map_to_list.
    + intros [k Hk]. exists (k, layer). split; [done |].
      by apply elem_of_map_to_list.
  - intros k. apply bool_decide_eq_true.
Qed.

(** X7.  [setStyle] merges key by key: a key of the patch takes the
    value of the patch, every other key keeps its value.  Two calls in
    a row are one call with the merge of the two patches, the later one
    winning; a layer without a style gets the patch as its style. *)
Theorem X7_setStyle_merges (style style' : object) (this : ILayer.t) :
  (∀ k v, style !! k = Some v →
     default ∅ (LayerConfig.style
                  (ILayer.config (state_after (BaseLayer.setStyle style) this)))
       !! k = Some v) ∧
  (∀ k, style !! k = None →
     default ∅ (LayerConfig.style
                  (ILayer.config (state_after (BaseLayer.setStyle style) this)))
       !! k = default ∅ (LayerConfig.style (ILayer.config this)) !! k) ∧
  state_after (BaseLayer.setStyle style')
    (state_after (BaseLayer.setStyle style) this)
    = state_after (BaseLayer.setStyle (JS.spread style style')) this ∧
  (LayerConfig.style (ILayer.config this) = None →
     LayerConfig.style (ILayer.config (state_after (BaseLayer.setStyle style) this))
       = Some style) ∧
  outcome (BaseLayer.setStyle style) this = Ok tt.
Proof.
  destruct this as [lid lty c]. destruct c. unfold state_after, outcome. cbn.
  unfold JS.spread. repeat split.
  - intros k v Hk. by apply lookup_union_Some_l.
  - intros k Hk. by rewrite lookup_union_r.
  - by rewrite (assoc_L (∪)).
  - intros ->. cbn. by rewrite (right_id_L ∅ (∪)).
Qed.

(** ** core/data-source.ts *)

Lemma VStr_inj (a b : string) : JS.VStr a = JS.VStr b → a = b.
Proof.
  intros H.
  exact (f_equal (λ v, match v with JS.VStr x => x | _ => "" end) H).
Qed.

(** X8.  Every string is a source the factory accepts: normalized and
    handed to [createDataSource] it gives a mock source when it starts
    with [mock://] and a URL source otherwise, not loaded, with the
    string itself as the [data] of the one and the [url] of the
    other. *)
Theorem X8_strings_are_accepted (s : string) :
  DataSourceFactory.createDataSource
      (DataSourceFactory.normalizeSource (SrcString s))
    = Ok (IDataSource.mk
            (if JS.startsWith s "mock://" then MockDataSource else URLDataSource)
            (JS.VStr (if JS.startsWith s "mock://" then "mock" else "url"))
            (DataSourceFactory.normalizeSource (SrcString s))
            false JS.VNull) ∧
  JS.get (DataSourceFactory.normalizeSource (SrcString s))
         (if JS.startsWith s "mock://" then "data" else "url")
    = JS.VStr s.
Proof.
  rewrite normalizeSource_string.
  destruct (JS.startsWith s "mock://"); split; vm_compute; reflexivity.
Qed.

(** X9.  [normalizeSource] is idempotent: what it returns is a
    descriptor it hands back unchanged. *)
Theorem X9_normalizeSource_idempotent (source : SourceInput) :
  DataSourceFactory.normalizeSource
      (SrcObject (DataSourceFactory.normalizeSource source))
    = DataSourceFactory.normalizeSource source.
Proof.
  apply normalizeSource_tagged.
  destruct source as [s | o].
  - rewrite normalizeSource_string.
    destruct (JS.startsWith s "mock://"); vm_compute; reflexivity.
  - destruct (JS.truthy (JS.get o "type")) eqn:Ht.
    + by rewrite (normalizeSource_tagged o Ht).
    + rewrite (normalizeSource_untagged o Ht). vm_compute. reflexivity.
Qed.

(** X10.  [createDataSource] goes by the [type] of the descriptor
    alone.  It builds an object, of the class of the tag and not
    loaded, exactly for the five tags [geojson], [url], [tiles],
    [3d-tiles] and [mock]; for anything else, [custom] and a missing
    type included, it throws the unsupported-type error with the value
    found.  The type check of the constructors never fails behind the
    factory. *)
Theorem X10_factory_dispatch (config : object) :
  match DataSourceFactory.createDataSource config with
  | Ok source =>
      JS.get config "type" = JS.VStr (tag_of (IDataSource.cls source)) ∧
      source = IDataSource.mk (IDataSource.cls source) (JS.get config "type")
                 config false JS.VNull
  | Throw e =>
      e = UnsupportedDataSourceType (JS.get config "type") ∧
      ∀ c, JS.get config "type" ≠ JS.VStr (tag_of c)
  end.
Proof.
  unfold DataSourceFactory.createDataSource, BaseDataSource.new.
  destruct (JS.get config "type") as [| | | | s | |] eqn:Hty; cbn;
    try (split; [done |]; intros c Hc; discriminate Hc).
  repeat (match goal with
          | |- context [String.eqb ?a ?b] =>
              let H := fresh "H" in
              destruct (String.eqb a b) eqn:H; cbn;
              [apply String.eqb_eq in H; subst s; by split |]
          end).
  split; [done |]. intros c Hc. apply VStr_inj in Hc. subst s.
  destruct c; cbn in *; congruence.
Qed.

(** X11.  The two tile classes never call [fetch], and their [load()]
    is settled when it returns.  Without a URL it is rejected with the
    error of the class and the object is as before; with one it
    resolves to the URL itself and the object is loaded with the URL as
    its payload.  A 3D tileset URL that neither ends in [.json] nor
    contains [tileset] gets one warning and resolves all the same. *)
Theorem X11_tile_sources (this : IDataSource.t) (h : Host) (url : string) :
  IDataSource.cls this = TileDataSource
  ∨ IDataSource.cls this = ThreeDTilesDataSource →
  (JS.truthy (JS.get (IDataSource.config this) "url") = false →
     BaseDataSource.load_begin this h =
       (this, h,
        Rejected (match IDataSource.cls this with
                  | TileDataSource => TileURLRequired
                  | _ => TilesetURLRequired
                  end))) ∧
  (JS.get (IDataSource.config this) "url" = JS.VStr url → url ≠ "" →
     BaseDataSource.load_begin this h =
       (IDataSource.with_payload true (JS.VStr url) this,
        match IDataSource.cls this with
        | TileDataSource => h
        | _ =>
            if negb (JS.endsWith url ".json") && negb (JS.includes url "tileset")
            then do_warn "3D Tiles URL should typically point to a tileset.json file" h
            else h
        end,
        Resolved (JS.VStr url))) ∧
  fetched (BaseDataSource.load_begin this h).1.2 = fetched h.
Proof.
  intros Hc.
  assert (Hfalsy : ∀ s, JS.truthy (JS.VStr s) = false → s = "").
  { intros s. cbn. destruct (String.eqb_spec s ""); [done | discriminate]. }
  assert (Htruthy : ∀ s, s ≠ "" → JS.truthy (JS.VStr s) = true).
  { intros s Hs. cbn. by destruct (String.eqb_spec s ""). }
  unfold BaseDataSource.load_begin.
  destruct Hc as [-> | ->]; (split; [| split]).
  - by intros ->.
  - intros -> Hne. by rewrite (Htruthy url Hne).
  - by destruct (JS.truthy _).
  - intros Hf. destruct (JS.get (IDataSource.config this) "url"); cbn in Hf |- *;
      try done; by rewrite Hf.
  - intros -> Hne. by rewrite (Htruthy url Hne).
  - destruct (JS.get (IDataSource.config this) "url") as [| | | | s | |]; cbn;
      repeat (match goal with
              | |- context [if ?b then _ else _] => destruct b; cbn
              end); done.
Qed.

Lemma X11_tile_sources_witness :
  BaseDataSource.load_begin
    (IDataSource.mk ThreeDTilesDataSource (JS.VStr "3d-tiles")
       {[ "type" := JS.VStr "3d-tiles"; "url" := JS.VStr "https://x/city" ]}
       false JS.VNull)
    (mkHost [] [])
  = (IDataSource.mk ThreeDTilesDataSource (JS.VStr "3d-tiles")
       {[ "type" := JS.VStr "3d-tiles"; "url" := JS.VStr "https://x/city" ]}
       true (JS.VStr "https://x/city"),
     mkHost [] ["3D Tiles URL should typically point to a tileset.json file"],
     Resolved (JS.VStr "https://x/city")).
Proof.
  destruct (X11_tile_sources
              (IDataSource.mk ThreeDTilesDataSource (JS.VStr "3d-tiles")
                 {[ "type" := JS.VStr "3d-tiles"; "url" := JS.VStr "https://x/city" ]}
                 false JS.VNull)
              (mkHost [] []) "https://x/city") as (_ & Hload & _).
  - by right.
  - rewrite Hload; [reflexivity | reflexivity | discriminate].
Defined.

(** X12.  A mock source never calls [fetch] and its [load()] never
    fails: it resolves at once to the [data] of its descriptor, or to
    an empty feature collection when that is missing or falsy, and the
    object is loaded with that payload. *)
Theorem X12_mock_source (this : IDataSource.t) (h : Host) :
  IDataSource.cls this = MockDataSource →
  BaseDataSource.load_begin this h =
    (IDataSource.with_payload true
       (if JS.truthy (JS.get (IDataSource.config this) "data")
        then JS.get (IDataSource.config this) "data"
        else BaseDataSource.emptyFeatureCollection) this,
     h,
     Resolved (if JS.truthy (JS.get (IDataSource.config this) "data")
               then JS.get (IDataSource.config this) "data"
               else BaseDataSource.emptyFeatureCollection)) ∧
  JS.truthy (if JS.truthy (JS.get (IDataSource.config this) "data")
             then JS.get (IDataSource.config this) "data"
             else BaseDataSource.emptyFeatureCollection) = true.
Proof.
  intros Hc. unfold BaseDataSource.load_begin. rewrite Hc. split; [done |].
  by destruct (JS.truthy (JS.get (IDataSource.config this) "data")) eqn:Ht.
Qed.

Lemma X12_mock_source_witness :
  (BaseDataSource.load_begin
     (IDataSource.mk MockDataSource (JS.VStr "mock") {[ "type" := JS.VStr "mock" ]}
        false JS.VNull)
     (mkHost [] [])).2
  = Resolved BaseDataSource.emptyFeatureCollection.
Proof.
  destruct (X12_mock_source
              (IDataSource.mk MockDataSource (JS.VStr "mock")
                 {[ "type" := JS.VStr "mock" ]} false JS.VNull)
              (mkHost [] [])) as [Hload _].
  - reflexivity.
  - by rewrite Hload.
Defined.

(** X13.  For a source as the factory builds it that does not go to the
    network (inline GeoJSON, tiles, 3D tiles, mock, or one whose URL is
    missing), [load()], [destroy()] and [load()] again end as the first
    [load()] did: the same result, the same object, and no call of
    [fetch]. *)
Theorem X13_load_destroy_load (config : object) (source : IDataSource.t) (h : Host) :
  DataSourceFactory.createDataSource config = Ok source →
  ¬ remote source →
  (BaseDataSource.load_begin
     (BaseDataSource.destroy (BaseDataSource.load_begin source h).1.1)
     (BaseDataSource.load_begin source h).1.2).2
    = (BaseDataSource.load_begin source h).2 ∧
  (BaseDataSource.load_begin
     (BaseDataSource.destroy (BaseDataSource.load_begin source h).1.1)
     (BaseDataSource.load_begin source h).1.2).1.1
    = (BaseDataSource.load_begin source h).1.1 ∧
  fetched
    (BaseDataSource.load_begin
       (BaseDataSource.destroy (BaseDataSource.load_begin source h).1.1)
       (BaseDataSource.load_begin source h).1.2).1.2
    = fetched h.
Proof.
  intros Hnew Hlocal.
  destruct (createDataSource_fresh config source Hnew) as (Hl & Hd & Hc & _).
  destruct source as [c ty cfg l d]. cbn in Hl, Hd, Hc. subst l d cfg. revert Hlocal.
  unfold remote, BaseDataSource.load_begin, BaseDataSource.destroy,
    BaseDataSource.memoized.
  destruct c; cbn.
  - destruct (JS.get config "data") as [| | | | s | |] eqn:Hdata; cbn;
      intros Hlocal; try done;
      try (destruct Hlocal; by eexists);
      repeat (match goal with
              | |- context [if ?b then _ else _] => destruct b eqn:?; cbn
              end);
      rewrite ?Hdata; cbn;
      repeat (match goal with
              | H : ?b = _ |- context [if ?b then _ else _] => rewrite H; cbn
              end); done.
  - intros Hlocal. destruct (JS.truthy (JS.get config "url")) eqn:Hu; [done |].
    cbn. by rewrite Hu.
  - intros _. destruct (JS.truthy (JS.get config "url")) eqn:Hu; cbn; by rewrite Hu.
  - intros _. destruct (JS.get config "url") as [| | | | s | |] eqn:Hurl; cbn;
      repeat (match goal with
              | |- context [if ?b then _ else _] => destruct b eqn:?; cbn
              end);
      rewrite ?Hurl; cbn;
      repeat (match goal with
              | H : ?b = _ |- context [if ?b then _ else _] => rewrite H; cbn
              end); try done.
    all: try (repeat (match goal with
              | |- context [if ?b then _ else _] => destruct b eqn:?; cbn
              end); done).
  - intros _. done.
Qed.

Lemma X13_load_destroy_load_witness :
  (BaseDataSource.load_begin
     (BaseDataSource.destroy
        (BaseDataSource.load_begin
           (IDataSource.mk MockDataSource (JS.VStr "mock") Demo.mock_config
              false JS.VNull) (mkHost [] [])).1.1)
     (mkHost [] [])).2
  = Resolved (JS.VStr "mock://buildings-nyc").
Proof.
  destruct (X13_load_destroy_load Demo.mock_config
              (IDataSource.mk MockDataSource (JS.VStr "mock") Demo.mock_config
                 false JS.VNull) (mkHost [] [])) as (Hsame & _).
  - reflexivity.
  - intros H. exact H.
  - exact Hsame.
Defined.

(** X14.  A load of a remote source that is under way when [destroy()]
    is called is not stopped by it: when its response arrives, the
    payload is stored and the object is loaded again. *)
Theorem X14_destroy_does_not_cancel (this : IDataSource.t) (r : Response)
    (v : JS.value) :
  remote this →
  BaseDataSource.memoized this = false →
  ok r = true →
  json r = JsonResolves v →
  Runtime.exec (Runtime.start this)
    [Runtime.CallLoad; Runtime.CallDestroy;
     Runtime.FetchSettles 0 (FetchResolves r); Runtime.JsonSettles 0]
  = Runtime.mkSystem (IDataSource.with_payload true v this)
      (mkHost [remote_url this] []) [Resolved v].
Proof.
  intros Hr Hm Hok Hjson. unfold Runtime.exec, Runtime.start.
  cbn [foldl Runtime.step Runtime.this Runtime.host Runtime.calls].
  rewrite (load_begin_remote this _ Hr Hm).
  cbn [foldl Runtime.step Runtime.this Runtime.host Runtime.calls app lookup
       list_lookup BaseDataSource.load_fetched].
  rewrite Hok.
  cbn [negb foldl Runtime.step Runtime.this Runtime.host Runtime.calls insert
       list_insert lookup list_lookup BaseDataSource.load_parsed].
  rewrite Hjson. by destruct this.
Qed.

Lemma X14_destroy_does_not_cancel_witness :
  BaseDataSource.isLoaded
    (Runtime.this
       (Runtime.exec (Runtime.start Demo.url_source)
          [Runtime.CallLoad; Runtime.CallDestroy;
           Runtime.FetchSettles 0 (FetchResolves (Demo.success Demo.body_1));
           Runtime.JsonSettles 0]))
  = true.
Proof.
  rewrite (X14_destroy_does_not_cancel Demo.url_source (Demo.success Demo.body_1)
             Demo.body_1); [reflexivity | | reflexivity..].
  vm_compute. reflexivity.
Defined.

(** X15.  A load of a remote source that is not loaded calls [fetch]
    once; with a successful response whose body parses to a truthy
    value it resolves to that value, which the object then holds, and a
    [load()] made after that resolves to the same value without another
    fetch. *)
Theorem X15_load_then_load_again (this : IDataSource.t) (r : Response)
    (v : JS.value) :
  remote this →
  BaseDataSource.memoized this = false →
  ok r = true →
  json r = JsonResolves v →
  JS.truthy v = true →
  Runtime.exec (Runtime.start this)
    [Runtime.CallLoad; Runtime.FetchSettles 0 (FetchResolves r);
     Runtime.JsonSettles 0; Runtime.CallLoad]
  = Runtime.mkSystem (IDataSource.with_payload true v this)
      (mkHost [remote_url this] []) [Resolved v; Resolved v].
Proof.
  intros Hr Hm Hok Hjson Hv. unfold Runtime.exec, Runtime.start.
  cbn [foldl Runtime.step Runtime.this Runtime.host Runtime.calls].
  rewrite (load_begin_remote this _ Hr Hm).
  cbn [foldl Runtime.step Runtime.this Runtime.host Runtime.calls app lookup
       list_lookup BaseDataSource.load_fetched].
  rewrite Hok.
  cbn [negb foldl Runtime.step Runtime.this Runtime.host Runtime.calls insert
       list_insert lookup list_lookup BaseDataSource.load_parsed].
  rewrite Hjson.
  cbn [foldl Runtime.step Runtime.this Runtime.host Runtime.calls].
  rewrite load_begin_memoized.
  - done.
  - unfold remote in Hr. cbn. destruct (IDataSource.cls this); try done;
      [by right | by left].
  - unfold BaseDataSource.memoized. cbn. exact Hv.
Qed.

Lemma X15_load_then_load_again_witness :
  fetched
    (Runtime.host
       (Runtime.exec (Runtime.start Demo.url_source)
          [Runtime.CallLoad;
           Runtime.FetchSettles 0 (FetchResolves (Demo.success Demo.body_1));
           Runtime.JsonSettles 0; Runtime.CallLoad]))
  = [JS.VStr "https://x/data.json"].
Proof.
  rewrite (X15_load_then_load_again Demo.url_source (Demo.success Demo.body_1)
             Demo.body_1); [reflexivity | | reflexivity..].
  vm_compute. reflexivity.
Defined.

Lemma perform_references_sound (op : SourceOp.t) (m : DataSourceManager.t) :
  references_sound m → references_sound (SourceOp.perform op m).
Proof.
  intros [Hlt Hinj]. unfold references_sound.
  destruct op as [id config | id | | id]; cbn [SourceOp.perform].
  - unfold state_after. rewrite run_registerSource.
    destruct (DataSourceFactory.createDataSource config) as [source | e];
      [| by split].
    cbn [fst DataSourceManager.sources DataSourceManager.store]. split.
    + intros k r. rewrite length_app. cbn [length].
      destruct (decide (id = k)) as [<- | Hne].
      * rewrite lookup_insert_eq. intros [= <-]. lia.
      * rewrite lookup_insert_ne by done. intros Hk. specialize (Hlt _ _ Hk). lia.
    + intros k k' r.
      destruct (decide (id = k)) as [<- | Hne];
        destruct (decide (id = k')) as [<- | Hne']; try done.
      * rewrite lookup_insert_eq, lookup_insert_ne by done.
        intros [= <-] Hk'. specialize (Hlt _ _ Hk'). lia.
      * rewrite lookup_insert_eq, lookup_insert_ne by done.
        intros Hk [= <-]. specialize (Hlt _ _ Hk). lia.
      * rewrite !lookup_insert_ne by done. apply Hinj.
  - unfold state_after. rewrite run_removeSource.
    destruct (DataSourceManager.sources m !! id) as [r0|] eqn:Hid; [| by split].
    cbn [fst DataSourceManager.sources DataSourceManager.store]. split.
    + intros k r Hk. rewrite length_alter.
      apply lookup_delete_Some in Hk as [_ Hk]. by eapply Hlt.
    + intros k k' r Hk Hk'.
      apply lookup_delete_Some in Hk as [_ Hk].
      apply lookup_delete_Some in Hk' as [_ Hk']. by eapply Hinj.
  - unfold state_after, DataSourceManager.clear. rewrite !run_bind. cbn.
    split; intros k; intros; by rewrite lookup_empty in *.
  - unfold DataSourceManager.loadSource.
    destruct (DataSourceManager.sources m !! id) as [r0|] eqn:Hid; [| by split].
    destruct (DataSourceManager.store m !! r0) as [source|] eqn:Hr; [| by split].
    destruct (BaseDataSource.load_begin source (mkHost [] [])) as [[source' h'] t].
    cbn [fst DataSourceManager.sources DataSourceManager.store]. split.
    + intros k r Hk. rewrite length_insert. by eapply Hlt.
    + exact Hinj.
Qed.

(** X16.  In every state of a data-source manager each registered id
    refers to an object that exists, and no two ids refer to the same
    object: every [registerSource] makes an object of its own, and
    nothing the manager does hands an object to a second entry. *)
Theorem X16_references_are_sound (history : list SourceOp.t) :
  references_sound (SourceOp.perform_all history DataSourceManager.empty) ∧
  (∀ id r,
     DataSourceManager.getSource id
       (SourceOp.perform_all history DataSourceManager.empty) = Some r →
     is_Some (DataSourceManager.deref r
                (SourceOp.perform_all history DataSourceManager.empty))).
Proof.
  assert (references_sound (SourceOp.perform_all history DataSourceManager.empty))
    as Hsound.
  { unfold SourceOp.perform_all.
    assert (references_sound DataSourceManager.empty) as H0.
    { split; cbn; [intros k r Hk | intros k k' r Hk _];
        by rewrite lookup_empty in Hk. }
    revert H0. generalize DataSourceManager.empty.
    induction history as [| op ops IH]; intros m Hm; [done |].
    cbn [foldl]. apply IH. by apply perform_references_sound. }
  split; [exact Hsound |].
  intros id r Hr. apply lookup_lt_is_Some. by eapply (proj1 Hsound).
Qed.

(** X17.  [removeSource] never throws and is idempotent; for an id that
    is not registered it does nothing, calls no [destroy()], and
    [loadSource] for such an id is rejected with the not-found error
    without touching the manager or the network. *)
Theorem X17_unregistered_ids (m : DataSourceManager.t) (id : string) (h : Host) :
  outcome (DataSourceManager.removeSource id) m = Ok tt ∧
  state_after (DataSourceManager.removeSource id)
    (state_after (DataSourceManager.removeSource id) m)
    = state_after (DataSourceManager.removeSource id) m ∧
  (DataSourceManager.getSource id m = None →
     state_after (DataSourceManager.removeSource id) m = m ∧
     DataSourceManager.loadSource id m h
       = (m, h, Rejected (DataSourceNotFound id))) ∧
  kind (DataSourceNotFound id) = NotFoundError.
Proof.
  unfold outcome, state_after, DataSourceManager.getSource.
  rewrite !run_removeSource.
  destruct (DataSourceManager.sources m !! id) as [r|] eqn:Hid.
  - cbn [fst snd DataSourceManager.sources]. rewrite lookup_delete_eq.
    repeat split; done.
  - cbn [fst snd]. rewrite ?Hid. repeat split; try done.
    unfold DataSourceManager.loadSource. by rewrite Hid.
Qed.

(** *** The event emitter *)

Lemma filter_all {A} (P : A → Prop) `{!∀ x, Decision (P x)} (l : list A) :
  (∀ x, x ∈ l → P x) → filter P l = l.
Proof.
  induction l as [| a l IH]; intros Hall; [done |].
  rewrite filter_cons_True by (apply Hall; left).
  f_equal. apply IH. intros x Hx. apply Hall. by right.
Qed.

Lemma filter_ext_in {A} (P Q : A → Prop)
    `{!∀ x, Decision (P x), !∀ x, Decision (Q x)} (l : list A) :
  (∀ x, x ∈ l → P x ↔ Q x) → filter P l = filter Q l.
Proof.
  induction l as [| a l IH]; intros Hall; [done |].
  assert (filter P l = filter Q l) as IH'.
  { apply IH. intros x Hx. apply Hall. by right. }
  assert (P a ↔ Q a) as Hiff by (apply Hall; left).
  destruct (decide (P a)) as [Ha | Ha].
  - rewrite (filter_cons_True P) by done.
    rewrite (filter_cons_True Q) by (by apply Hiff). by f_equal.
  - rewrite (filter_cons_False P) by done.
    rewrite (filter_cons_False Q) by (intros Hq; by apply Ha, Hiff). done.
Qed.

Lemma elem_of_set_add (h : Handler) (hs : list Handler) :
  h ∈ EventEmitter.set_add h hs.
Proof.
  unfold EventEmitter.set_add. case_bool_decide; [done |].
  apply elem_of_app. right. by apply list_elem_of_singleton.
Qed.

Lemma set_add_fresh (h : Handler) (hs : list Handler) :
  h ∉ hs → EventEmitter.set_add h hs = (hs ++ [h])%list.
Proof. intros H. unfold EventEmitter.set_add. by case_bool_decide. Qed.

Lemma set_delete_fresh (h : Handler) (hs : list Handler) :
  h ∉ hs → EventEmitter.set_delete h hs = hs.
Proof.
  intros H. unfold EventEmitter.set_delete. apply filter_all.
  intros x Hx ->. by apply H.
Qed.

Lemma handlers_of_on (e : string) (h : Handler) (em : EventEmitter.t) :
  handlers_of e (EventEmitter.on e h em)
  = EventEmitter.set_add h (handlers_of e em).
Proof.
  unfold handlers_of, EventEmitter.on. cbn [EventEmitter.listeners].
  by rewrite lookup_insert_eq.
Qed.

Lemma handlers_of_off (e : string) (h : Handler) (em : EventEmitter.t) :
  handlers_of e (EventEmitter.off e h em)
  = EventEmitter.set_delete h (handlers_of e em).
Proof.
  unfold handlers_of, EventEmitter.off.
  destruct (EventEmitter.listeners em !! e) as [hs |] eqn:He.
  - cbn [EventEmitter.listeners default].
    destruct (EventEmitter.set_delete h hs) as [| x l] eqn:Hd.
    + by rewrite lookup_delete_eq.
    + by rewrite lookup_insert_eq.
  - by rewrite He.
Qed.

Lemma listeners_off_ne (e e' : string) (h : Handler) (em : EventEmitter.t) :
  e ≠ e' →
  EventEmitter.listeners (EventEmitter.off e h em) !! e'
  = EventEmitter.listeners em !! e'.
Proof.
  intros Hne. unfold EventEmitter.off.
  destruct (EventEmitter.listeners em !! e) as [hs |]; [| done].
  cbn [EventEmitter.listeners].
  destruct (EventEmitter.set_delete h hs);
    [by rewrite lookup_delete_ne | by rewrite lookup_insert_ne].
Qed.

Lemma off_keeps (e : string) (h : Handler) (em : EventEmitter.t) :
  EventEmitter.closures (EventEmitter.off e h em) = EventEmitter.closures em ∧
  EventEmitter.delivered (EventEmitter.off e h em) = EventEmitter.delivered em.
Proof.
  unfold EventEmitter.off. by destruct (EventEmitter.listeners em !! e).
Qed.

Lemma call_effect (e : string) (em : EventEmitter.t) (h : Handler) :
  EventEmitter.delivered (EventEmitter.call e em h)
    = (EventEmitter.delivered em ++ [(h, e)])%list ∧
  EventEmitter.closures (EventEmitter.call e em h) = EventEmitter.closures em ∧
  handlers_of e (EventEmitter.call e em h)
    = (if is_once h then EventEmitter.set_delete h (handlers_of e em)
       else handlers_of e em) ∧
  (∀ e', e ≠ e' →
     EventEmitter.listeners (EventEmitter.call e em h) !! e'
     = EventEmitter.listeners em !! e').
Proof.
  unfold EventEmitter.call. destruct h as [n | c n | t]; cbn [is_once];
    try by repeat split.
  set (em' := EventEmitter.mk _ _ _).
  destruct (off_keeps e (OnceHandler c n) em') as [Hc Hd].
  rewrite Hc, Hd, handlers_of_off. repeat split; try done.
  intros e' Hne. by rewrite listeners_off_ne.
Qed.

Lemma foldl_call (e : string) (hs : list Handler) (em : EventEmitter.t) :
  EventEmitter.delivered (foldl (EventEmitter.call e) em hs)
    = (EventEmitter.delivered em ++ ((λ h, (h, e)) <$> hs))%list ∧
  EventEmitter.closures (foldl (EventEmitter.call e) em hs)
    = EventEmitter.closures em ∧
  handlers_of e (foldl (EventEmitter.call e) em hs)
    = filter (λ h', ¬ (is_once h' = true ∧ h' ∈ hs)) (handlers_of e em) ∧
  (∀ e', e ≠ e' →
     EventEmitter.listeners (foldl (EventEmitter.call e) em hs) !! e'
     = EventEmitter.listeners em !! e').
Proof.
  revert em. induction hs as [| h hs IH]; intros em.
  - cbn [foldl fmap list_fmap]. rewrite app_nil_r. repeat split; try done.
    symmetry. apply filter_all. intros x _ [_ Hin]. by apply elem_of_nil in Hin.
  - cbn [foldl]. destruct (IH (EventEmitter.call e em h)) as (Hd & Hc & Hh & Ho).
    destruct (call_effect e em h) as (Hd1 & Hc1 & Hh1 & Ho1).
    rewrite Hd, Hc, Hh, Hd1, Hc1, Hh1. repeat split.
    + by rewrite fmap_cons, <- app_assoc.
    + destruct (is_once h) eqn:Honce.
      * unfold EventEmitter.set_delete. rewrite list_filter_filter.
        apply list_filter_iff. intros x. split.
        -- intros [H1 H2] [Hx Hin]. apply elem_of_cons in Hin as [-> | Hin];
             [done | by apply H1].
        -- intros H. split.
           ++ intros [Hx Hin]. apply H. split; [done | by right].
           ++ intros ->. apply H. split; [done | by left].
      * apply list_filter_iff. intros x. split.
        -- intros H [Hx Hin]. apply elem_of_cons in Hin as [-> | Hin];
             [congruence | by apply H].
        -- intros H [Hx Hin]. apply H. split; [done | by right].
    + intros e' Hne. by rewrite Ho, Ho1.
Qed.

Lemma emit_effect (e : string) (em : EventEmitter.t) :
  EventEmitter.delivered (EventEmitter.emit e em)
    = (EventEmitter.delivered em ++ ((λ h, (h, e)) <$> handlers_of e em))%list ∧
  EventEmitter.closures (EventEmitter.emit e em) = EventEmitter.closures em ∧
  handlers_of e (EventEmitter.emit e em)
    = filter (λ h, is_once h = false) (handlers_of e em) ∧
  (∀ e', e ≠ e' →
     EventEmitter.listeners (EventEmitter.emit e em) !! e'
     = EventEmitter.listeners em !! e').
Proof.
  unfold EventEmitter.emit.
  destruct (EventEmitter.listeners em !! e) as [hs |] eqn:He.
  - destruct (foldl_call e hs em) as (Hd & Hc & Hh & Ho).
    assert (handlers_of e em = hs) as Hhs by (unfold handlers_of; by rewrite He).
    rewrite Hd, Hc, Hh, Hhs. repeat split; try done.
    apply filter_ext_in. intros x Hx. split.
    + intros H. destruct (is_once x); [| done]. exfalso. by apply H.
    + intros H [Hx' _]. congruence.
  - assert (handlers_of e em = []) as -> by (unfold handlers_of; by rewrite He).
    cbn [fmap list_fmap]. rewrite app_nil_r. by repeat split.
Qed.

Lemma handlers_of_tidy (e : string) (em : EventEmitter.t) :
  tidy em →
  NoDup (handlers_of e em) ∧
  ∀ c k, OnceHandler c k ∈ handlers_of e em → c < EventEmitter.closures em.
Proof.
  intros Ht. unfold handlers_of.
  destruct (EventEmitter.listeners em !! e) as [hs |] eqn:He.
  - destruct (Ht _ _ He) as (_ & Hnd & Hfresh). by split.
  - cbn [default]. split; [by apply NoDup_nil |].
    intros c k Hin. by apply elem_of_nil in Hin.
Qed.

Lemma tidy_lookup (e : string) (em : EventEmitter.t) :
  tidy em →
  EventEmitter.listeners em !! e
  = match handlers_of e em with [] => None | hs => Some hs end.
Proof.
  intros Ht. unfold handlers_of.
  destruct (EventEmitter.listeners em !! e) as [hs |] eqn:He; [| done].
  destruct (Ht _ _ He) as (Hne & _). by destruct hs.
Qed.

Lemma off_tidy (e : string) (h : Handler) (em : EventEmitter.t) :
  tidy em → tidy (EventEmitter.off e h em).
Proof.
  intros Ht e' hs'. unfold EventEmitter.off.
  destruct (EventEmitter.listeners em !! e) as [hs |] eqn:He; [| by apply Ht].
  cbn [EventEmitter.listeners EventEmitter.closures].
  destruct (Ht _ _ He) as (Hne0 & Hnd & Hfresh).
  destruct (EventEmitter.set_delete h hs) as [| x l] eqn:Hd.
  - intros Hl. apply lookup_delete_Some in Hl as [_ Hl]. exact (Ht _ _ Hl).
  - destruct (decide (e = e')) as [<- | Hne].
    + rewrite lookup_insert_eq. intros Heq. apply (inj Some) in Heq. subst hs'.
      split; [done |]. rewrite <- Hd. split.
      * by apply NoDup_filter.
      * intros c k Hin. apply list_elem_of_filter in Hin as [_ Hin].
        by eapply Hfresh.
    + rewrite lookup_insert_ne by done. by apply Ht.
Qed.

Lemma on_tidy (e : string) (h : Handler) (em : EventEmitter.t) :
  (∀ c k, h = OnceHandler c k → c < EventEmitter.closures em) →
  tidy em → tidy (EventEmitter.on e h em).
Proof.
  intros Hh Ht e' hs'. unfold EventEmitter.on.
  cbn [EventEmitter.listeners EventEmitter.closures].
  destruct (decide (e = e')) as [<- | Hne];
    [| rewrite lookup_insert_ne by done; by apply Ht].
  rewrite lookup_insert_eq. intros Heq. apply (inj Some) in Heq. subst hs'.
  destruct (handlers_of_tidy e em Ht) as [Hnd Hfresh].
  fold (handlers_of e em). unfold EventEmitter.set_add.
  case_bool_decide as Hin.
  - repeat split; [| done | done].
    intros Hnil. rewrite Hnil in Hin. by apply elem_of_nil in Hin.
  - repeat split.
    + by destruct (handlers_of e em).
    + apply NoDup_app. repeat split; [done | | apply NoDup_singleton].
      intros x Hx Hx'. apply list_elem_of_singleton in Hx'. by subst.
    + intros c k Hck. apply elem_of_app in Hck as [Hck | Hck];
        [by eapply Hfresh |].
      apply list_elem_of_singleton in Hck. by eapply Hh.
Qed.

Lemma once_tidy (e : string) (h : nat) (em : EventEmitter.t) :
  tidy em → tidy (EventEmitter.once e h em).
Proof.
  intros Ht. unfold EventEmitter.once. apply on_tidy.
  - intros c k Heq. injection Heq as <- _. cbn. lia.
  - intros e' hs' Hl. cbn [EventEmitter.listeners EventEmitter.closures] in *.
    destruct (Ht _ _ Hl) as (Hne & Hnd & Hfresh). repeat split; [done | done |].
    intros c k Hck. specialize (Hfresh _ _ Hck). lia.
Qed.

Lemma emit_tidy (e : string) (em : EventEmitter.t) :
  tidy em → tidy (EventEmitter.emit e em).
Proof.
  unfold EventEmitter.emit.
  destruct (EventEmitter.listeners em !! e) as [hs |]; [| done].
  revert em. induction hs as [| h hs IH]; intros em Ht; [done |].
  cbn [foldl]. apply IH. unfold EventEmitter.call.
  assert (tidy (EventEmitter.mk (EventEmitter.listeners em)
                  (EventEmitter.closures em)
                  (EventEmitter.delivered em ++ [(h, e)]))) as Ht' by exact Ht.
  destruct h; [done | by apply off_tidy | done].
Qed.

Lemma perform_tidy (op : EmitterOp.t) (em : EventEmitter.t) :
  tidy em → tidy (EmitterOp.perform op em).
Proof.
  intros Ht. destruct op as [e h | e h | e h | e | oe]; cbn [EmitterOp.perform].
  - by apply on_tidy.
  - by apply off_tidy.
  - by apply once_tidy.
  - by apply emit_tidy.
  - unfold EventEmitter.removeAllListeners.
    assert (tidy (EventEmitter.mk ∅ (EventEmitter.closures em)
                    (EventEmitter.delivered em))) as Hempty.
    { intros e hs Hl. cbn in Hl. by rewrite lookup_empty in Hl. }
    destruct oe as [e |]; [| done]. destruct (negb _); [| done].
    intros e' hs Hl. cbn [EventEmitter.listeners EventEmitter.closures] in *.
    apply lookup_delete_Some in Hl as [_ Hl]. exact (Ht _ _ Hl).
Qed.

Lemma perform_all_tidy (history : list EmitterOp.t) :
  tidy (EmitterOp.perform_all history EventEmitter.new).
Proof.
  unfold EmitterOp.perform_all.
  assert (tidy EventEmitter.new) as H0.
  { intros e hs Hl. cbn in Hl. by rewrite lookup_empty in Hl. }
  revert H0. generalize EventEmitter.new.
  induction history as [| op ops IH]; intros em Hem; [done |].
  cbn [foldl]. apply IH. by apply perform_tidy.
Qed.

(** X18.  In every state of an event emitter [eventNames()] lists
    exactly the event types that have a listener ([hasListeners], a
    positive [listenerCount]): a type whose last handler is taken off is
    dropped from the map.  No handler is registered twice for a type,
    so [listenerCount] counts distinct handlers. *)
Theorem X18_event_names_have_listeners (history : list EmitterOp.t) (eventType : string) :
  let this := EmitterOp.perform_all history EventEmitter.new in
  (eventType ∈ EventEmitter.eventNames this
     ↔ EventEmitter.hasListeners eventType this = true) ∧
  (EventEmitter.hasListeners eventType this = true
     ↔ 0 < EventEmitter.listenerCount eventType this) ∧
  EventEmitter.listenerCount eventType this = length (handlers_of eventType this) ∧
  NoDup (handlers_of eventType this).
Proof.
  intros this. pose proof (perform_all_tidy history) as Ht. fold this in Ht.
  unfold EventEmitter.hasListeners, EventEmitter.listenerCount.
  fold (handlers_of eventType this). repeat split.
  - intros Hin. apply bool_decide_eq_true.
    unfold EventEmitter.eventNames in Hin.
    apply list_elem_of_fmap in Hin as ([e hs] & -> & Hin).
    apply elem_of_map_to_list in Hin. cbn [fst].
    unfold handlers_of. rewrite Hin. cbn [default].
    destruct (Ht _ _ Hin) as (Hne & _). destruct hs; [done | cbn; lia].
  - intros Hc. apply bool_decide_eq_true in Hc.
    unfold EventEmitter.eventNames. apply list_elem_of_fmap.
    unfold handlers_of in Hc.
    destruct (EventEmitter.listeners this !! eventType) as [hs |] eqn:He;
      [| cbn in Hc; lia].
    exists (eventType, hs). split; [done |]. by apply elem_of_map_to_list.
  - by intros ?%bool_decide_eq_true.
  - intros Hc. by apply bool_decide_eq_true.
  - by apply handlers_of_tidy.
Qed.

(** X19.  [emit] calls every handler registered for the event type
    exactly once, in the order of registration, and no handler of
    another type; afterwards the closures of [once] are off the type,
    every other handler is still on it, and the other types are
    untouched.  With no handler for the type it does nothing.
    (What a callback does is not modelled: a callback that calls the
    emitter, or the callback of a [once] that throws, which keeps its
    closure on, is outside this statement.) *)
Theorem X19_emit_calls_each_handler_once (this : EventEmitter.t) (eventType : string) :
  EventEmitter.delivered (EventEmitter.emit eventType this)
    = (EventEmitter.delivered this
       ++ ((λ handler, (handler, eventType)) <$> handlers_of eventType this))%list ∧
  handlers_of eventType (EventEmitter.emit eventType this)
    = filter (λ handler, is_once handler = false) (handlers_of eventType this) ∧
  (∀ other, eventType ≠ other →
     EventEmitter.listeners (EventEmitter.emit eventType this) !! other
     = EventEmitter.listeners this !! other) ∧
  (EventEmitter.listenerCount eventType this = 0 →
     EventEmitter.emit eventType this = this).
Proof.
  destruct (emit_effect eventType this) as (Hd & _ & Hh & Ho).
  repeat split; try done.
  unfold EventEmitter.listenerCount, EventEmitter.emit.
  destruct (EventEmitter.listeners this !! eventType) as [hs |]; [| done].
  cbn [default]. intros Hlen. by destruct hs.
Qed.

(** X20.  [on] is idempotent (a handler is held once per type).  In any
    state of an emitter, for a handler that is not registered for the
    type: [off] does nothing, [on] raises [listenerCount] by one, and
    [on] followed by [off] gives back the emitter as it was. *)
Theorem X20_on_off_round_trip
    (history : list EmitterOp.t) (eventType : string) (h : nat) :
  let this := EmitterOp.perform_all history EventEmitter.new in
  Callback h ∉ handlers_of eventType this →
  EventEmitter.on eventType (Callback h) (EventEmitter.on eventType (Callback h) this)
    = EventEmitter.on eventType (Callback h) this ∧
  EventEmitter.off eventType (Callback h) this = this ∧
  EventEmitter.listenerCount eventType (EventEmitter.on eventType (Callback h) this)
    = S (EventEmitter.listenerCount eventType this) ∧
  EventEmitter.off eventType (Callback h) (EventEmitter.on eventType (Callback h) this)
    = this.
Proof.
  intros this Hfresh. pose proof (perform_all_tidy history) as Ht. fold this in Ht.
  pose proof (tidy_lookup eventType this Ht) as Hl.
  revert Hfresh Hl. generalize this as em. clear this Ht.
  intros [ls cl dl]. unfold handlers_of. cbn [EventEmitter.listeners].
  intros Hfresh Hl.
  unfold EventEmitter.on, EventEmitter.off, EventEmitter.listenerCount.
  cbn [EventEmitter.listeners EventEmitter.closures EventEmitter.delivered].
  rewrite !lookup_insert_eq, insert_insert_eq. cbn [default from_option id].
  rewrite (set_add_fresh _ _ Hfresh).
  assert (EventEmitter.set_add (Callback h) (default [] (ls !! eventType) ++ [Callback h])
          = (default [] (ls !! eventType) ++ [Callback h])%list) as ->.
  { unfold EventEmitter.set_add. rewrite bool_decide_eq_true_2; [done |].
    apply elem_of_app. right. by apply list_elem_of_singleton. }
  assert (EventEmitter.set_delete (Callback h)
            (default [] (ls !! eventType) ++ [Callback h])
          = default [] (ls !! eventType)) as ->.
  { unfold EventEmitter.set_delete. rewrite filter_app.
    fold (EventEmitter.set_delete (Callback h) (default [] (ls !! eventType))).
    rewrite (set_delete_fresh _ _ Hfresh).
    rewrite filter_cons_False by (intros H; by apply H). by rewrite app_nil_r. }
  repeat split.
  - destruct (ls !! eventType) as [hs |] eqn:He; [| done].
    cbn [default from_option id] in *. rewrite (set_delete_fresh _ _ Hfresh).
    destruct hs as [| x l]; [done |]. by rewrite insert_id.
  - rewrite length_app. cbn. lia.
  - destruct (ls !! eventType) as [hs |] eqn:He; cbn [default from_option id] in *.
    + destruct hs as [| x l]; [done |].
      by rewrite insert_insert_eq, insert_id.
    + by rewrite delete_insert_id.
Qed.

Lemma X20_on_off_round_trip_witness :
  let this := EmitterOp.perform_all [EmitterOp.On "click" 1] EventEmitter.new in
  handlers_of "click" this = [Callback 1] ∧
  EventEmitter.off "click" (Callback 2) (EventEmitter.on "click" (Callback 2) this)
    = this.
Proof.
  split; [vm_compute; reflexivity |].
  apply (X20_on_off_round_trip [EmitterOp.On "click" 1] "click" 2).
  assert (handlers_of "click"
            (EmitterOp.perform_all [EmitterOp.On "click" 1] EventEmitter.new)
          = [Callback 1]) as -> by (vm_compute; reflexivity).
  intros H. apply list_elem_of_singleton in H. discriminate H.
Defined.

(** X21.  In any state of an emitter, [once] followed by [emit] of the
    type calls the handler's closure after the handlers already there
    and leaves the listeners exactly as [emit] alone would have: the
    closure is gone, so no later [emit] calls it again.  [off] with
    the function given to [once] does not take the closure off: a
    handler registered with [once] cannot be removed before it has
    run.  (The callback is taken to return normally: [off] comes after
    it in the closure.) *)
Theorem X21_once_runs_once
    (history : list EmitterOp.t) (eventType : string) (h : nat) :
  let this := EmitterOp.perform_all history EventEmitter.new in
  let closure := OnceHandler (EventEmitter.closures this) h in
  EventEmitter.delivered (EventEmitter.emit eventType (EventEmitter.once eventType h this))
    = (EventEmitter.delivered (EventEmitter.emit eventType this)
       ++ [(closure, eventType)])%list ∧
  EventEmitter.listeners (EventEmitter.emit eventType (EventEmitter.once eventType h this))
    = EventEmitter.listeners (EventEmitter.emit eventType this) ∧
  (closure ∉ handlers_of eventType
               (EventEmitter.emit eventType (EventEmitter.once eventType h this))) ∧
  (closure ∈ handlers_of eventType
               (EventEmitter.off eventType (Callback h)
                  (EventEmitter.once eventType h this))).
Proof.
  intros this closure. pose proof (perform_all_tidy history) as Ht. fold this in Ht.
  destruct (handlers_of_tidy eventType this Ht) as [_ Hfresh].
  assert (closure ∉ handlers_of eventType this) as Hnew.
  { intros Hin. specialize (Hfresh _ _ Hin). lia. }
  assert (handlers_of eventType (EventEmitter.once eventType h this)
          = (handlers_of eventType this ++ [closure])%list) as Honce.
  { unfold EventEmitter.once. rewrite handlers_of_on.
    by apply set_add_fresh. }
  destruct (emit_effect eventType (EventEmitter.once eventType h this))
    as (Hd1 & _ & Hh1 & Ho1).
  destruct (emit_effect eventType this) as (Hd & _ & Hh & Ho).
  assert (handlers_of eventType
            (EventEmitter.emit eventType (EventEmitter.once eventType h this))
          = handlers_of eventType (EventEmitter.emit eventType this)) as Hsame.
  { rewrite Hh1, Hh, Honce, filter_app.
    rewrite filter_cons_False by done. by rewrite app_nil_r. }
  repeat split.
  - rewrite Hd1, Hd, Honce, fmap_app, app_assoc. done.
  - apply map_eq. intros e. destruct (decide (eventType = e)) as [<- | Hne].
    + rewrite (tidy_lookup eventType _ (emit_tidy _ _ (once_tidy _ h _ Ht))).
      rewrite (tidy_lookup eventType _ (emit_tidy _ _ Ht)).
      by rewrite Hsame.
    + rewrite Ho1, Ho by done. unfold EventEmitter.once, EventEmitter.on.
      cbn [EventEmitter.listeners]. by rewrite lookup_insert_ne.
  - rewrite Hsame, Hh. intros Hin. by apply list_elem_of_filter in Hin as [Hin _].
  - rewrite handlers_of_off. apply list_elem_of_filter. split; [done |].
    unfold EventEmitter.once. rewrite handlers_of_on. apply elem_of_set_add.
Qed.

(** ** core/UniversalMap.ts *)

(** X22.  The constructor fails, with a configuration error, exactly
    when the provider name or the container is missing or empty.
    Otherwise the facade starts without provider, not initialized, not
    ready, with no listener; and its configuration always has an initial
    position: the one given (a view state, or a center together with a
    zoom), or else the default center (0, 0) and zoom 2, announced with
    one warning, which also replaces a center given without a zoom. *)
Theorem X22_constructor {P : Type} `{!IMapProvider.t P} (config : MapConfig.t) :
  match @UniversalMap.new P config with
  | Throw e =>
      e = MapError CONFIG_ERROR None ∧ kind e = ConfigurationError ∧
      (JS.truthy_str (MapConfig.provider config) = false
       ∨ JS.truthy_str (MapConfig.container config) = false)
  | Ok this =>
      JS.truthy_str (MapConfig.provider config) = true ∧
      JS.truthy_str (MapConfig.container config) = true ∧
      UniversalMap.getProvider this = None ∧
      UniversalMap.initialized this = false ∧
      UniversalMap.isReady this = false ∧
      UniversalMap.eventEmitter this = EventEmitter.new ∧
      (JS.defined (MapConfig.viewState (UniversalMap.getConfig this))
       || JS.defined (MapConfig.center (UniversalMap.getConfig this))
          && JS.defined (MapConfig.zoom (UniversalMap.getConfig this)) = true) ∧
      (if JS.defined (MapConfig.viewState config)
          || JS.defined (MapConfig.center config)
             && JS.defined (MapConfig.zoom config)
       then UniversalMap.getConfig this = config ∧ UniversalMap.console this = []
       else UniversalMap.getConfig this
              = MapConfig.with_position (Some (0%float, 0%float)) (Some 2%float) config ∧
            MapConfig.viewState (UniversalMap.getConfig this) = None ∧
            UniversalMap.console this
              = ["No initial position specified, using default (0, 0, zoom: 2)"])
  end.
Proof.
  unfold UniversalMap.new, UniversalMap.validateConfig.
  destruct (JS.truthy_str (MapConfig.provider config)) eqn:Hp; cbn [negb];
    [| by repeat split; auto].
  destruct (JS.truthy_str (MapConfig.container config)) eqn:Hc; cbn [negb];
    [| by repeat split; auto].
  destruct config as [prov cont vs cen zoom key proj e3 mock opts].
  cbn [MapConfig.viewState MapConfig.center MapConfig.zoom].
  destruct vs, cen, zoom; cbn; by repeat split.
Qed.

Lemma stub_call_keeps {P : Type} `{!IMapProvider.t P}
    (call : FacadeCall.t) (this : UniversalMap.t P) :
  UniversalMap.provider this = None →
  UniversalMap.initialized this = false →
  UniversalMap.provider
    (state_after (FacadeCall.perform UniversalMap.createProvider_stub call) this) = None ∧
  UniversalMap.initialized
    (state_after (FacadeCall.perform UniversalMap.createProvider_stub call) this) = false ∧
  UniversalMap.config
    (state_after (FacadeCall.perform UniversalMap.createProvider_stub call) this)
    = UniversalMap.config this.
Proof.
  destruct this as [p cfg em ini con]. cbn [UniversalMap.provider UniversalMap.initialized].
  intros -> ->. destruct call as [| | e h | e h | e h | op]; try by cbn.
  destruct op; by cbn.
Qed.

Lemma stub_calls_keep {P : Type} `{!IMapProvider.t P}
    (calls : list FacadeCall.t) (this : UniversalMap.t P) :
  UniversalMap.provider this = None →
  UniversalMap.initialized this = false →
  UniversalMap.provider
    (FacadeCall.perform_all UniversalMap.createProvider_stub calls this) = None ∧
  UniversalMap.initialized
    (FacadeCall.perform_all UniversalMap.createProvider_stub calls this) = false ∧
  UniversalMap.config
    (FacadeCall.perform_all UniversalMap.createProvider_stub calls this)
    = UniversalMap.config this.
Proof.
  unfold FacadeCall.perform_all. revert this.
  induction calls as [| call calls IH]; intros this Hp Hi; [done |].
  cbn [foldl].
  destruct (stub_call_keeps call this Hp Hi) as (Hp1 & Hi1 & Hc1).
  destruct (IH _ Hp1 Hi1) as (Hp2 & Hi2 & Hc2).
  repeat split; [done | done | congruence].
Qed.

(** X23.  With the [createProvider] the source ships, no sequence of
    calls of the facade's public methods ever initializes it: after any
    number of calls, in any order, the facade has no provider, is not
    initialized and not ready, and keeps its configuration;
    [initialize()] fails with the initialization error, caused by the
    provider-not-found error, and changes nothing; and [createMap]
    never returns a map. *)
Theorem X23_shipped_facade_never_initializes {P : Type} `{!IMapProvider.t P}
    (config : MapConfig.t) (this : UniversalMap.t P) (calls : list FacadeCall.t) :
  UniversalMap.new config = Ok this →
  let that := FacadeCall.perform_all UniversalMap.createProvider_stub calls this in
  UniversalMap.getProvider that = None ∧
  UniversalMap.initialized that = false ∧
  UniversalMap.isReady that = false ∧
  UniversalMap.getConfig that = UniversalMap.getConfig this ∧
  run (UniversalMap.initialize UniversalMap.createProvider_stub) that
    = (that, Throw (MapError INIT_ERROR (Some (MapError PROVIDER_NOT_FOUND None)))) ∧
  createMap UniversalMap.createProvider_stub config
    = Throw (MapError INIT_ERROR (Some (MapError PROVIDER_NOT_FOUND None))).
Proof.
  intros Hnew that.
  assert (UniversalMap.provider this = None ∧ UniversalMap.initialized this = false)
    as [Hp Hi].
  { unfold UniversalMap.new in Hnew.
    destruct (UniversalMap.validateConfig config) as [[cfg lines] | e];
      [| discriminate Hnew].
    injection Hnew as <-. by split. }
  assert (UniversalMap.provider that = None ∧ UniversalMap.initialized that = false ∧
          UniversalMap.config that = UniversalMap.config this) as (Hp' & Hi' & Hc').
  { subst that. by apply stub_calls_keep. }
  unfold UniversalMap.getProvider, UniversalMap.getConfig, UniversalMap.isReady.
  rewrite Hi'. repeat split; try done.
  - destruct that as [p cfg em ini con]. cbn in Hp', Hi'. subst. by cbn.
  - unfold createMap. rewrite Hnew.
    destruct this as [p cfg em ini con]. cbn in Hp, Hi. subst. by cbn.
Qed.

Lemma X23_shipped_facade_never_initializes_witness :
  @UniversalMap.new GoogleMapsProvider.t Demo.map_config = Ok Demo.fresh_map ∧
  UniversalMap.isReady (H := Demo.google_provider)
    (FacadeCall.perform_all (H := Demo.google_provider) UniversalMap.createProvider_stub
       [FacadeCall.Initialize; FacadeCall.On "click" 1; FacadeCall.Initialize]
       Demo.fresh_map) = false.
Proof.
  split; [reflexivity |].
  apply (@X23_shipped_facade_never_initializes _ Demo.google_provider
           Demo.map_config Demo.fresh_map
           [FacadeCall.Initialize; FacadeCall.On "click" 1; FacadeCall.Initialize]).
  reflexivity.
Defined.

(** X24.  When [createProvider] answers a provider and the provider's
    [initialize] throws, the facade's [initialize()] fails with the
    initialization error that carries the cause, but the provider stays
    attached: [getProvider()] returns it, while the facade is not
    initialized and not ready and its listeners are as they were.
    Every guarded method still fails with the not-initialized error;
    [resize()] is handed on to the provider that failed to
    initialize. *)
Theorem X24_failed_initialize_keeps_the_provider {P : Type} `{!IMapProvider.t P}
    (createProvider : option string → result P)
    (this : UniversalMap.t P) (p p' : P) (e : error) :
  UniversalMap.initialized this = false →
  createProvider (MapConfig.provider (UniversalMap.config this)) = Ok p →
  run (IMapProvider.initialize (UniversalMap.config this)) p = (p', Throw e) →
  let that := state_after (UniversalMap.initialize createProvider) this in
  outcome (UniversalMap.initialize createProvider) this
    = Throw (MapError INIT_ERROR (Some e)) ∧
  kind (MapError INIT_ERROR (Some e)) = InitializationError ∧
  that = UniversalMap.mk (Some p') (UniversalMap.config this)
           (UniversalMap.eventEmitter this) false (UniversalMap.console this) ∧
  UniversalMap.getProvider that = Some p' ∧
  UniversalMap.isReady that = false ∧
  (∀ op, FacadeOp.is_resize op = false →
     run (FacadeOp.perform op) that = (that, Throw (MapError NOT_INITIALIZED None))) ∧
  state_after UniversalMap.resize that
    = UniversalMap.mk (Some (state_after IMapProvider.resize p'))
        (UniversalMap.config this) (UniversalMap.eventEmitter this) false
        (UniversalMap.console this).
Proof.
  intros Hi Hmake Hinit that.
  assert (run (UniversalMap.initialize createProvider) this
          = (UniversalMap.mk (Some p') (UniversalMap.config this)
               (UniversalMap.eventEmitter this) false (UniversalMap.console this),
             Throw (MapError INIT_ERROR (Some e)))) as Hrun.
  { unfold UniversalMap.initialize. rewrite run_bind. cbn [run read]. rewrite Hi.
    unfold try_catch. cbn [run]. rewrite run_bind. rewrite Hmake. cbn [run lift].
    rewrite run_bind. cbn [run UniversalMap.set_provider modify].
    rewrite run_bind. unfold UniversalMap.on_provider at 1.
    cbn [run UniversalMap.provider UniversalMap.config UniversalMap.eventEmitter
           UniversalMap.initialized UniversalMap.console].
    rewrite Hinit. cbn [throw run]. by rewrite Hi. }
  assert (that = UniversalMap.mk (Some p') (UniversalMap.config this)
                   (UniversalMap.eventEmitter this) false (UniversalMap.console this))
    as Hthat by (unfold that, state_after; by rewrite Hrun).
  unfold outcome. rewrite Hrun. rewrite Hthat. repeat split.
  - intros op Hop.
    set (s := UniversalMap.mk _ _ _ _ _).
    assert (not_initialized s) as Hs by (by left).
    destruct op; try discriminate Hop; cbn [FacadeOp.perform];
      unfold UniversalMap.getViewState, UniversalMap.setCenter, UniversalMap.setZoom,
        UniversalMap.setViewState, UniversalMap.getBounds, UniversalMap.fitBounds,
        UniversalMap.addLayer, UniversalMap.removeLayer, UniversalMap.updateLayer,
        UniversalMap.getLayer, UniversalMap.getLayers,
        UniversalMap.setLayerVisibility, UniversalMap.setLayerOpacity,
        UniversalMap.getMapInstance;
      first [ by rewrite (guarded_call_throws _ s Hs)
            | rewrite run_bind; by rewrite (guarded_call_throws _ s Hs) ].
  - unfold state_after, UniversalMap.resize. rewrite run_bind.
    cbn [run read UniversalMap.provider JS.defined UniversalMap.on_provider
           UniversalMap.config UniversalMap.eventEmitter UniversalMap.initialized
           UniversalMap.console].
    by destruct (run IMapProvider.resize p') as [p'' r].
Qed.

Lemma X24_failed_initialize_keeps_the_provider_witness :
  let provider :=
    GoogleMapsProvider.provider (Ok tt) (λ id, false)
      (GoogleMap.mk None None None None None []) in
  let that :=
    state_after (@UniversalMap.initialize _ provider (λ _, Ok GoogleMapsProvider.new))
      Demo.fresh_map in
  outcome (@UniversalMap.initialize _ provider (λ _, Ok GoogleMapsProvider.new))
    Demo.fresh_map
    = Throw (MapError INIT_ERROR (Some (ContainerNotFound "map"))) ∧
  is_Some (UniversalMap.getProvider that) ∧
  UniversalMap.isReady (H := provider) that = false.
Proof.
  intros provider that.
  destruct (@X24_failed_initialize_keeps_the_provider _ provider
              (λ _, Ok GoogleMapsProvider.new) Demo.fresh_map GoogleMapsProvider.new
              (state_after (IMapProvider.initialize (t := provider) Demo.map_config)
                 GoogleMapsProvider.new)
              (ContainerNotFound "map"))
    as (Hout & _ & _ & Hprov & Hready & _).
  - reflexivity.
  - reflexivity.
  - vm_compute. reflexivity.
  - split; [exact Hout |]. split; [| exact Hready].
    fold that in Hprov. rewrite Hprov. by eexists.
Defined.

(** ** providers/google/GoogleMapsProvider.ts *)

Lemma run_google_initialize (api : result unit) (element : string → bool)
    (sdk_map : GoogleMap.t) (cfg : MapConfig.t) (p : GoogleMapsProvider.t) :
  run (GoogleMapsProvider.initialize api element sdk_map cfg) p =
  match GoogleMapsProvider.validateConfig cfg with
  | Throw e => (p, Throw e)
  | Ok _ =>
      let p1 :=
        GoogleMapsProvider.mk (Some cfg) (GoogleMapsProvider.container p)
          (GoogleMapsProvider.layers p) (GoogleMapsProvider.eventHandlers p)
          (GoogleMapsProvider.ready p) (GoogleMapsProvider.map p)
          (GoogleMapsProvider.eventMapper p) (GoogleMapsProvider.layerManager p) in
      match api with
      | Throw e => (p1, Throw e)
      | Ok _ =>
          match GoogleMapsProvider.resolveContainer element (MapConfig.container cfg) with
          | Throw e => (p1, Throw e)
          | Ok el =>
              (GoogleMapsProvider.mk (Some cfg) (Some el)
                 (GoogleMapsProvider.layers p) (GoogleMapsProvider.eventHandlers p)
                 true (Some sdk_map) (Some 11) (Some []),
               Ok tt)
          end
      end
  end.
Proof.
  unfold GoogleMapsProvider.initialize. rewrite run_bind. cbn [run lift].
  destruct (GoogleMapsProvider.validateConfig cfg) as [[] | e]; [| done].
  rewrite run_bind. cbn [run modify]. rewrite run_bind. cbn [run lift].
  destruct api as [[] | e]; [| done].
  rewrite run_bind. cbn [run lift].
  by destruct (GoogleMapsProvider.resolveContainer element (MapConfig.container cfg)).
Qed.

(** The map object exists exactly in a ready provider, and a provider
    with a map has a layer manager. *)
Lemma provider_call_lifecycle (element : string → bool) (sdk_map : GoogleMap.t)
    (call : ProviderCall.t) (p : GoogleMapsProvider.t) :
  GoogleMapsProvider.ready p = JS.defined (GoogleMapsProvider.map p) ∧
  (JS.defined (GoogleMapsProvider.map p) = true →
   JS.defined (GoogleMapsProvider.layerManager p) = true) →
  let p' := state_after (ProviderCall.perform element sdk_map call) p in
  GoogleMapsProvider.ready p' = JS.defined (GoogleMapsProvider.map p') ∧
  (JS.defined (GoogleMapsProvider.map p') = true →
   JS.defined (GoogleMapsProvider.layerManager p') = true).
Proof.
  intros [Hr Hm]. destruct call; cbn [ProviderCall.perform]; cbn zeta.
  - unfold state_after. rewrite run_google_initialize.
    destruct (GoogleMapsProvider.validateConfig config); [| by split].
    cbn zeta. destruct api; [| by split].
    by destruct (GoogleMapsProvider.resolveContainer element (MapConfig.container config)).
  - by cbn.
  - destruct p as [c ct l eh r [m |] em lm]; cbn in *; by split.
  - destruct p as [c ct l eh r [m |] em lm]; cbn in *; by split.
  - destruct p as [c ct l eh r m em [lm |]]; cbn in *; [| by split].
    destruct (LayerConfig.id layer); by split.
  - destruct p as [c ct l eh r m em [lm |]]; cbn in *; by split.
  - destruct p as [c ct l eh r m em [lm |]]; cbn in Hr, Hm; [| by split].
    unfold state_after, GoogleMapsProvider.updateLayer. cbn.
    destruct (l !! layerId); by split.
  - destruct p as [c ct l eh r m em [lm |]]; cbn in Hr, Hm;
      unfold state_after, GoogleMapsProvider.setLayerVisibility,
        BaseMapProvider.setLayerVisibility, GoogleMapsProvider.updateLayer; cbn;
      destruct (l !! layerId) eqn:Hl; cbn; rewrite ?Hl; cbn; by split.
  - destruct p as [c ct l eh r m em [lm |]]; cbn in Hr, Hm;
      unfold state_after, GoogleMapsProvider.setLayerOpacity,
        BaseMapProvider.setLayerOpacity, GoogleMapsProvider.updateLayer; cbn;
      destruct (l !! layerId) eqn:Hl; cbn; rewrite ?Hl; cbn; by split.
  - by cbn.
  - by cbn.
  - destruct p as [c ct l eh r [m |] em lm]; cbn in *; by split.
Qed.

(** X25.  In every state of a Google provider, whatever has been called
    on it and however its [initialize] calls went, [isReady()] is true
    exactly when the map object exists.  In a ready provider the view
    and layer methods pass their guards; in one that is not ready the
    view methods throw 'Map not initialized' and change nothing, and
    [resize()] does nothing. *)
Theorem X25_provider_is_ready_iff_it_has_a_map
    (element : string → bool) (sdk_map : GoogleMap.t) (calls : list ProviderCall.t) :
  let this := ProviderCall.perform_all element sdk_map calls GoogleMapsProvider.new in
  GoogleMapsProvider.isReady this = JS.defined (GoogleMapsProvider.map this) ∧
  (GoogleMapsProvider.isReady this = true →
     threw (outcome GoogleMapsProvider.getViewState this) = false ∧
     (∀ viewState options,
        outcome (GoogleMapsProvider.setViewState viewState options) this = Ok tt) ∧
     (∀ bounds options,
        outcome (GoogleMapsProvider.fitBounds bounds options) this = Ok tt) ∧
     (∀ layer, outcome (GoogleMapsProvider.addLayer layer) this = Ok tt) ∧
     (∀ layerId, outcome (GoogleMapsProvider.removeLayer layerId) this = Ok tt)) ∧
  (GoogleMapsProvider.isReady this = false →
     run GoogleMapsProvider.getViewState this = (this, Throw ProviderMapNotInitialized) ∧
     run GoogleMapsProvider.getBounds this = (this, Throw ProviderMapNotInitialized) ∧
     (∀ viewState options,
        run (GoogleMapsProvider.setViewState viewState options) this
        = (this, Throw ProviderMapNotInitialized)) ∧
     (∀ bounds options,
        run (GoogleMapsProvider.fitBounds bounds options) this
        = (this, Throw ProviderMapNotInitialized)) ∧
     run GoogleMapsProvider.resize this = (this, Ok tt)) ∧
  kind ProviderMapNotInitialized = NotInitializedError.
Proof.
  intros this.
  assert (GoogleMapsProvider.ready this = JS.defined (GoogleMapsProvider.map this) ∧
          (JS.defined (GoogleMapsProvider.map this) = true →
           JS.defined (GoogleMapsProvider.layerManager this) = true)) as [Hr Hm].
  { subst this. unfold ProviderCall.perform_all.
    assert (GoogleMapsProvider.ready GoogleMapsProvider.new
              = JS.defined (GoogleMapsProvider.map GoogleMapsProvider.new) ∧
            (JS.defined (GoogleMapsProvider.map GoogleMapsProvider.new) = true →
             JS.defined (GoogleMapsProvider.layerManager GoogleMapsProvider.new) = true))
      as H0 by (by split).
    revert H0. generalize GoogleMapsProvider.new.
    induction calls as [| call calls IH]; intros p Hp; [done |].
    cbn [foldl]. apply IH. by apply provider_call_lifecycle. }
  unfold GoogleMapsProvider.isReady. split; [done |].
  destruct this as [c ct l eh r [m |] em lm]; cbn in Hr, Hm; subst r.
  - specialize (Hm eq_refl). destruct lm as [lm |]; [| discriminate Hm].
    repeat split; done.
  - repeat split; done.
Qed.

(** X26.  On a provider that has been initialized, [addLayer] never
    fails: a layer whose id is taken silently replaces the entry (there
    is no duplicate check here).  Afterwards [getLayer] answers the
    descriptor given, the other entries are as they were, the call has
    been handed to the layer manager, and [removeLayer] of the id
    succeeds and leaves the registry without it. *)
Theorem X26_provider_addLayer_replaces
    (this : GoogleMapsProvider.t) (layer : LayerConfig.t) (layerId : string) :
  JS.defined (GoogleMapsProvider.layerManager this) = true →
  LayerConfig.id layer = Some layerId →
  let that := state_after (GoogleMapsProvider.addLayer layer) this in
  outcome (GoogleMapsProvider.addLayer layer) this = Ok tt ∧
  run (GoogleMapsProvider.getLayer layerId) that = (that, Ok (Some layer)) ∧
  (∀ other, other ≠ layerId →
     GoogleMapsProvider.layers that !! other = GoogleMapsProvider.layers this !! other) ∧
  GoogleMapsProvider.layerManager that
    = (λ calls, (calls ++ [RenderAdd layer])%list) <$> GoogleMapsProvider.layerManager this ∧
  outcome (GoogleMapsProvider.removeLayer layerId) that = Ok tt ∧
  GoogleMapsProvider.layers (state_after (GoogleMapsProvider.removeLayer layerId) that)
    = delete layerId (GoogleMapsProvider.layers this).
Proof.
  intros Hlm Hid that. subst that.
  destruct this as [c ct l eh r m em [lm |]]; [| discriminate Hlm].
  unfold outcome, state_after. cbn. rewrite Hid. cbn.
  repeat split.
  - by rewrite lookup_insert_eq.
  - intros other Hne. by rewrite lookup_insert_ne.
  - by rewrite delete_insert_eq.
Qed.

Lemma X26_provider_addLayer_replaces_witness :
  JS.defined (GoogleMapsProvider.layerManager Demo.google) = true ∧
  GoogleMapsProvider.layers Demo.google !! "a" = Some Demo.layer_a ∧
  outcome (GoogleMapsProvider.addLayer Demo.layer_a') Demo.google = Ok tt ∧
  outcome (GoogleMapsProvider.getLayer "a")
    (state_after (GoogleMapsProvider.addLayer Demo.layer_a') Demo.google)
    = Ok (Some Demo.layer_a').
Proof.
  destruct (X26_provider_addLayer_replaces Demo.google Demo.layer_a' "a")
    as (Hadd & Hget & _); [reflexivity | reflexivity |].
  split; [reflexivity |]. split; [vm_compute; reflexivity |].
  split; [exact Hadd |]. unfold outcome. by rewrite Hget.
Defined.

(** X27.  For an id the provider holds no layer for: [removeLayer]
    succeeds and leaves the registry as it was; [updateLayer] throws
    'Layer ... not found' and changes nothing; [setLayerVisibility] and
    [setLayerOpacity] return normally and change nothing, so a wrong id
    goes unnoticed there. *)
Theorem X27_provider_unknown_layer
    (this : GoogleMapsProvider.t) (layerId : string)
    (updates : Partial.t) (visible : bool) (opacity : float) :
  JS.defined (GoogleMapsProvider.layerManager this) = true →
  GoogleMapsProvider.layers this !! layerId = None →
  outcome (GoogleMapsProvider.removeLayer layerId) this = Ok tt ∧
  GoogleMapsProvider.layers (state_after (GoogleMapsProvider.removeLayer layerId) this)
    = GoogleMapsProvider.layers this ∧
  run (GoogleMapsProvider.updateLayer layerId updates) this
    = (this, Throw (ProviderLayerNotFound layerId)) ∧
  kind (ProviderLayerNotFound layerId) = NotFoundError ∧
  run (GoogleMapsProvider.setLayerVisibility layerId visible) this = (this, Ok tt) ∧
  run (GoogleMapsProvider.setLayerOpacity layerId opacity) this = (this, Ok tt) ∧
  run (GoogleMapsProvider.getLayer layerId) this = (this, Ok None).
Proof.
  intros Hlm Hnone.
  destruct this as [c ct l eh r m em [lm |]]; [| discriminate Hlm].
  cbn in Hnone. unfold outcome, state_after.
  unfold GoogleMapsProvider.setLayerVisibility, GoogleMapsProvider.setLayerOpacity,
    BaseMapProvider.setLayerVisibility, BaseMapProvider.setLayerOpacity,
    GoogleMapsProvider.getLayer, BaseMapProvider.getLayer. cbn. rewrite Hnone.
  repeat split. by rewrite delete_id.
Qed.

Lemma X27_provider_unknown_layer_witness :
  GoogleMapsProvider.layers Demo.google !! "zz" = None ∧
  outcome (GoogleMapsProvider.setLayerOpacity "zz" 0.5%float) Demo.google = Ok tt ∧
  outcome (GoogleMapsProvider.updateLayer "zz" Demo.style_patch) Demo.google
    = Throw (ProviderLayerNotFound "zz").
Proof.
  destruct (X27_provider_unknown_layer Demo.google "zz" Demo.style_patch true 0.5%float)
    as (_ & _ & Hupd & _ & _ & Hop & _); [reflexivity | vm_compute; reflexivity |].
  split; [vm_compute; reflexivity |]. unfold outcome. by rewrite Hop, Hupd.
Defined.

(** ** The facade over the Google provider *)

Lemma run_facade_initialize {P : Type} `{!IMapProvider.t P}
    (createProvider : option string → result P)
    (this : UniversalMap.t P) (p p1 : P) :
  UniversalMap.initialized this = false →
  createProvider (MapConfig.provider (UniversalMap.config this)) = Ok p →
  run (IMapProvider.initialize (UniversalMap.config this)) p = (p1, Ok tt) →
  run (UniversalMap.initialize createProvider) this =
  match run UniversalMap.setupEventForwarding
          (UniversalMap.mk (Some p1) (UniversalMap.config this)
             (UniversalMap.eventEmitter this) true (UniversalMap.console this)) with
  | (s2, Ok _) => run (UniversalMap.on_emitter (EventEmitter.emit "load")) s2
  | (s2, Throw e) => (s2, Throw (MapError INIT_ERROR (Some e)))
  end.
Proof.
  intros Hi Hmake Hinit.
  unfold UniversalMap.initialize. rewrite run_bind. cbn [run read]. rewrite Hi.
  unfold try_catch. cbn [run]. rewrite run_bind. rewrite Hmake. cbn [run lift].
  rewrite run_bind. cbn [run UniversalMap.set_provider modify].
  rewrite run_bind. unfold UniversalMap.on_provider at 1.
  cbn [run UniversalMap.provider UniversalMap.config UniversalMap.eventEmitter
         UniversalMap.initialized UniversalMap.console].
  rewrite Hinit. rewrite run_bind. cbn [run UniversalMap.set_initialized modify].
  cbn [UniversalMap.provider UniversalMap.config UniversalMap.eventEmitter
         UniversalMap.initialized UniversalMap.console].
  rewrite run_bind.
  destruct (run UniversalMap.setupEventForwarding _) as [s2 [[] | e]]; [| done].
  reflexivity.
Qed.

Lemma google_forwarding (api : result unit) (element : string → bool)
    (sdk_map : GoogleMap.t) (eventTypes : list string)
    (p : GoogleMapsProvider.t) (cfg : MapConfig.t) (em : EventEmitter.t)
    (ini : bool) (con : list string) :
  run (foldr (λ eventType k,
                UniversalMap.on_provider
                  (IMapProvider.on (t := GoogleFacade.provider api element sdk_map)
                     eventType (Forwarder eventType));; k)
             (mret tt) eventTypes)
      (UniversalMap.mk (Some p) cfg em ini con)
  = (UniversalMap.mk (Some (subscribe_forwarders eventTypes p)) cfg em ini con, Ok tt).
Proof.
  revert p. induction eventTypes as [| e es IH]; intros p; [done |].
  cbn [foldr]. rewrite run_bind.
  cbn [run UniversalMap.on_provider UniversalMap.provider UniversalMap.config
         UniversalMap.eventEmitter UniversalMap.initialized UniversalMap.console
         IMapProvider.on GoogleFacade.provider GoogleMapsProvider.provider
         GoogleMapsProvider.on modify].
  by rewrite IH.
Qed.

Lemma subscribe_forwarders_handlers (eventTypes : list string)
    (p : GoogleMapsProvider.t) (eventType : string) :
  GoogleMapsProvider.eventHandlers (subscribe_forwarders eventTypes p) !! eventType
  = if bool_decide (eventType ∈ eventTypes)
    then Some (EventEmitter.set_add (Forwarder eventType)
                 (default [] (GoogleMapsProvider.eventHandlers p !! eventType)))
    else GoogleMapsProvider.eventHandlers p !! eventType.
Proof.
  unfold subscribe_forwarders. revert p.
  induction eventTypes as [| e es IH]; intros p; [done |].
  cbn [foldl]. rewrite IH. unfold state_after.
  cbn [run GoogleMapsProvider.on modify fst GoogleMapsProvider.eventHandlers].
  destruct (decide (eventType = e)) as [-> | Hne].
  - rewrite lookup_insert_eq. cbn [default from_option id].
    rewrite (bool_decide_eq_true_2 (e ∈ e :: es)) by left.
    case_bool_decide; [| done]. f_equal.
    unfold EventEmitter.set_add at 1.
    by rewrite bool_decide_eq_true_2 by apply elem_of_set_add.
  - rewrite lookup_insert_ne by done.
    apply bool_decide_ext with (Q := eventType ∈ es) in IH as _ || idtac.
    destruct (decide (eventType ∈ es)) as [Hin | Hnin].
    + rewrite !bool_decide_eq_true_2; [done | by right | done].
    + rewrite !bool_decide_eq_false_2; [done | | done].
      intros Hin. apply elem_of_cons in Hin as [? | ?]; done.
Qed.

(** X28.  The facade over a Google provider ([createProvider]
    answering [new GoogleMapsProvider()] instead of throwing), whose API
    loads and whose container exists: [initialize()] succeeds, the
    facade is ready, and 'load' has been emitted.  An event of the SDK of one of the
    forwarded types then reaches every handler of the facade's emitter
    once, through the forwarder.  A handler subscribed with [on] after
    [initialize()] is held by the emitter and by the provider, and is
    called twice for such an event: once by the provider itself and
    once by the emitter. *)
Theorem X28_handler_subscribed_on_a_live_map_runs_twice
    (element : string → bool) (sdk_map : GoogleMap.t)
    (this : UniversalMap.t GoogleMapsProvider.t)
    (container eventType : string) (h : nat) :
  UniversalMap.initialized this = false →
  MapConfig.container (UniversalMap.config this) = Some container →
  container ≠ EmptyString →
  JS.truthy_str (MapConfig.apiKey (UniversalMap.config this)) = true →
  element container = true →
  eventType ∈ UniversalMap.forwardedEventTypes →
  let live := state_after (GoogleFacade.initialize (Ok tt) element sdk_map) this in
  let subscribed :=
    state_after (GoogleFacade.on (Ok tt) element sdk_map eventType (Callback h)) live in
  outcome (GoogleFacade.initialize (Ok tt) element sdk_map) this = Ok tt ∧
  UniversalMap.isReady (H := GoogleFacade.provider (Ok tt) element sdk_map) live = true ∧
  UniversalMap.eventEmitter live
    = EventEmitter.emit "load" (UniversalMap.eventEmitter this) ∧
  (GoogleFacade.emit eventType live).2 = [] ∧
  EventEmitter.delivered (UniversalMap.eventEmitter (GoogleFacade.emit eventType live).1)
    = (EventEmitter.delivered (UniversalMap.eventEmitter live)
       ++ ((λ handler, (handler, eventType))
             <$> handlers_of eventType (UniversalMap.eventEmitter live)))%list ∧
  (GoogleFacade.emit eventType subscribed).2 = [(Callback h, eventType)] ∧
  Callback h ∈ handlers_of eventType (UniversalMap.eventEmitter subscribed) ∧
  EventEmitter.delivered
      (UniversalMap.eventEmitter (GoogleFacade.emit eventType subscribed).1)
    = (EventEmitter.delivered (UniversalMap.eventEmitter subscribed)
       ++ ((λ handler, (handler, eventType))
             <$> handlers_of eventType (UniversalMap.eventEmitter subscribed)))%list.
Proof.
  intros Hi Hcont Hne Hkey Hel Hfw live subscribed.
  destruct this as [prov cfg em ini con].
  cbn [UniversalMap.initialized UniversalMap.config UniversalMap.eventEmitter] in *.
  subst ini.
  set (p1 := GoogleMapsProvider.mk (Some cfg) (Some container) ∅ ∅ true
               (Some sdk_map) (Some 11) (Some [])).
  set (pl := subscribe_forwarders UniversalMap.forwardedEventTypes p1).
  assert (run (GoogleFacade.initialize (Ok tt) element sdk_map)
            (UniversalMap.mk prov cfg em false con)
          = (UniversalMap.mk (Some pl) cfg (EventEmitter.emit "load" em) true con,
             Ok tt)) as Hrun.
  { unfold GoogleFacade.initialize.
    rewrite (run_facade_initialize (H := GoogleFacade.provider (Ok tt) element sdk_map)
               _ _ GoogleMapsProvider.new p1); [| done | done |].
    - cbn [UniversalMap.config UniversalMap.eventEmitter UniversalMap.console].
      unfold UniversalMap.setupEventForwarding. rewrite run_bind.
      cbn [run read UniversalMap.provider JS.defined negb].
      by rewrite google_forwarding.
    - cbn [UniversalMap.config IMapProvider.initialize GoogleFacade.provider
             GoogleMapsProvider.provider].
      rewrite run_google_initialize.
      unfold GoogleMapsProvider.validateConfig. rewrite Hcont, Hkey.
      cbn [JS.truthy_str]. destruct (String.eqb container "") eqn:Heq.
      + apply String.eqb_eq in Heq. done.
      + cbn. by rewrite Hel. }
  assert (live = UniversalMap.mk (Some pl) cfg (EventEmitter.emit "load" em) true con)
    as Hlive by (unfold live, state_after; by rewrite Hrun).
  assert (GoogleMapsProvider.eventHandlers pl !! eventType = Some [Forwarder eventType])
    as Hpl.
  { unfold pl. rewrite subscribe_forwarders_handlers.
    by rewrite bool_decide_eq_true_2. }
  set (em1 := EventEmitter.emit "load" em) in *.
  assert (subscribed
          = UniversalMap.mk
              (Some (state_after (GoogleMapsProvider.on eventType (Callback h)) pl))
              cfg (EventEmitter.on eventType (Callback h) em1) true con) as Hsub.
  { unfold subscribed. by rewrite Hlive. }
  unfold outcome. rewrite Hrun. rewrite Hsub, Hlive. clear Hsub Hlive live subscribed.
  unfold GoogleFacade.emit.
  cbn [UniversalMap.provider UniversalMap.eventEmitter snd fst].
  rewrite Hpl.
  assert (GoogleMapsProvider.eventHandlers
            (state_after (GoogleMapsProvider.on eventType (Callback h)) pl) !! eventType
          = Some [Forwarder eventType; Callback h]) as ->.
  { unfold state_after.
    cbn [run GoogleMapsProvider.on modify fst GoogleMapsProvider.eventHandlers].
    by rewrite lookup_insert_eq, Hpl. }
  cbn [default from_option id foldl GoogleFacade.handle fst snd app].
  unfold state_after.
  cbn [run UniversalMap.on_emitter modify fst UniversalMap.eventEmitter
         UniversalMap.provider UniversalMap.config UniversalMap.initialized
         UniversalMap.console].
  destruct (emit_effect eventType em1) as (Hd & _).
  destruct (emit_effect eventType (EventEmitter.on eventType (Callback h) em1))
    as (Hd' & _).
  repeat split; try done.
  rewrite handlers_of_on. apply elem_of_set_add.
Qed.

Lemma X28_handler_subscribed_on_a_live_map_runs_twice_witness :
  let element := λ id, String.eqb id "map" in
  let sdk_map := GoogleMap.mk None None None None None [] in
  let live := state_after (GoogleFacade.initialize (Ok tt) element sdk_map) Demo.fresh_map in
  let subscribed :=
    state_after (GoogleFacade.on (Ok tt) element sdk_map "click" (Callback 1)) live in
  (GoogleFacade.emit "click" subscribed).2 = [(Callback 1, "click")] ∧
  EventEmitter.delivered
      (UniversalMap.eventEmitter (GoogleFacade.emit "click" subscribed).1)
    = [(Callback 1, "click")].
Proof.
  intros element sdk_map live subscribed.
  destruct (X28_handler_subscribed_on_a_live_map_runs_twice element sdk_map
              Demo.fresh_map "map" "click" 1)
    as (_ & _ & _ & _ & _ & Hcalled & _ & _).
  - reflexivity.
  - reflexivity.
  - discriminate.
  - reflexivity.
  - reflexivity.
  - unfold UniversalMap.forwardedEventTypes. left.
  - split; [exact Hcalled |]. vm_compute. reflexivity.
Defined.

(** ** providers/google/loader.ts *)

Ltac split_single_flight :=
  unfold single_flight;
  cbn [GoogleMapsAPILoader.status GoogleMapsAPILoader.loadPromise
         GoogleMapsAPILoader.error GoogleMapsAPILoader.google
         GoogleMapsAPILoader.scripts GoogleMapsAPILoader.promises
         GoogleMapsAPILoader.calls];
  split; [| split; [| split; [| split; [| split; [| split]]]]].

Lemma lookup_snoc_Some {A} (l : list A) (x y : A) (i : nat) :
  (l ++ [x])%list !! i = Some y → l !! i = Some y ∨ y = x.
Proof.
  intros Hi. destruct (decide (i < length l)) as [Hlt | Hge].
  - rewrite lookup_app_l in Hi by done. by left.
  - rewrite lookup_app_r in Hi by lia.
    destruct (i - length l) as [| n]; cbn in Hi; [| done].
    right. by injection Hi.
Qed.

Lemma lookup_insert_Some' {A} (l : list A) (x y : A) (i j : nat) :
  <[i := x]> l !! j = Some y → l !! j = Some y ∨ y = x.
Proof.
  intros Hj. destruct (decide (i = j)) as [<- | Hne].
  - destruct (decide (i < length l)) as [Hlt | Hge].
    + rewrite list_lookup_insert_eq in Hj by done. right. by injection Hj.
    + rewrite list_insert_ge in Hj by lia. by left.
  - rewrite list_lookup_insert_ne in Hj by done. by left.
Qed.

Lemma single_flight_answer (google0 : bool)
    (st : GoogleMapsAPILoader.LoadStatus) (lp : option nat) (er : option error)
    (g : bool) (sc : nat) (ps : list GoogleMapsAPILoader.Promise)
    (cs : list GoogleMapsAPILoader.Call) (c : GoogleMapsAPILoader.Call) :
  st ≠ GoogleMapsAPILoader.NOT_LOADED →
  (∀ p, c ≠ GoogleMapsAPILoader.Awaits p) →
  single_flight google0 (GoogleMapsAPILoader.mk st lp er g sc ps cs) →
  single_flight google0 (GoogleMapsAPILoader.mk st lp er g sc ps (cs ++ [c])).
Proof.
  intros Hst Hc (A & B & C & D & E & F & G). cbn in A, B, C, D, E, F, G.
  split_single_flight; try done.
  intros i p Hi. apply lookup_snoc_Some in Hi as [Hi | Hi]; [by eapply A |].
  symmetry in Hi. by destruct (Hc p).
Qed.

Lemma load_single_flight (google0 : bool) (this : GoogleMapsAPILoader.t) :
  single_flight google0 this → single_flight google0 (GoogleMapsAPILoader.load this).
Proof.
  intros Hinv. pose proof Hinv as (A & B & C & D & E & F & G).
  destruct this as [st lp er g sc ps cs]. cbn in A, B, C, D, E, F, G.
  destruct st.
  - destruct (B eq_refl) as (-> & -> & ->). unfold GoogleMapsAPILoader.load. cbn.
    split_single_flight; try done.
    + intros [| i] p Hi; [done | by cbn in Hi].
    + intros _. split; [by eexists |]. split; [done |]. destruct g; lia.
    + intros [| p] Hp; cbn in Hp; [by destruct g | done].
    + intros Hg. destruct (G Hg) as [-> _]. done.
  - destruct (C ltac:(done)) as ([p ->] & _).
    unfold GoogleMapsAPILoader.load. cbn. by apply single_flight_answer.
  - rewrite (E eq_refl) in *.
    unfold GoogleMapsAPILoader.load. cbn. by apply single_flight_answer.
  - destruct (D eq_refl) as [e ->].
    unfold GoogleMapsAPILoader.load. cbn. destruct lp; by apply single_flight_answer.
Qed.

Lemma script_event_single_flight (google0 : bool) (p : nat) (loaded : option bool)
    (this : GoogleMapsAPILoader.t) :
  single_flight google0 this →
  single_flight google0 (GoogleMapsAPILoader.script_event p loaded this).
Proof.
  intros Hinv. pose proof Hinv as (A & B & C & D & E & F & G).
  unfold GoogleMapsAPILoader.script_event.
  destruct (GoogleMapsAPILoader.promises this !! p) as [[| |] |] eqn:Hp; try done.
  destruct this as [st lp er g sc ps cs]. cbn in A, B, C, D, E, F, G, Hp.
  split_single_flight; try done.
  - intros Hst. destruct (B Hst) as (-> & _). done.
  - intros Hst. rewrite length_insert. by apply C.
  - intros Hst. destruct loaded as [[|] |]; [done | by apply E | by apply E].
  - intros q Hq. apply lookup_insert_Some' in Hq as [Hq | Hq].
    + rewrite (F _ Hq). by destruct loaded as [[|] |].
    + by destruct loaded as [[|] |].
  - intros Hg. destruct (G Hg) as [-> ->]. by destruct loaded as [[|] |].
Qed.

Lemma resume_single_flight (google0 : bool) (i : nat) (this : GoogleMapsAPILoader.t) :
  single_flight google0 this →
  single_flight google0 (GoogleMapsAPILoader.resume i this).
Proof.
  intros Hinv. pose proof Hinv as (A & B & C & D & E & F & G).
  unfold GoogleMapsAPILoader.resume.
  destruct (GoogleMapsAPILoader.calls this !! i) as [[| e | p | p] |] eqn:Hi; try done.
  - (* a call that shares the promise *)
    assert (GoogleMapsAPILoader.status this ≠ GoogleMapsAPILoader.NOT_LOADED) as Hst.
    { intros Hst. destruct (B Hst) as (_ & _ & Hcs). by rewrite Hcs in Hi. }
    destruct (GoogleMapsAPILoader.promises this !! p) as [[| | e] |] eqn:Hp; try done;
      destruct this as [st lp er g sc ps cs]; cbn in A, B, C, D, E, F, G, Hi, Hp, Hst;
      (split_single_flight; try done;
       intros j q Hj; apply lookup_insert_Some' in Hj as [Hj | Hj];
       [by eapply A | done]).
  - (* the call that started the load *)
    destruct (A _ _ Hi) as [-> Hst].
    destruct (GoogleMapsAPILoader.promises this !! p) as [[| | e] |] eqn:Hp; try done;
      destruct this as [st lp er g sc ps cs]; cbn in A, B, C, D, E, F, G, Hi, Hp, Hst;
      subst st.
    + split_single_flight; try done.
      * intros [| j] q Hj.
        -- rewrite list_lookup_insert_eq in Hj by (by eapply lookup_lt_Some). done.
        -- rewrite list_lookup_insert_ne in Hj by done. by destruct (A _ _ Hj).
      * intros _. by apply C.
      * intros _. by eapply F.
    + split_single_flight; try done.
      * intros [| j] q Hj.
        -- rewrite list_lookup_insert_eq in Hj by (by eapply lookup_lt_Some). done.
        -- rewrite list_lookup_insert_ne in Hj by done. by destruct (A _ _ Hj).
      * intros _. by apply C.
Qed.

Lemma loader_event_single_flight (google0 : bool) (event : LoaderEvent.t)
    (this : GoogleMapsAPILoader.t) :
  single_flight google0 this → single_flight google0 (LoaderEvent.perform event this).
Proof.
  destruct event; cbn [LoaderEvent.perform];
    [apply load_single_flight | apply script_event_single_flight
     | apply resume_single_flight].
Qed.

Lemma loader_events_single_flight (google0 : bool) (events : list LoaderEvent.t) :
  single_flight google0 (LoaderEvent.perform_all events (LoaderEvent.start google0)).
Proof.
  unfold LoaderEvent.perform_all.
  assert (single_flight google0 (LoaderEvent.start google0)) as H0.
  { unfold single_flight, LoaderEvent.start. cbn. repeat split; try done.
    all: intros; by subst. }
  revert H0. generalize (LoaderEvent.start google0).
  induction events as [| event events IH]; intros this Hthis; [done |].
  cbn [foldl]. apply IH. by apply loader_event_single_flight.
Qed.

(** A failed loader stays as it is, but for the log of its calls. *)
Lemma failed_loader_is_stuck (google0 : bool) (event : LoaderEvent.t)
    (this : GoogleMapsAPILoader.t) :
  single_flight google0 this →
  GoogleMapsAPILoader.status this = GoogleMapsAPILoader.FAILED →
  GoogleMapsAPILoader.status (LoaderEvent.perform event this) = GoogleMapsAPILoader.FAILED ∧
  GoogleMapsAPILoader.error (LoaderEvent.perform event this) = GoogleMapsAPILoader.error this ∧
  GoogleMapsAPILoader.scripts (LoaderEvent.perform event this) = GoogleMapsAPILoader.scripts this.
Proof.
  intros (A & B & C & D & E & F & G) Hst.
  destruct (D Hst) as [e He].
  destruct event as [| p loaded | i]; cbn [LoaderEvent.perform].
  - destruct this as [st lp er g sc ps cs]. cbn in *. subst.
    unfold GoogleMapsAPILoader.load. cbn. by destruct lp.
  - unfold GoogleMapsAPILoader.script_event.
    by destruct (GoogleMapsAPILoader.promises this !! p) as [[| |] |].
  - unfold GoogleMapsAPILoader.resume.
    destruct (GoogleMapsAPILoader.calls this !! i) as [[| e' | p | p] |] eqn:Hi; try done.
    + by destruct (GoogleMapsAPILoader.promises this !! p) as [[| |] |].
    + destruct (A _ _ Hi) as [_ Hst']. congruence.
Qed.

(** X29.  Whatever calls of [load()] are made and however the script
    settles, the loader appends at most one script element to the page,
    and none when the API was there from the start.  On a loader that
    is loaded [load()] returns at once.  A failure is final: on a loader
    that has failed every later [load()] throws the stored error without
    a new script, and nothing that happens afterwards takes the loader
    out of the failed state, so a failed load is never tried again.
    ([window.google.maps], once there, is taken to stay.) *)
Theorem X29_loader_loads_at_most_once (google0 : bool) (events : list LoaderEvent.t) :
  let this := LoaderEvent.perform_all events (LoaderEvent.start google0) in
  (GoogleMapsAPILoader.scripts this ≤ 1)%nat ∧
  (google0 = true → GoogleMapsAPILoader.scripts this = 0) ∧
  (GoogleMapsAPILoader.isLoaded this = true →
     GoogleMapsAPILoader.calls (GoogleMapsAPILoader.load this)
       = (GoogleMapsAPILoader.calls this ++ [GoogleMapsAPILoader.Returns])%list ∧
     GoogleMapsAPILoader.scripts (GoogleMapsAPILoader.load this)
       = GoogleMapsAPILoader.scripts this) ∧
  (GoogleMapsAPILoader.status this = GoogleMapsAPILoader.FAILED →
     ∃ e, GoogleMapsAPILoader.error this = Some e ∧
          GoogleMapsAPILoader.calls (GoogleMapsAPILoader.load this)
            = (GoogleMapsAPILoader.calls this ++ [GoogleMapsAPILoader.Throws e])%list ∧
          ∀ more,
            GoogleMapsAPILoader.status (LoaderEvent.perform_all more this)
              = GoogleMapsAPILoader.FAILED ∧
            GoogleMapsAPILoader.error (LoaderEvent.perform_all more this) = Some e ∧
            GoogleMapsAPILoader.scripts (LoaderEvent.perform_all more this)
              = GoogleMapsAPILoader.scripts this).
Proof.
  intros this. pose proof (loader_events_single_flight google0 events) as Hinv.
  fold this in Hinv. pose proof Hinv as (A & B & C & D & E & F & G).
  split; [| split; [| split]].
  - destruct (GoogleMapsAPILoader.status this) eqn:Hst.
    + destruct (B eq_refl) as (_ & -> & _). lia.
    + by apply C.
    + by apply C.
    + by apply C.
  - by apply G.
  - intros Hl. unfold GoogleMapsAPILoader.isLoaded in Hl.
    unfold GoogleMapsAPILoader.load. by rewrite Hl.
  - intros Hst. destruct (D Hst) as [e He]. exists e. split; [done |]. split.
    + unfold GoogleMapsAPILoader.load. rewrite Hst, He. cbn.
      by destruct (GoogleMapsAPILoader.loadPromise this).
    + intros more. unfold LoaderEvent.perform_all.
      revert Hinv Hst He. generalize this as s. clear.
      induction more as [| event more IH]; intros s Hinv Hst He; [done |].
      cbn [foldl].
      destruct (failed_loader_is_stuck google0 event s Hinv Hst) as (Hst1 & He1 & Hsc1).
      destruct (IH (LoaderEvent.perform event s)) as (Hst2 & He2 & Hsc2);
        [by apply loader_event_single_flight | done | congruence |].
      repeat split; [done | done | congruence].
Qed.
